(** * Jobly (tsuyokoya/jobly-express): the partial-update builder, the company
    and job models and the auth middleware, embedded in Rocq.

    The JavaScript sources are embedded shallowly:
    - JavaScript values are the inductive [value]; objects are association
      lists in [Object.keys] order; the column-name mapping [jsToSql], which
      the code only reads by key, is a [gmap] of its own properties, read
      through the prototype chain; [Number] gives doubles;
    - [throw] is the [Throw] constructor of [result]; the model methods, which
      are [async] functions awaiting [db.query], run in the state-and-error
      monad [M] over the database [Db.database];
    - [db.query(text, params)] is [Db.query]: the statement text the source
      builds is lexed, parsed and run on tables of typed rows, and every
      statement is recorded in the log of the database. *)

From Stdlib Require Import ZArith Ascii.
From stdpp Require Import gmap strings list pretty sorting.

Open Scope string_scope.
Open Scope list_scope.
Set Warnings "-register-all".

(** ** Characters and numerals *)

Module Text.

Definition code (c : ascii) : nat := nat_of_ascii c.

Definition is_digit (c : ascii) : bool := (48 <=? code c)%nat && (code c <=? 57)%nat.

Definition is_letter (c : ascii) : bool :=
  (65 <=? code c)%nat && (code c <=? 90)%nat || (97 <=? code c)%nat && (code c <=? 122)%nat.

Definition is_word_char (c : ascii) : bool :=
  is_letter c || is_digit c || (code c =? 95)%nat.

(** Space, tab, line feed, vertical tab, form feed, carriage return. *)
Definition is_space (c : ascii) : bool :=
  (code c =? 32)%nat || (9 <=? code c)%nat && (code c <=? 13)%nat.

(** The white space [String.prototype.trim] and [Number] strip, among the
    characters below 256: the above and the no-break space. *)
Definition is_js_space (c : ascii) : bool := is_space c || (code c =? 160)%nat.

Definition lower_char (c : ascii) : ascii :=
  if (65 <=? code c)%nat && (code c <=? 90)%nat then ascii_of_nat (code c + 32) else c.

Definition lower (s : string) : string :=
  String.string_of_list_ascii (lower_char <$> String.list_ascii_of_string s).

Definition trim_with (sp : ascii -> bool) (cs : list ascii) : list ascii :=
  let drop := fix drop (l : list ascii) : list ascii :=
    match l with
    | c :: l' => if sp c then drop l' else l
    | [] => []
    end in
  reverse (drop (reverse (drop cs))).

Definition digits_value (ds : list ascii) : Z :=
  fold_left (fun n c => 10 * n + Z.of_nat (code c - 48))%Z ds 0%Z.

Definition is_char (n : nat) (c : ascii) : bool := (code c =? n)%nat.

(** An optional sign in front of the rest. *)
Definition split_sign (cs : list ascii) : bool * list ascii :=
  match cs with
  | c :: cs' =>
      if is_char 45 c then (true, cs') else if is_char 43 c then (false, cs') else (false, cs)
  | [] => (false, [])
  end.

Definition signed (neg : bool) (n : Z) : Z := if neg then (- n)%Z else n.

(** A run of decimal digits, at least one. *)
Definition all_digits (ds : list ascii) : bool :=
  negb (length ds =? 0)%nat && forallb is_digit ds.

(** The digits before the first full stop, and those after it if there is
    one. *)
Fixpoint split_on_dot (cs : list ascii) : list ascii * option (list ascii) :=
  match cs with
  | [] => ([], None)
  | c :: cs' =>
      if is_char 46 c then ([], Some cs')
      else let '(whole, frac) := split_on_dot cs' in (c :: whole, frac)
  end.

(** The text before the first [e] or [E], and the text after it if there is
    one. *)
Fixpoint split_on_exponent (cs : list ascii) : list ascii * option (list ascii) :=
  match cs with
  | [] => ([], None)
  | c :: cs' =>
      if is_char 101 c || is_char 69 c then ([], Some cs')
      else let '(mantissa, exponent) := split_on_exponent cs' in (c :: mantissa, exponent)
  end.

(** The value of a digit in a base up to sixteen. *)
Definition digit_in (base : Z) (c : ascii) : option Z :=
  d ← (if is_digit c then Some (Z.of_nat (code c - 48))
       else if (97 <=? code c)%nat && (code c <=? 102)%nat then Some (Z.of_nat (code c - 87))
       else if (65 <=? code c)%nat && (code c <=? 70)%nat then Some (Z.of_nat (code c - 55))
       else None);
  if (d <? base)%Z then Some d else None.

(** A numeral in the base: at least one digit, and only digits. *)
Definition numeral (base : Z) (cs : list ascii) : option Z :=
  if (length cs =? 0)%nat then None
  else fold_left (fun acc c => n ← acc; d ← digit_in base c; Some (base * n + d)%Z)
         cs (Some 0%Z).

End Text.

(** ** JavaScript values *)

(** The fragment of JavaScript values the code handles. Numbers are the
    integers; floating point values are outside the model. [VNative name] is
    the built-in function of that name: the values every plain object
    inherits from [Object.prototype] are such functions. *)
Inductive value : Type :=
| VUndefined
| VNull
| VBool (b : bool)
| VNum (n : Z)
| VStr (s : string)
| VObj (fields : list (string * value))
| VNative (name : string).

(** A plain object: its own enumerable properties, in [Object.keys] order. *)
Abbreviation obj := (list (string * value)).

(** Exceptions: the classes of expressError.js the sources throw, the
    [TypeError] of the language, and the errors of the two libraries. *)
Inductive error : Type :=
| BadRequestError (msg : string)
| NotFoundError (msg : string)
| UnauthorizedError (msg : string)
| TypeError (msg : string)
| DatabaseError (msg : string)
| JsonWebTokenError (msg : string).

Inductive result (A : Type) : Type :=
| Ok (a : A)
| Throw (e : error).
Arguments Ok {A} a.
Arguments Throw {A} e.

(** Statements in sequence: a [throw] ends them. *)
#[global] Instance result_bind : MBind result :=
  fun A B f r => match r with Ok a => f a | Throw e => Throw e end.
#[global] Instance result_ret : MRet result := fun A a => Ok a.

Module JS.

(** The double quote character, and a string holding just it. *)
Definition dquote : ascii := ascii_of_nat 34.
Definition dq : string := String dquote EmptyString.

(** ToBoolean. *)
Definition truthy (v : value) : bool :=
  match v with
  | VUndefined | VNull => false
  | VBool b => b
  | VNum n => negb (n =? 0)%Z
  | VStr s => negb (String.eqb s "")
  | VObj _ => true
  | VNative _ => true
  end.

(** ToString, as applied by template literals and by [+] on a string. *)
Definition to_string (v : value) : string :=
  match v with
  | VUndefined => "undefined"
  | VNull => "null"
  | VBool true => "true"
  | VBool false => "false"
  | VNum n => pretty n
  | VStr s => s
  | VObj _ => "[object Object]"
  | VNative name => "function " +:+ name +:+ "() { [native code] }"
  end.

(** [a || b] and [a && b] *)
Definition or (a b : value) : value := if truthy a then a else b.
Definition and (a b : value) : value := if truthy a then b else a.

(** A Number: an IEEE 754 double. [Finite negative m e] is [m] times two to
    the [e], with the sign. *)
Inductive number : Type :=
| NaN
| Infinity (negative : bool)
| Finite (negative : bool) (m e : Z).

(** The integer nearest to [n / d], the even one of two equally near. *)
Definition nearest (n d : Z) : Z :=
  let q := (n / d)%Z in
  let r := (2 * (n mod d))%Z in
  if (r <? d)%Z then q
  else if (d <? r)%Z then (q + 1)%Z
  else if Z.even q then q else (q + 1)%Z.

(** The double nearest to [n / d], for [n] not negative and [d] positive,
    ties to even: a mantissa of 53 bits at the exponent [e], which is not
    below -1074, and [Infinity] from two to the 1024 on. *)
Definition to_double (negative : bool) (n d : Z) : number :=
  if (n =? 0)%Z then Finite negative 0 0 else
  let e0 := (Z.log2 n - Z.log2 d - 52)%Z in
  let below :=
    if (0 <=? e0)%Z then (n <? 2 ^ 52 * d * 2 ^ e0)%Z
    else (n * 2 ^ (- e0) <? 2 ^ 52 * d)%Z in
  let e := Z.max (if below then e0 - 1 else e0)%Z (-1074)%Z in
  let m := if (0 <=? e)%Z then nearest n (d * 2 ^ e) else nearest (n * 2 ^ (- e)) d in
  if (971 <? e)%Z || (e =? 971)%Z && (m =? 2 ^ 53)%Z then Infinity negative
  else Finite negative m e.

(** The prefix of a literal in base sixteen, eight or two. *)
Definition radix_prefix (cs : list ascii) : option (Z * list ascii) :=
  match cs with
  | c0 :: c1 :: ds =>
      if Text.is_char 48 c0 then
        if Text.is_char 120 c1 || Text.is_char 88 c1 then Some (16%Z, ds)
        else if Text.is_char 111 c1 || Text.is_char 79 c1 then Some (8%Z, ds)
        else if Text.is_char 98 c1 || Text.is_char 66 c1 then Some (2%Z, ds)
        else None
      else None
  | _ => None
  end.

(** A decimal literal without its sign: digits with an optional fraction,
    or a fraction alone, and an optional exponent. *)
Definition decimal (negative : bool) (cs : list ascii) : number :=
  let '(mantissa, exponent) := Text.split_on_exponent cs in
  let '(whole, fraction) := Text.split_on_dot mantissa in
  let fraction := default [] fraction in
  let exponent : option Z :=
    match exponent with
    | None => Some 0%Z
    | Some ex =>
        let '(neg, ds) := Text.split_sign ex in
        if Text.all_digits ds then Some (Text.signed neg (Text.digits_value ds)) else None
    end in
  if forallb Text.is_digit whole && forallb Text.is_digit fraction
     && negb (length whole + length fraction =? 0)%nat
  then match exponent with
       | Some x =>
           let k := (x - Z.of_nat (length fraction))%Z in
           let digits := Text.digits_value (whole ++ fraction) in
           if (0 <=? k)%Z then to_double negative (digits * 10 ^ k) 1
           else to_double negative digits (10 ^ (- k))
       | None => NaN
       end
  else NaN.

(** [Number(s)] on a string: white space trimmed, the empty string is zero;
    a literal with a radix prefix takes no sign; [Infinity] and the decimal
    literals take one; anything else is [NaN]. *)
Definition string_to_number (s : string) : number :=
  let cs := Text.trim_with Text.is_js_space (String.list_ascii_of_string s) in
  if (length cs =? 0)%nat then Finite false 0 0 else
  match radix_prefix cs with
  | Some (base, ds) =>
      match Text.numeral base ds with
      | Some n => to_double false n 1
      | None => NaN
      end
  | None =>
      let '(neg, ds) := Text.split_sign cs in
      if String.eqb (String.string_of_list_ascii ds) "Infinity" then Infinity neg
      else decimal neg ds
  end.

(** [Number(v)]. A number is itself: [VNum n] is the double of the integer
    [n], the nearest one if [n] is too large to be a double. *)
Definition to_number (v : value) : number :=
  match v with
  | VUndefined => NaN
  | VNull => Finite false 0 0
  | VBool b => Finite false (if b then 1 else 0) 0
  | VNum n => to_double (n <? 0)%Z (Z.abs n) 1
  | VStr s => string_to_number s
  | VObj _ => NaN
  | VNative _ => NaN
  end.

(** The mantissa with its sign, and the two parts of an exponent. *)
Definition signed_mantissa (negative : bool) (m : Z) : Z := if negative then (- m)%Z else m.
Definition up (e : Z) : Z := (2 ^ Z.max e 0)%Z.
Definition down (e : Z) : Z := (2 ^ Z.max (- e) 0)%Z.

(** [a > b] on numbers: false when either side is [NaN]. *)
Definition gt (a b : number) : bool :=
  match a, b with
  | NaN, _ | _, NaN => false
  | Infinity na, Infinity nb => nb && negb na
  | Infinity na, Finite _ _ _ => negb na
  | Finite _ _ _, Infinity nb => nb
  | Finite na ma ea, Finite nb mb eb =>
      (signed_mantissa nb mb * up eb * down ea <? signed_mantissa na ma * up ea * down eb)%Z
  end.

(** The number [x] is the integer [n]. *)
Definition is_integer (x : number) (n : Z) : Prop :=
  match x with
  | Finite negative m e => (signed_mantissa negative m * up e = n * down e)%Z
  | _ => False
  end.

(** [s.trim()] *)
Definition trim (s : string) : string :=
  String.string_of_list_ascii
    (Text.trim_with Text.is_js_space (String.list_ascii_of_string s)).

(** [rows[0]] on an array of objects *)
Definition first (rows : list obj) : value :=
  match rows with
  | r :: _ => VObj r
  | [] => VUndefined
  end.

(** [Object.keys(o)] and [Object.values(o)] *)
Definition Object_keys (o : obj) : list string := o.*1.
Definition Object_values (o : obj) : list value := o.*2.

(** The own property [k] of [o], [undefined] for a missing key: this is
    [o[k]] and [o.k] for the names the code reads from requests, payloads and
    rows, none of which is the name of an inherited property. *)
Fixpoint get (o : obj) (k : string) : value :=
  match o with
  | [] => VUndefined
  | (k', v) :: o' => if String.eqb k' k then v else get o' k
  end.

(** [k in o], [o.hasOwnProperty(k)] and [Object.keys(o).includes(k)], which
    agree on plain objects for the keys the code asks about. *)
Definition has (o : obj) (k : string) : bool :=
  existsb (String.eqb k) (Object_keys o).

(** [xs.includes(k)] on an array of strings *)
Definition includes (xs : list string) (k : string) : bool :=
  existsb (String.eqb k) xs.

(** [o[k] = v] on a plain object: an existing key keeps its place. *)
Fixpoint set (o : obj) (k : string) (v : value) : obj :=
  match o with
  | [] => [(k, v)]
  | (k', v') :: o' =>
      if String.eqb k' k then (k', v) :: o' else (k', v') :: set o' k v
  end.


(** What every plain object inherits from [Object.prototype]: its built-in
    methods, the function [Object] under [constructor], and the prototype
    itself, an object without enumerable properties, under [__proto__]. *)
Definition Object_prototype : list (string * value) :=
  [("constructor", VNative "Object");
   ("__defineGetter__", VNative "__defineGetter__");
   ("__defineSetter__", VNative "__defineSetter__");
   ("hasOwnProperty", VNative "hasOwnProperty");
   ("__lookupGetter__", VNative "__lookupGetter__");
   ("__lookupSetter__", VNative "__lookupSetter__");
   ("isPrototypeOf", VNative "isPrototypeOf");
   ("propertyIsEnumerable", VNative "propertyIsEnumerable");
   ("toString", VNative "toString");
   ("valueOf", VNative "valueOf");
   ("__proto__", VObj []);
   ("toLocaleString", VNative "toLocaleString")].

(** [m[k]] on the column-name mapping, a plain object of which [m] holds the
    own properties: the own property [k] if there is one, the inherited one
    otherwise, [undefined] when there is neither. *)
Definition index (m : gmap string value) (k : string) : value :=
  match m !! k with
  | Some v => v
  | None => get Object_prototype k
  end.

(** [v.p]: reading a property of [undefined] or [null] throws. *)
Definition prop (v : value) (p : string) : result value :=
  match v with
  | VUndefined =>
      Throw (TypeError ("Cannot read properties of undefined (reading '" +:+ p +:+ "')"))
  | VNull =>
      Throw (TypeError ("Cannot read properties of null (reading '" +:+ p +:+ "')"))
  | VObj o => Ok (get o p)
  | _ => Ok VUndefined
  end.

(** [a === b]. Two objects are [===] when they are the same object, which
    the model does not track: the code compares strings. *)
Definition strict_eq (a b : value) : bool :=
  match a, b with
  | VUndefined, VUndefined | VNull, VNull => true
  | VBool x, VBool y => Bool.eqb x y
  | VNum x, VNum y => (x =? y)%Z
  | VStr x, VStr y => String.eqb x y
  | VNative x, VNative y => String.eqb x y
  | _, _ => false
  end.

End JS.

(** ** helpers/sql.js *)

Record partial_update := { setCols : string; values : list value }.

(** [`"${jsToSql[colName] || colName}"=$${idx + 1}`] *)
Definition assignment (jsToSql : gmap string value) (idx : nat) (colName : string) : string :=
  JS.dq +:+ JS.to_string (JS.or (JS.index jsToSql colName) (VStr colName)) +:+ JS.dq
    +:+ "=$" +:+ pretty (idx + 1)%nat.

Definition sqlForPartialUpdate (dataToUpdate : obj) (jsToSql : gmap string value)
  : result partial_update :=
  let keys := JS.Object_keys dataToUpdate in
  if (length keys =? 0)%nat then Throw (BadRequestError "No data") else
  let cols := imap (assignment jsToSql) keys in
  Ok {| setCols := String.concat ", " cols;
        values := JS.Object_values dataToUpdate |}.

(** The names of the properties a plain object inherits. *)
Definition inherited (k : string) : Prop := k ∈ JS.Object_keys JS.Object_prototype.

#[global] Instance inherited_dec (k : string) : Decision (inherited k).
Proof. unfold inherited. apply _. Defined.

(** The column the builder names for field [k]: the name [m] maps [k] to
    when that name is truthy, and [k] itself when it is falsy; for a field
    [m] does not map, [k] itself, unless [k] is the name of an inherited
    property, which then stands for the mapped name, as a string. *)
Definition column_for (m : gmap string value) (k : string) : string :=
  match m !! k with
  | Some c => if JS.truthy c then JS.to_string c else k
  | None => if decide (inherited k) then JS.to_string (JS.get JS.Object_prototype k) else k
  end.





(** ** The database behind [db.query]

    [db] is a client of a PostgreSQL server. The model keeps the two tables
    the sources name and runs the statements they issue: the text is lexed
    and parsed into a statement, the parameters are converted to the type of
    the column they meet, and the statement is run on the rows. A statement
    the server would reject is a [DatabaseError]. *)

Module Db.

Inductive coltype : Type := TInt | TText | TNumeric.

(** A stored value. A [NUMERIC] is [m] scaled by ten to the [- scale]. *)
Inductive cell : Type :=
| CNull
| CInt (n : Z)
| CText (s : string)
| CNumeric (m : Z) (scale : nat).

#[global] Instance coltype_eq_dec : EqDecision coltype.
Proof. solve_decision. Defined.

#[global] Instance cell_eq_dec : EqDecision cell.
Proof. solve_decision. Defined.

Abbreviation row := (list (string * cell)).

Record relation := { rel_columns : list (string * coltype); rel_key : string }.

(** Modelled from the spec: the schema file (jobly-schema.sql) is not among
    the sources. The columns are those the statements name; their types follow
    the data model of the spec (integer, optional integer, decimal equity),
    [handle] and [id] being the keys. *)
Definition companies_rel : relation :=
  {| rel_columns := [("handle", TText); ("name", TText); ("description", TText);
                     ("num_employees", TInt); ("logo_url", TText)];
     rel_key := "handle" |}.

Definition jobs_rel : relation :=
  {| rel_columns := [("id", TInt); ("title", TText); ("salary", TInt);
                     ("equity", TNumeric); ("company_handle", TText)];
     rel_key := "id" |}.

(** The state of the server, and the statements received so far. *)
Record database := {
  companies : list row;
  jobs : list row;
  log : list (string * list value)
}.

Fixpoint assoc {A : Type} (l : list (string * A)) (k : string) : option A :=
  match l with
  | [] => None
  | (k', a) :: l' => if String.eqb k' k then Some a else assoc l' k
  end.

(** The value of column [c] in row [r]; a column the row does not list is
    null. *)
Definition field (r : row) (c : string) : cell := default CNull (assoc r c).

Fixpoint set_field (r : row) (c : string) (v : cell) : row :=
  match r with
  | [] => [(c, v)]
  | (c', v') :: r' =>
      if String.eqb c' c then (c', v) :: r' else (c', v') :: set_field r' c v
  end.

(** *** Lexing *)

Inductive token : Type :=
| TWord (w : string)
| TQuoted (w : string)
| TParam (n : nat)
| TSym (s : string).

Inductive lex_state : Type :=
| LStart
| LWord (acc : string)
| LParam (acc : list ascii)
| LQuoted (acc : string)
| LCmp (c : ascii).

Definition snoc (s : string) (c : ascii) : string := s +:+ String c EmptyString.

Definition flush (st : lex_state) : option (list token) :=
  match st with
  | LStart => Some []
  | LWord acc => Some [TWord acc]
  | LParam acc =>
      if Text.all_digits acc then Some [TParam (Z.to_nat (Text.digits_value acc))] else None
  | LQuoted _ => None
  | LCmp c => Some [TSym (String c EmptyString)]
  end.

Definition is_punct (c : ascii) : bool :=
  Text.is_char 61 c || Text.is_char 44 c || Text.is_char 40 c || Text.is_char 41 c
  || Text.is_char 42 c.

(** What a character starts when no token is in progress. *)
Definition start (c : ascii) : option (list token * lex_state) :=
  if Text.is_space c then Some ([], LStart)
  else if Text.is_word_char c then Some ([], LWord (String c EmptyString))
  else if Text.is_char 36 c then Some ([], LParam [])
  else if Text.is_char 34 c then Some ([], LQuoted EmptyString)
  else if Text.is_char 62 c || Text.is_char 60 c then Some ([], LCmp c)
  else if is_punct c then Some ([TSym (String c EmptyString)], LStart)
  else None.

(** One character: the tokens it completes and the state it leaves. *)
Definition step (st : lex_state) (c : ascii) : option (list token * lex_state) :=
  let restart :=
    pre ← flush st; '(ts, st') ← start c; Some (pre ++ ts, st') in
  match st with
  | LStart => start c
  | LWord acc => if Text.is_word_char c then Some ([], LWord (snoc acc c)) else restart
  | LParam acc => if Text.is_digit c then Some ([], LParam (acc ++ [c])) else restart
  | LQuoted acc =>
      if Text.is_char 34 c then Some ([TQuoted acc], LStart)
      else Some ([], LQuoted (snoc acc c))
  | LCmp c0 =>
      if Text.is_char 61 c
      then Some ([TSym (String c0 (String c EmptyString))], LStart)
      else restart
  end.

Fixpoint lex (st : lex_state) (s : string) : option (list token) :=
  match s with
  | EmptyString => flush st
  | String c s' => '(ts, st') ← step st c; rest ← lex st' s'; Some (ts ++ rest)
  end.

Definition tokens (s : string) : option (list token) := lex LStart s.

(** *** Parsing *)

Inductive cmp : Type := CmpEq | CmpGe | CmpLe | CmpGt | CmpILike.

(** A conjunct of a [WHERE] clause: a column compared with a parameter, or
    a bare name. *)
Inductive atom : Type :=
| ACmp (col : string) (op : cmp) (param : nat)
| ABare (name : string).

(** An output column [src AS alias]. *)
Record out_col := { src : string; alias : string }.

Inductive select_list : Type :=
| Star
| Cols (cs : list out_col).

Inductive statement : Type :=
| Select (sel : select_list) (from : string) (cond : list atom) (order_by : option string)
| Insert (into : string) (cols : list string) (vals : list nat) (returning : list out_col)
| Update (tbl : string) (sets : list (string * nat)) (cond : list atom)
    (returning : list out_col)
| Delete (from : string) (cond : list atom) (returning : list out_col).

#[global] Instance cmp_eq_dec : EqDecision cmp.
Proof. solve_decision. Defined.
#[global] Instance atom_eq_dec : EqDecision atom.
Proof. solve_decision. Defined.
#[global] Instance out_col_eq_dec : EqDecision out_col.
Proof. solve_decision. Defined.
#[global] Instance select_list_eq_dec : EqDecision select_list.
Proof. solve_decision. Defined.
#[global] Instance statement_eq_dec : EqDecision statement.
Proof. solve_decision. Defined.

(** The words that open a clause, and the others that are not names. *)
Definition clause_words : list string :=
  ["select"; "from"; "where"; "order"; "insert"; "into"; "values"; "returning";
   "update"; "set"; "delete"].

Definition other_reserved : list string := ["and"; "as"; "by"; "ilike"].

Definition is_word (w : string) (t : token) : bool :=
  match t with
  | TWord w' => String.eqb (Text.lower w') w
  | _ => false
  end.

Definition is_sym (s : string) (t : token) : bool :=
  match t with
  | TSym s' => String.eqb s' s
  | _ => false
  end.

(** The clauses of a statement: the tokens before the first clause word, then
    each clause word with the tokens up to the next. *)
Fixpoint clauses (ts : list token) : list token * list (string * list token) :=
  match ts with
  | [] => ([], [])
  | t :: ts' =>
      let '(pre, cs) := clauses ts' in
      match t with
      | TWord w =>
          if existsb (String.eqb (Text.lower w)) clause_words
          then ([], (Text.lower w, pre) :: cs)
          else (t :: pre, cs)
      | _ => (t :: pre, cs)
      end
  end.

(** The pieces of [ts] between the tokens [sep] accepts. *)
Fixpoint split_on (sep : token -> bool) (ts : list token) : list (list token) :=
  match ts with
  | [] => [[]]
  | t :: ts' =>
      if sep t then [] :: split_on sep ts'
      else match split_on sep ts' with
           | piece :: pieces => (t :: piece) :: pieces
           | [] => [[t]]
           end
  end.

(** A name: an unquoted word, folded to lower case, or a quoted one as it
    is. *)
Definition ident (t : token) : option string :=
  match t with
  | TWord w =>
      let w' := Text.lower w in
      if existsb (String.eqb w') (clause_words ++ other_reserved) then None else Some w'
  | TQuoted w => Some w
  | _ => None
  end.

Definition cmp_of (t : token) : option cmp :=
  if is_sym "=" t then Some CmpEq
  else if is_sym ">=" t then Some CmpGe
  else if is_sym "<=" t then Some CmpLe
  else if is_sym ">" t then Some CmpGt
  else if is_word "ilike" t then Some CmpILike
  else None.

Definition parse_atom (ts : list token) : option atom :=
  match ts with
  | [c; o; TParam n] => col ← ident c; op ← cmp_of o; Some (ACmp col op n)
  | [c] => name ← ident c; Some (ABare name)
  | _ => None
  end.

Definition parse_cond (ts : list token) : option (list atom) :=
  mapM parse_atom (split_on (is_word "and") ts).

Definition parse_out_col (ts : list token) : option out_col :=
  match ts with
  | [c] => name ← ident c; Some {| src := name; alias := name |}
  | [c; a; n] =>
      if is_word "as" a
      then name ← ident c; out ← ident n; Some {| src := name; alias := out |}
      else None
  | _ => None
  end.

Definition parse_out_cols (ts : list token) : option (list out_col) :=
  mapM parse_out_col (split_on (is_sym ",") ts).

Definition parse_select_list (ts : list token) : option select_list :=
  match ts with
  | [t] => if is_sym "*" t then Some Star else Cols <$> parse_out_cols ts
  | _ => Cols <$> parse_out_cols ts
  end.

Definition parse_set (ts : list token) : option (string * nat) :=
  match ts with
  | [c; e; TParam n] => if is_sym "=" e then col ← ident c; Some (col, n) else None
  | _ => None
  end.

Definition parse_name (ts : list token) : option string :=
  match ts with
  | [c] => ident c
  | _ => None
  end.

Definition parse_param (ts : list token) : option nat :=
  match ts with
  | [TParam n] => Some n
  | _ => None
  end.

(** The tokens between a pair of parentheses. *)
Definition parenthesised (ts : list token) : option (list token) :=
  match ts with
  | t :: ts' =>
      if is_sym "(" t then
        match reverse ts' with
        | t' :: rest => if is_sym ")" t' then Some (reverse rest) else None
        | [] => None
        end
      else None
  | [] => None
  end.

Definition parse_order (ts : list token) : option string :=
  match ts with
  | [b; c] => if is_word "by" b then ident c else None
  | _ => None
  end.

Definition clause_names (cs : list (string * list token)) (names : list string) : bool :=
  bool_decide (cs.*1 = names).

Definition parse_clauses (cs : list (string * list token)) : option statement :=
  match cs.*2 with
  | [s; f; w] =>
      if clause_names cs ["select"; "from"; "where"] then
        sel ← parse_select_list s; t ← parse_name f; c ← parse_cond w;
        Some (Select sel t c None)
      else None
  | [x; y; z; r] =>
      if clause_names cs ["select"; "from"; "where"; "order"] then
        sel ← parse_select_list x; t ← parse_name y; c ← parse_cond z; o ← parse_order r;
        Some (Select sel t c (Some o))
      else if clause_names cs ["insert"; "into"; "values"; "returning"] then
        match x, y with
        | [], t :: cols =>
            tbl ← ident t;
            cols ← parenthesised cols ≫= fun ts => mapM parse_name (split_on (is_sym ",") ts);
            vals ← parenthesised z ≫= fun ts => mapM parse_param (split_on (is_sym ",") ts);
            out ← parse_out_cols r;
            Some (Insert tbl cols vals out)
        | _, _ => None
        end
      else if clause_names cs ["update"; "set"; "where"; "returning"] then
        t ← parse_name x;
        sets ← mapM parse_set (split_on (is_sym ",") y);
        c ← parse_cond z; out ← parse_out_cols r;
        Some (Update t sets c out)
      else if clause_names cs ["delete"; "from"; "where"; "returning"] then
        match x with
        | [] =>
            t ← parse_name y; c ← parse_cond z; out ← parse_out_cols r;
            Some (Delete t c out)
        | _ => None
        end
      else None
  | _ => None
  end.

Definition parse (text : string) : option statement :=
  ts ← tokens text;
  match clauses ts with
  | ([], cs) => parse_clauses cs
  | _ => None
  end.

(** *** Values in and out *)

(** The text of an [INTEGER]: an optionally signed run of digits, white space
    around it allowed. *)
Definition parse_int (s : string) : option Z :=
  let '(neg, ds) :=
    Text.split_sign (Text.trim_with Text.is_space (String.list_ascii_of_string s)) in
  if Text.all_digits ds then Some (Text.signed neg (Text.digits_value ds)) else None.

(** The text of a [NUMERIC]: digits with an optional fraction. Exponents and
    the special values are outside the model. *)
Definition parse_numeric (s : string) : option (Z * nat) :=
  let '(neg, ds) :=
    Text.split_sign (Text.trim_with Text.is_space (String.list_ascii_of_string s)) in
  match Text.split_on_dot ds with
  | (whole, None) =>
      if Text.all_digits whole then Some (Text.signed neg (Text.digits_value whole), 0%nat)
      else None
  | (whole, Some frac) =>
      if negb (length (whole ++ frac) =? 0)%nat && forallb Text.is_digit (whole ++ frac)
      then Some (Text.signed neg (Text.digits_value (whole ++ frac)), length frac)
      else None
  end.

Definition in_int4 (n : Z) : bool := (-2147483648 <=? n)%Z && (n <=? 2147483647)%Z.

(** A parameter as a value of a column of type [ty]; [None] when the server
    rejects its text. [undefined] and [null] are sent as [NULL]. Objects are
    outside the model. *)
Definition coerce (ty : coltype) (v : value) : option cell :=
  match v with
  | VUndefined | VNull => Some CNull
  | VObj _ => None
  | _ =>
      match ty with
      | TText => Some (CText (JS.to_string v))
      | TInt =>
          n ← match v with
              | VNum n => Some n
              | VStr s => parse_int s
              | _ => None
              end;
          if in_int4 n then Some (CInt n) else None
      | TNumeric =>
          match v with
          | VNum n => Some (CNumeric n 0)
          | VStr s => '(m, scale) ← parse_numeric s; Some (CNumeric m scale)
          | _ => None
          end
      end
  end.

(** A [NUMERIC] as the client returns it: a decimal string. *)
Definition render_numeric (m : Z) (scale : nat) : string :=
  let ds := String.list_ascii_of_string (pretty (Z.abs m)) in
  let padded := replicate (S scale - length ds) (ascii_of_nat 48) ++ ds in
  let whole := take (length padded - scale) padded in
  let frac := drop (length padded - scale) padded in
  (if (m <? 0)%Z then "-" else "")
    +:+ String.string_of_list_ascii whole
    +:+ (if (scale =? 0)%nat then "" else "." +:+ String.string_of_list_ascii frac).

(** A stored value as the client returns it. *)
Definition to_js (c : cell) : value :=
  match c with
  | CNull => VNull
  | CInt n => VNum n
  | CText s => VStr s
  | CNumeric m scale => VStr (render_numeric m scale)
  end.

(** *** Conditions *)

(** [LIKE]: [%] matches any run of characters, [_] any one character, and a
    backslash takes the next character as it is. *)
Fixpoint like (pattern text : list ascii) : bool :=
  match pattern with
  | [] => match text with [] => true | _ => false end
  | p :: pattern' =>
      if Text.is_char 37 p then
        (fix any (t : list ascii) : bool :=
           like pattern' t || match t with [] => false | _ :: t' => any t' end) text
      else if Text.is_char 95 p then
        match text with [] => false | _ :: text' => like pattern' text' end
      else if Text.is_char 92 p then
        match pattern', text with
        | q :: pattern'', c :: text' => Ascii.eqb q c && like pattern'' text'
        | _, _ => false
        end
      else
        match text with
        | c :: text' => Ascii.eqb p c && like pattern' text'
        | [] => false
        end
  end.

Definition ilike (text pattern : string) : bool :=
  like (String.list_ascii_of_string (Text.lower pattern))
       (String.list_ascii_of_string (Text.lower text)).

Definition cmp_Z (op : cmp) (a b : Z) : bool :=
  match op with
  | CmpEq => (a =? b)%Z
  | CmpGe => (b <=? a)%Z
  | CmpLe => (a <=? b)%Z
  | CmpGt => (b <? a)%Z
  | CmpILike => false
  end.

(** [c op p] for a stored value [c] and a parameter [p] of the same type; a
    comparison with [NULL] selects nothing. *)
Definition test (op : cmp) (c p : cell) : bool :=
  match c, p with
  | CInt a, CInt b => cmp_Z op a b
  | CNumeric a sa, CNumeric b sb => cmp_Z op (a * 10 ^ Z.of_nat sb) (b * 10 ^ Z.of_nat sa)
  | CText a, CText b =>
      match op with
      | CmpEq => String.eqb a b
      | CmpILike => ilike a b
      | _ => false
      end
  | _, _ => false
  end.

(** The comparisons the sources make: equality on every type, the order on
    numbers, [ILIKE] on text. *)
Definition op_allowed (op : cmp) (ty : coltype) : bool :=
  match op, ty with
  | CmpEq, _ => true
  | CmpILike, TText => true
  | CmpILike, _ => false
  | _, TText => false
  | _, _ => true
  end.

Definition col_type (rel : relation) (c : string) : option coltype :=
  assoc (rel_columns rel) c.

(** [$n] *)
Definition param (params : list value) (n : nat) : option value :=
  match n with
  | O => None
  | S i => params !! i
  end.

(** A conjunct as a test on rows. A bare name is rejected: it names no
    column, or a column that is not a truth value. *)
Definition eval_atom (rel : relation) (params : list value) (a : atom)
  : option (row -> bool) :=
  match a with
  | ABare _ => None
  | ACmp col op n =>
      ty ← col_type rel col;
      v ← param params n;
      p ← coerce (match op with CmpILike => TText | _ => ty end) v;
      if op_allowed op ty then Some (fun r => test op (field r col) p) else None
  end.

Definition eval_cond (rel : relation) (params : list value) (c : list atom)
  : option (row -> bool) :=
  fs ← mapM (eval_atom rel params) c;
  Some (fun r => forallb (fun f : row -> bool => f r) fs).

(** *** Output *)

Definition project (rel : relation) (outs : list out_col) : option (row -> obj) :=
  _ ← mapM (fun o => col_type rel (src o)) outs;
  Some (fun r => (fun o => (alias o, to_js (field r (src o)))) <$> outs).

Definition all_columns (rel : relation) : list out_col :=
  (fun c => {| src := c; alias := c |}) <$> (rel_columns rel).*1.

Definition select (rel : relation) (sel : select_list) : option (row -> obj) :=
  match sel with
  | Star => project rel (all_columns rel)
  | Cols cs => project rel cs
  end.

(** [ORDER BY c]: ascending, nulls last, text by character code. *)
Definition cell_le (a b : cell) : bool :=
  match a, b with
  | _, CNull => true
  | CNull, _ => false
  | CInt x, CInt y => (x <=? y)%Z
  | CText x, CText y => String.leb x y
  | CNumeric x sx, CNumeric y sy => (x * 10 ^ Z.of_nat sy <=? y * 10 ^ Z.of_nat sx)%Z
  | _, _ => true
  end.

Fixpoint insert_sorted (c : string) (r : row) (rs : list row) : list row :=
  match rs with
  | [] => [r]
  | r' :: rs' =>
      if cell_le (field r c) (field r' c) then r :: rs else r' :: insert_sorted c r rs'
  end.

Definition order_rows (c : string) (rs : list row) : list row :=
  foldr (insert_sorted c) [] rs.

(** *** Statements *)

Definition relation_of (name : string) : option relation :=
  if String.eqb name "companies" then Some companies_rel
  else if String.eqb name "jobs" then Some jobs_rel
  else None.

Definition rows_of (d : database) (name : string) : list row :=
  if String.eqb name "companies" then companies d else jobs d.

Definition with_rows (d : database) (name : string) (rs : list row) : database :=
  if String.eqb name "companies"
  then {| companies := rs; jobs := jobs d; log := log d |}
  else {| companies := companies d; jobs := rs; log := log d |}.

(** The key of every row is set and no two rows share it. *)
Definition key_ok (rel : relation) (rs : list row) : bool :=
  let keys := (fun r => field r (rel_key rel)) <$> rs in
  forallb (fun k => match k with CNull => false | _ => true end) keys
  && bool_decide (NoDup keys).

(** The key of the new row [r] is set and no row of [rs] holds it. *)
Definition key_free (rel : relation) (rs : list row) (r : row) : bool :=
  match field r (rel_key rel) with
  | CNull => false
  | k => forallb (fun r' : row => negb (test CmpEq (field r' (rel_key rel)) k)) rs
  end.

Definition resolve (rel : relation) (params : list value) (sets : list (string * nat))
  : option (list (string * cell)) :=
  mapM (fun '(col, n) =>
          ty ← col_type rel col; v ← param params n; c ← coerce ty v; Some (col, c)) sets.

Definition assign (r : row) (sets : list (string * cell)) : row :=
  foldl (fun r '(c, v) => set_field r c v) r sets.

Definition exec (s : statement) (params : list value) (d : database)
  : option (list obj * database) :=
  match s with
  | Select sel from cond order_by =>
      rel ← relation_of from;
      out ← select rel sel;
      f ← eval_cond rel params cond;
      let found := List.filter f (rows_of d from) in
      match order_by with
      | None => Some (out <$> found, d)
      | Some c => _ ← col_type rel c; Some (out <$> order_rows c found, d)
      end
  | Insert into cols vals returning =>
      rel ← relation_of into;
      out ← project rel returning;
      if negb (length cols =? length vals)%nat || negb (bool_decide (NoDup cols)) then None else
      sets ← resolve rel params (zip cols vals);
      let r : row := (fun c => (c, default CNull (assoc sets c))) <$> (rel_columns rel).*1 in
      if key_free rel (rows_of d into) r
      then Some ([out r], with_rows d into (rows_of d into ++ [r]))
      else None
  | Update tbl sets cond returning =>
      rel ← relation_of tbl;
      out ← project rel returning;
      if negb (bool_decide (NoDup sets.*1)) then None else
      sets' ← resolve rel params sets;
      f ← eval_cond rel params cond;
      let rs := (fun r : row => if (f r : bool) then assign r sets' else r) <$> rows_of d tbl in
      if existsb (String.eqb (rel_key rel)) sets.*1 && negb (key_ok rel rs) then None else
      Some ((fun r : row => out (assign r sets')) <$> List.filter f (rows_of d tbl),
            with_rows d tbl rs)
  | Delete from cond returning =>
      rel ← relation_of from;
      out ← project rel returning;
      f ← eval_cond rel params cond;
      Some (out <$> List.filter f (rows_of d from),
            with_rows d from (List.filter (fun r : row => negb (f r)) (rows_of d from)))
  end.

Definition logged (d : database) (text : string) (params : list value) : database :=
  {| companies := companies d; jobs := jobs d; log := log d ++ [(text, params)] |}.

(** [await db.query(text, params)]: the rows of the result, or the error the
    client throws. The statement is logged either way. *)
Definition query (text : string) (params : list value) (d : database)
  : result (list obj) * database :=
  let d := logged d text params in
  match parse text with
  | None => (Throw (DatabaseError "syntax error"), d)
  | Some s =>
      match exec s params d with
      | None => (Throw (DatabaseError "statement rejected"), d)
      | Some (rows, d') => (Ok rows, d')
      end
  end.

End Db.
(** ** The models *)

(** An [async] method: it reads and changes the database, and returns or
    throws. *)
Definition M (A : Type) : Type := Db.database -> result A * Db.database.

Definition ret {A : Type} (a : A) : M A := fun d => (Ok a, d).

Definition throw {A : Type} (e : error) : M A := fun d => (Throw e, d).

Definition bind {A B : Type} (m : M A) (k : A -> M B) : M B :=
  fun d =>
    match m d with
    | (Ok a, d') => k a d'
    | (Throw e, d') => (Throw e, d')
    end.

Notation "'let*' x ':=' m 'in' k" := (bind m (fun x => k))
  (at level 10, x name, m at level 100, k at level 200).

(** A synchronous call that may throw. *)
Definition lift {A : Type} (r : result A) : M A := fun d => (r, d).

(** models/company.js *)

Definition selectQuery (from : string) (where_ : list string) (fields : list value)
  : M (list obj) :=
  let whereClause :=
    String.concat " AND " (imap (fun i col => col +:+ " = $" +:+ pretty (i + 1)%nat) where_) in
  Db.query ("SELECT * FROM " +:+ from +:+ " WHERE " +:+ whereClause) fields.

Module Company.

Definition insert_sql : string :=
  "INSERT INTO companies
           (handle, name, description, num_employees, logo_url)
           VALUES ($1, $2, $3, $4, $5)
           RETURNING handle, name, description, num_employees AS "
    +:+ JS.dq +:+ "numEmployees" +:+ JS.dq +:+ ", logo_url AS "
    +:+ JS.dq +:+ "logoUrl" +:+ JS.dq.

Definition create (data : obj) : M value :=
  let handle := JS.get data "handle" in
  let name := JS.get data "name" in
  let description := JS.get data "description" in
  let numEmployees := JS.get data "numEmployees" in
  let logoUrl := JS.get data "logoUrl" in
  let* duplicateCheck := selectQuery "companies" ["handle"] [handle] in
  if JS.truthy (JS.first duplicateCheck)
  then throw (BadRequestError ("Duplicate company: " +:+ JS.to_string handle))
  else
    let* result := Db.query insert_sql [handle; name; description; numEmployees; logoUrl] in
    let company := JS.first result in
    ret company.

Definition validFilters : list string := ["name"; "minEmployees"; "maxEmployees"].

(** The clauses and their values, as the three [if] statements push them. *)
Definition clauses (query : obj) : list string * list value :=
  let filters : list string := [] in
  let filtersValues : list value := [] in
  let '(filters, filtersValues) :=
    if JS.has query "name" then
      let queryPortion := "name ILIKE $" +:+ pretty (length filters + 1)%nat in
      (filters ++ [queryPortion],
       filtersValues ++ [VStr ("%" +:+ JS.to_string (JS.get query "name") +:+ "%")])
    else (filters, filtersValues) in
  let '(filters, filtersValues) :=
    if JS.has query "minEmployees" then
      let queryPortion := "num_employees >= $" +:+ pretty (length filters + 1)%nat in
      (filters ++ [queryPortion], filtersValues ++ [JS.get query "minEmployees"])
    else (filters, filtersValues) in
  let '(filters, filtersValues) :=
    if JS.has query "maxEmployees" then
      let queryPortion := "num_employees <= $" +:+ pretty (length filters + 1)%nat in
      (filters ++ [queryPortion], filtersValues ++ [JS.get query "maxEmployees"])
    else (filters, filtersValues) in
  (filters, filtersValues).

(** [filters.length > 1 ? filters.join(" AND ") : filters[0]] *)
Definition join_filters (filters : list string) : value :=
  if (1 <? length filters)%nat then VStr (String.concat " AND " filters)
  else match filters with
       | f :: _ => VStr f
       | [] => VUndefined
       end.

Definition filter_sql (filtersQuery : value) : string :=
  "
        SELECT *
        FROM companies
        WHERE " +:+ JS.to_string filtersQuery +:+ "
        ORDER BY name
      ".

Definition filter (query : obj) : M (list obj) :=
  if existsb (fun key => Bool.eqb (JS.includes validFilters key) false) (JS.Object_keys query)
  then throw (BadRequestError "Invalid filter")
  else if JS.includes (JS.Object_keys query) "minEmployees"
          && JS.includes (JS.Object_keys query) "maxEmployees"
          && JS.gt (JS.to_number (JS.get query "minEmployees"))
                   (JS.to_number (JS.get query "maxEmployees"))
  then throw (BadRequestError "minEmployees cannot be greater than maxEmployees")
  else
    let '(filters, filtersValues) := clauses query in
    let filtersQuery := join_filters filters in
    let sqlQuery := filter_sql filtersQuery in
    let* companiesRes := Db.query sqlQuery filtersValues in
    ret companiesRes.

(** The company [get] returns: the properties of its row, and the array of
    job rows stored under its [jobs] key. *)
Record with_jobs := { company : obj; jobs : list obj }.

Definition get (handle : value) : M with_jobs :=
  let* companyRes := selectQuery "companies" ["handle"] [handle] in
  match companyRes with
  | [] => throw (NotFoundError ("No company: " +:+ JS.to_string handle))
  | company :: _ =>
      let* job := selectQuery "jobs" ["company_handle"] [handle] in
      ret {| company := company; jobs := job |}
  end.

Definition jsToSql : gmap string value :=
  {[ "numEmployees" := VStr "num_employees"; "logoUrl" := VStr "logo_url" ]}.

Definition update_sql (setCols handleVarIdx : string) : string :=
  "UPDATE companies
                      SET " +:+ setCols +:+ "
                      WHERE handle = " +:+ handleVarIdx +:+ "
                      RETURNING handle,
                                name,
                                description,
                                num_employees AS " +:+ JS.dq +:+ "numEmployees" +:+ JS.dq +:+ ",
                                logo_url AS " +:+ JS.dq +:+ "logoUrl" +:+ JS.dq.

Definition update (handle : value) (data : obj) : M value :=
  let* su := lift (sqlForPartialUpdate data jsToSql) in
  let handleVarIdx := "$" +:+ pretty (length (values su) + 1)%nat in
  let querySql := update_sql (setCols su) handleVarIdx in
  let* result := Db.query querySql (values su ++ [handle]) in
  let company := JS.first result in
  if negb (JS.truthy company)
  then throw (NotFoundError ("No company: " +:+ JS.to_string handle))
  else ret company.

Definition delete_sql : string :=
  "DELETE
           FROM companies
           WHERE handle = $1
           RETURNING handle".

Definition remove (handle : value) : M unit :=
  let* result := Db.query delete_sql [handle] in
  let company := JS.first result in
  if negb (JS.truthy company)
  then throw (NotFoundError ("No company: " +:+ JS.to_string handle))
  else ret tt.

End Company.

(** models/job.js *)

Module Job.

Definition validFilters : list string := ["title"; "minSalary"; "hasEquity"].

(** The clauses and their values, as the three [if] statements push them. *)
Definition clauses (query : obj) : list string * list value :=
  let filters : list string := [] in
  let filtersValues : list value := [] in
  let '(filters, filtersValues) :=
    if JS.has query "title" then
      let queryPortion := "title ILIKE $" +:+ pretty (length filters + 1)%nat in
      (filters ++ [queryPortion],
       filtersValues ++ [VStr ("%" +:+ JS.to_string (JS.get query "title") +:+ "%")])
    else (filters, filtersValues) in
  let '(filters, filtersValues) :=
    if JS.has query "minSalary" then
      let queryPortion := "salary >= $" +:+ pretty (length filters + 1)%nat in
      (filters ++ [queryPortion], filtersValues ++ [JS.get query "minSalary"])
    else (filters, filtersValues) in
  let '(filters, filtersValues) :=
    if JS.has query "hasEquity" && JS.strict_eq (JS.get query "hasEquity") (VStr "true") then
      let queryPortion := "equity > $" +:+ pretty (length filters + 1)%nat in
      (filters ++ [queryPortion], filtersValues ++ [VNum 0])
    else (filters, filtersValues) in
  (filters, filtersValues).

(** [filters.length > 1 ? filters.join(" AND ") : filters[0]] *)
Definition join_filters (filters : list string) : value :=
  if (1 <? length filters)%nat then VStr (String.concat " AND " filters)
  else match filters with
       | f :: _ => VStr f
       | [] => VUndefined
       end.

Definition filter_sql (filtersQuery : value) : string :=
  "SELECT id, title, salary, equity, company_handle
      FROM jobs
      WHERE " +:+ JS.to_string filtersQuery +:+ "
      ORDER BY company_handle".

Definition filter (query : obj) : M (list obj) :=
  if existsb (fun key => Bool.eqb (JS.includes validFilters key) false) (JS.Object_keys query)
  then throw (BadRequestError "Invalid filter")
  else
    let '(filters, filtersValues) := clauses query in
    let filtersQuery := join_filters filters in
    let sqlQuery := filter_sql filtersQuery in
    let* jobsRes := Db.query sqlQuery filtersValues in
    ret jobsRes.

Definition get_job_sql : string :=
  "SELECT id, title, salary, equity, company_handle
           FROM jobs
           WHERE title = $1".

Definition get_company_sql : string :=
  "SELECT handle, name, description, num_employees, logo_url
      FROM companies
      WHERE handle=$1".

(** [job] is [jobRes.rows[0]]: [undefined], which [!job] catches, when there
    is no row. *)
Definition get (title : value) : M value :=
  let* jobRes := Db.query get_job_sql [title] in
  match jobRes with
  | [] => throw (NotFoundError ("No job: " +:+ JS.to_string title))
  | job :: _ =>
      let* company := Db.query get_company_sql [JS.get job "company_handle"] in
      let job := JS.set job "company_handle" (JS.first company) in
      ret (VObj job)
  end.

Definition update_sql (setCols idVarIdx : string) : string :=
  "UPDATE jobs
                      SET " +:+ setCols +:+ "
                      WHERE id = " +:+ idVarIdx +:+ "
                      RETURNING id, title, salary, equity, company_handle".

Definition update (id : value) (data : obj) : M value :=
  let* su := lift (sqlForPartialUpdate data ∅) in
  let idVarIdx := "$" +:+ pretty (length (values su) + 1)%nat in
  let querySql := update_sql (setCols su) idVarIdx in
  let* result := Db.query querySql (values su ++ [id]) in
  let job := JS.first result in
  if negb (JS.truthy job)
  then throw (NotFoundError ("No company: " +:+ JS.to_string id))
  else ret job.

Definition delete_sql : string :=
  "DELETE
           FROM jobs
           WHERE id = $1
           RETURNING id".

Definition remove (id : value) : M unit :=
  let* result := Db.query delete_sql [id] in
  let job := JS.first result in
  if negb (JS.truthy job)
  then throw (NotFoundError ("No job: " +:+ JS.to_string id))
  else ret tt.

End Job.

(** ** middleware/auth.js *)

(** What a middleware passes on: [next()] or [next(err)]. *)
Inductive passed : Type :=
| Next
| NextErr (err : error).

Definition finish (r : result unit) : passed :=
  match r with
  | Ok _ => Next
  | Throw err => NextErr err
  end.

(** [authHeader.replace(/^[Bb]earer /, "")] *)
Definition strip_bearer (authHeader : string) : string :=
  match authHeader with
  | String c rest =>
      if (Text.is_char 66 c || Text.is_char 98 c) && String.prefix "earer " rest
      then String.substring 6 (String.length rest - 6) rest
      else authHeader
  | EmptyString => authHeader
  end.

(** The prefix dropped whatever the case of its letters. *)
Definition strip_bearer_any_case (authHeader : string) : string :=
  if String.eqb (Text.lower (String.substring 0 7 authHeader)) "bearer "
  then String.substring 7 (String.length authHeader - 7) authHeader
  else authHeader.

Section Auth.

(** [jwt.verify] of the jsonwebtoken library, which returns the payload of
    the token or throws, and the secret of the configuration. *)
Context (jwt_verify : string -> string -> result value) (SECRET_KEY : string).

(** The request [req] and [res.locals] before; [res.locals] after, and the
    call of [next]. *)
Definition authenticateJWT (req : obj) (locals : obj) : obj * passed :=
  let body : result obj :=
    authHeader ←
      (let headers := JS.get req "headers" in
       if JS.truthy headers then JS.prop headers "authorization" else Ok headers);
    if JS.truthy authHeader then
      match authHeader with
      | VStr s =>
          let token := JS.trim (strip_bearer s) in
          user ← jwt_verify token SECRET_KEY;
          Ok (JS.set locals "user" user)
      | _ => Throw (TypeError "authHeader.replace is not a function")
      end
    else Ok locals in
  match body with
  | Ok locals' => (locals', Next)
  | Throw _ => (locals, Next)
  end.

(** With a header [s] the request leaves with the payload of the token
    [strip s], trimmed, as its identity when the token verifies, and as it
    came when it does not. *)
Definition attaches_after (strip : string -> string) : Prop :=
  forall (req locals headers : obj) (s : string),
    JS.get req "headers" = VObj headers ->
    JS.get headers "authorization" = VStr s ->
    s <> "" ->
    fst (authenticateJWT req locals) =
      match jwt_verify (JS.trim (strip s)) SECRET_KEY with
      | Ok payload => JS.set locals "user" payload
      | Throw _ => locals
      end.

End Auth.

(** A verifier for examples: the token [tok] alone verifies, whatever the
    secret, and carries a user who is not an admin. *)
Definition verify_tok (token secret : string) : result value :=
  if String.eqb token "tok"
  then Ok (VObj [("username", VStr "u1"); ("isAdmin", VBool false)])
  else Throw (JsonWebTokenError "jwt malformed").

Definition ensureLoggedIn (locals : obj) : passed :=
  finish
    (if negb (JS.truthy (JS.get locals "user"))
     then Throw (UnauthorizedError "Not logged in")
     else Ok tt).

Definition ensureAdmin (locals : obj) : passed :=
  finish
    (let user := JS.get locals "user" in
     isAdmin ← JS.prop (JS.get locals "user") "isAdmin";
     if negb (JS.truthy isAdmin) || negb (JS.truthy (JS.get locals "user"))
     then Throw (UnauthorizedError "Not an admin")
     else Ok tt).

(** [params] is [req.params]. *)
Definition ensureValidUserOrAdmin (params : obj) (locals : obj) : passed :=
  finish
    (let user := JS.get locals "user" in
     ok ←
       (if JS.truthy user then
          isAdmin ← JS.prop user "isAdmin";
          if JS.truthy isAdmin then Ok true else
          username ← JS.prop user "username";
          Ok (JS.strict_eq username (JS.get params "username"))
        else Ok false);
     if negb ok
     then Throw (UnauthorizedError "Not a valid user or admin")
     else Ok tt).

(** ** Notions the properties are stated with *)

(** A row of [jobs], and a row of [companies], as the two statements of
    [Job.get] return them. *)
Definition job_object (j : Db.row) : obj :=
  [("id", Db.to_js (Db.field j "id")); ("title", Db.to_js (Db.field j "title"));
   ("salary", Db.to_js (Db.field j "salary")); ("equity", Db.to_js (Db.field j "equity"));
   ("company_handle", Db.to_js (Db.field j "company_handle"))].

Definition company_record (c : Db.row) : obj :=
  [("handle", Db.to_js (Db.field c "handle")); ("name", Db.to_js (Db.field c "name"));
   ("description", Db.to_js (Db.field c "description"));
   ("num_employees", Db.to_js (Db.field c "num_employees"));
   ("logo_url", Db.to_js (Db.field c "logo_url"))].


(** The text [selectQuery] builds for the duplicate check. *)
Definition select_company_sql : string := "SELECT * FROM companies WHERE handle = $1".

(** The row [Company.create] stores. *)
Definition company_row (handle name description num_employees logo_url : Db.cell) : Db.row :=
  [("handle", handle); ("name", name); ("description", description);
   ("num_employees", num_employees); ("logo_url", logo_url)].

(** A database for examples, with the rows of the tests of the models. *)
Definition sample_db : Db.database :=
  {| Db.companies :=
       [company_row (Db.CText "c1") (Db.CText "C1") (Db.CText "Desc1") (Db.CInt 1)
          (Db.CText "http://c1.img");
        company_row (Db.CText "c2") (Db.CText "C2") (Db.CText "Desc2") (Db.CInt 2)
          (Db.CText "http://c2.img")];
     Db.jobs :=
       [[("id", Db.CInt 1); ("title", Db.CText "title1"); ("salary", Db.CInt 100);
         ("equity", Db.CNumeric 0 1); ("company_handle", Db.CText "c1")];
        [("id", Db.CInt 2); ("title", Db.CText "title2"); ("salary", Db.CInt 200);
         ("equity", Db.CNumeric 2 1); ("company_handle", Db.CText "c2")]];
     Db.log := [] |}.




(** The text [Job.filter] sends when no clause was pushed. *)
Definition where_undefined_sql : string :=
  "SELECT id, title, salary, equity, company_handle
      FROM jobs
      WHERE undefined
      ORDER BY company_handle".

(** The columns [Job.filter] selects, and the conjuncts of its condition
    according to the clauses pushed. *)
Definition job_columns : list Db.out_col :=
  [{| Db.src := "id"; Db.alias := "id" |};
   {| Db.src := "title"; Db.alias := "title" |};
   {| Db.src := "salary"; Db.alias := "salary" |};
   {| Db.src := "equity"; Db.alias := "equity" |};
   {| Db.src := "company_handle"; Db.alias := "company_handle" |}].

Definition job_filter_atoms (title minSalary hasEquity : bool) : list Db.atom :=
  let a1 := if title then [Db.ACmp "title" Db.CmpILike 1] else [] in
  let a2 := if minSalary then [Db.ACmp "salary" Db.CmpGe (length a1 + 1)] else [] in
  let a3 :=
    if hasEquity then [Db.ACmp "equity" Db.CmpGt (length a1 + length a2 + 1)] else [] in
  a1 ++ a2 ++ a3.

(** The query asks for jobs with equity: the test of the third [if]. *)
Definition wants_equity (query : obj) : bool :=
  JS.has query "hasEquity" && JS.strict_eq (JS.get query "hasEquity") (VStr "true").

(** The lists of at most [n] elements of [xs]. *)
Fixpoint sequences (xs : list string) (n : nat) : list (list string) :=
  match n with
  | O => [[]]
  | S n' => [] :: (x ← xs; (fun s => x :: s) <$> sequences xs n')
  end.

(** The fields an update of a company, and of a job, may carry, and the type
    of the column behind each. *)
Definition company_fields : list string := ["name"; "description"; "numEmployees"; "logoUrl"].

Definition job_fields : list string := ["title"; "salary"; "equity"].

Definition field_type (k : string) : Db.coltype :=
  if String.eqb k "numEmployees" || String.eqb k "salary" then Db.TInt
  else if String.eqb k "equity" then Db.TNumeric
  else Db.TText.

(** The columns an update of a company, and of a job, returns. *)
Definition company_returning : list Db.out_col :=
  [{| Db.src := "handle"; Db.alias := "handle" |};
   {| Db.src := "name"; Db.alias := "name" |};
   {| Db.src := "description"; Db.alias := "description" |};
   {| Db.src := "num_employees"; Db.alias := "numEmployees" |};
   {| Db.src := "logo_url"; Db.alias := "logoUrl" |}].

(** The statement an update sends, for the keys [ks] of its payload. *)
Definition update_statement (tbl key : string) (m : gmap string value)
    (returning : list Db.out_col) (ks : list string) : Db.statement :=
  Db.Update tbl (imap (fun i k => (column_for m k, S i)) ks)
    [Db.ACmp key Db.CmpEq (S (length ks))] returning.

Definition company_update_text (ks : list string) : string :=
  Company.update_sql (String.concat ", " (imap (assignment Company.jsToSql) ks))
    ("$" +:+ pretty (length ks + 1)%nat).

Definition job_update_text (ks : list string) : string :=
  Job.update_sql (String.concat ", " (imap (assignment ∅) ks))
    ("$" +:+ pretty (length ks + 1)%nat).

(** What the server must find in the statement of an update with the keys
    [ks], whatever the values: it parses to [update_statement], no column is
    assigned twice, the key is not assigned, and each column has the type of
    its field. *)
Definition update_checked (text : list string -> string) (tbl : string)
    (rel : Db.relation) (m : gmap string value) (returning : list Db.out_col)
    (ks : list string) : bool :=
  bool_decide (Db.parse (text ks) =
               Some (update_statement tbl (Db.rel_key rel) m returning ks))
  && bool_decide (NoDup (column_for m <$> ks))
  && negb (existsb (String.eqb (Db.rel_key rel)) (column_for m <$> ks))
  && forallb (fun k => bool_decide (Db.col_type rel (column_for m k) = Some (field_type k))) ks.

(** A payload an update accepts: not empty, its keys among [fields] and
    distinct, and each value one the column of its field takes, as [cells]
    give them. *)
Definition payload_for (fields : list string) (data : obj) (cells : list Db.cell) : Prop :=
  data <> [] /\ NoDup data.*1 /\ Forall (fun k => k ∈ fields) data.*1 /\
  Forall2 (fun kv c => Db.coerce (field_type kv.1) kv.2 = Some c) data cells.

(** A row of [companies] as [Company.update] returns it. *)
Definition company_object (c : Db.row) : obj :=
  [("handle", Db.to_js (Db.field c "handle")); ("name", Db.to_js (Db.field c "name"));
   ("description", Db.to_js (Db.field c "description"));
   ("numEmployees", Db.to_js (Db.field c "num_employees"));
   ("logoUrl", Db.to_js (Db.field c "logo_url"))].

(** The row [r'] is [r] with the values [cells] of the payload [data] in the
    columns of its fields, and the other columns as they were. *)
Definition updated_with (m : gmap string value) (data : obj) (cells : list Db.cell)
    (r r' : Db.row) : Prop :=
  (forall (i : nat) (k : string) (v : value) (c : Db.cell),
     data !! i = Some (k, v) -> cells !! i = Some c ->
     Db.field r' (column_for m k) = c) /\
  (forall col : string, col ∉ column_for m <$> data.*1 -> Db.field r' col = Db.field r col).

(** An update of a company whose handle no row holds fails with NotFound,
    whatever the payload. *)
Definition update_always_not_found : Prop :=
  forall (h : string) (data : obj) (d : Db.database),
    Forall (fun c => Db.field c "handle" <> Db.CText h) (Db.companies d) ->
    exists (msg : string) (d' : Db.database),
      Company.update (VStr h) data d = (Throw (NotFoundError msg), d').

(** The value [x] is the integer [n], of at most 53 bits, given as a number
    or as an unsigned decimal numeral. *)
Definition safe_integer (x : value) (n : Z) : Prop :=
  (Z.abs n <= 2 ^ 53)%Z /\
  (x = VNum n \/
   exists ds : list ascii,
     ds <> [] /\ Forall (fun c => Text.is_digit c = true) ds /\
     x = VStr (String.string_of_list_ascii ds) /\ n = Text.digits_value ds).

(** A company query whose [minEmployees] is the numeral of an integer above
    the integer of its [maxEmployees] fails with BadRequest and sends
    nothing, whatever the two integers. *)
Definition min_above_max_rejected : Prop :=
  forall (lo hi : Z) (query : obj) (d : Db.database),
    JS.get query "minEmployees" = VStr (pretty lo) ->
    JS.get query "maxEmployees" = VStr (pretty hi) ->
    (lo > hi)%Z ->
    exists msg : string, Company.filter query d = (Throw (BadRequestError msg), d).

(** The conjuncts of the condition of [Company.filter] according to the
    clauses pushed, and the text it sends when none was. *)
Definition company_filter_atoms (name minEmployees maxEmployees : bool) : list Db.atom :=
  let a1 := if name then [Db.ACmp "name" Db.CmpILike 1] else [] in
  let a2 :=
    if minEmployees then [Db.ACmp "num_employees" Db.CmpGe (length a1 + 1)] else [] in
  let a3 :=
    if maxEmployees then [Db.ACmp "num_employees" Db.CmpLe (length a1 + length a2 + 1)]
    else [] in
  a1 ++ a2 ++ a3.

Definition company_where_undefined_sql : string :=
  "
        SELECT *
        FROM companies
        WHERE undefined
        ORDER BY name
      ".



(** The rows are in the order of [ORDER BY c]. *)
Definition ordered_by (c : string) (rs : list Db.row) : Prop :=
  Sorted (fun r r' => Db.cell_le (Db.field r c) (Db.field r' c) = true) rs.

(** The text [selectQuery] builds for the jobs of a company. *)
Definition select_jobs_sql : string := "SELECT * FROM jobs WHERE company_handle = $1".

(** The jobs whose [company_handle] is [h], in the order of the table. *)
Definition jobs_of (h : string) (js : list Db.row) : list Db.row :=
  List.filter (fun j => bool_decide (Db.field j "company_handle" = Db.CText h)) js.

(** * Properties *)

(** ** The partial-update builder *)

Section PartialUpdate.
Implicit Types (d : obj) (m : gmap string value).






Lemma sqlForPartialUpdate_cons kv d m :
  sqlForPartialUpdate (kv :: d) m =
    Ok {| setCols := String.concat ", " (imap (assignment m) ((kv :: d).*1));
          values := (kv :: d).*2 |}.
Proof. reflexivity. Qed.




End PartialUpdate.







(** ** The auth middleware *)

Section AuthProps.
Context (jwt_verify : string -> string -> result value) (SECRET_KEY : string).

Lemma authenticateJWT_next (req locals : obj) :
  snd (authenticateJWT jwt_verify SECRET_KEY req locals) = Next.
Proof.
  unfold authenticateJWT.
  match goal with |- snd (match ?b with _ => _ end) = _ => destruct b end; reflexivity.
Qed.

Lemma authenticateJWT_header (req locals headers : obj) (s : string) :
  JS.get req "headers" = VObj headers ->
  JS.get headers "authorization" = VStr s ->
  s <> "" ->
  fst (authenticateJWT jwt_verify SECRET_KEY req locals) =
    match jwt_verify (JS.trim (strip_bearer s)) SECRET_KEY with
    | Ok payload => JS.set locals "user" payload
    | Throw _ => locals
    end.
Proof.
  intros Hh Ha Hs. unfold authenticateJWT. rewrite Hh. simpl. rewrite Ha. simpl.
  destruct (String.eqb_spec s "") as [->|_]; [done|]. simpl.
  by destruct (jwt_verify _ _).
Qed.

Lemma authenticateJWT_no_header (req locals : obj) :
  JS.truthy (JS.get req "headers") = false \/
  (exists headers : obj, JS.get req "headers" = VObj headers /\
     JS.truthy (JS.get headers "authorization") = false) ->
  authenticateJWT jwt_verify SECRET_KEY req locals = (locals, Next).
Proof.
  unfold authenticateJWT. intros [Hh|(headers & Hh & Ha)].
  - rewrite Hh. simpl. by rewrite Hh.
  - rewrite Hh. simpl. by rewrite Ha.
Qed.

End AuthProps.

Lemma strip_bearer_prefix (t : string) :
  strip_bearer ("Bearer " +:+ t) = t /\ strip_bearer ("bearer " +:+ t) = t.
Proof.
  unfold strip_bearer. simpl. change ("" +:+ t) with t. simpl.
  replace (String.length t - 0)%nat with (String.length t) by lia.
  assert (Hsub : String.substring 0 (String.length t) t = t).
  { clear. induction t as [|c t IH]; simpl; [done|by rewrite IH]. }
  rewrite Hsub. by destruct t.
Qed.

Lemma strip_bearer_other (s : string) :
  String.prefix "Bearer " s = false -> String.prefix "bearer " s = false ->
  strip_bearer s = s.
Proof.
  intros HB Hb. unfold strip_bearer. destruct s as [|c rest]; [done|].
  simpl in HB, Hb.
  destruct (Text.is_char 66 c) eqn:E66; simpl.
  - assert (c = ascii_of_nat 66) as ->.
    { unfold Text.is_char, Text.code in E66. apply Nat.eqb_eq in E66.
      by rewrite <- E66, ascii_nat_embedding. }
    simpl in HB. by rewrite HB.
  - destruct (Text.is_char 98 c) eqn:E98; simpl; [|done].
    assert (c = ascii_of_nat 98) as ->.
    { unfold Text.is_char, Text.code in E98. apply Nat.eqb_eq in E98.
      by rewrite <- E98, ascii_nat_embedding. }
    simpl in Hb. by rewrite Hb.
Qed.

(** C8 (as amended). The authenticate step never fails: it always calls
    [next()] without an error. With an Authorization header it drops a
    leading ["Bearer "] or ["bearer "] - the first letter in either case, the
    others in lower case only - and leaves any other header as it is, trims
    the result and verifies it, and attaches the payload as the identity only
    when the verification succeeds; with no header, or on a failed
    verification, the request leaves as it came. *)
Theorem authenticateJWT_spec
    (jwt_verify : string -> string -> result value) (SECRET_KEY : string) :
  (forall req locals : obj,
     snd (authenticateJWT jwt_verify SECRET_KEY req locals) = Next) /\
  attaches_after jwt_verify SECRET_KEY strip_bearer /\
  (forall t : string,
     strip_bearer ("Bearer " +:+ t) = t /\ strip_bearer ("bearer " +:+ t) = t) /\
  (forall s : string,
     String.prefix "Bearer " s = false -> String.prefix "bearer " s = false ->
     strip_bearer s = s) /\
  (forall req locals : obj,
     JS.truthy (JS.get req "headers") = false \/
     (exists headers : obj, JS.get req "headers" = VObj headers /\
        JS.truthy (JS.get headers "authorization") = false) ->
     authenticateJWT jwt_verify SECRET_KEY req locals = (locals, Next)).
Proof.
  split; [apply authenticateJWT_next|].
  split; [intros req locals headers s; apply authenticateJWT_header|].
  split; [apply strip_bearer_prefix|].
  split; [apply strip_bearer_other|apply authenticateJWT_no_header].
Qed.

Lemma authenticateJWT_spec_witness :
  authenticateJWT verify_tok "secret"
    [("headers", VObj [("authorization", VStr "bearer tok")])] [] =
    ([("user", VObj [("username", VStr "u1"); ("isAdmin", VBool false)])], Next) /\
  authenticateJWT verify_tok "secret" [("headers", VObj [])] [] = ([], Next).
Proof.
  split.
  - apply injective_projections.
    + rewrite (proj1 (proj2 (authenticateJWT_spec verify_tok "secret"))
                 [("headers", VObj [("authorization", VStr "bearer tok")])] []
                 [("authorization", VStr "bearer tok")] "bearer tok");
        [reflexivity | reflexivity | reflexivity | discriminate].
    + apply (proj1 (authenticateJWT_spec verify_tok "secret")).
  - apply (proj2 (proj2 (proj2 (proj2 (authenticateJWT_spec verify_tok "secret"))))).
    right. exists []. split; reflexivity.
Defined.

(** C8 as stated fails: the prefix is not dropped in every casing. The header
    ["BEARER tok"] carries a token that verifies, yet the request leaves with
    no identity. *)
Lemma authenticateJWT_any_case_counterexample :
  ~ attaches_after verify_tok "secret" strip_bearer_any_case.
Proof.
  intros H.
  specialize (H [("headers", VObj [("authorization", VStr "BEARER tok")])] []
                [("authorization", VStr "BEARER tok")] "BEARER tok"
                eq_refl eq_refl).
  vm_compute in H. specialize (H ltac:(discriminate)). discriminate H.
Qed.

(** C3: the failing input. With no identity attached the require-admin guard
    reads [isAdmin] of [undefined] before it tests the identity: what it
    passes to [next] is a TypeError, not Unauthorized. *)
Theorem ensureAdmin_no_identity :
  ensureAdmin [] =
    NextErr (TypeError "Cannot read properties of undefined (reading 'isAdmin')") /\
  (forall msg : string, ensureAdmin [] <> NextErr (UnauthorizedError msg)).
Proof. split; [reflexivity|]. intros msg. vm_compute. discriminate. Qed.

(** The rest of C3 holds: an identity whose admin flag is falsy is refused
    with Unauthorized, and the guard passes exactly when the flag is
    truthy. *)
Lemma ensureAdmin_identity (locals user : obj) :
  JS.get locals "user" = VObj user ->
  ensureAdmin locals =
    if JS.truthy (JS.get user "isAdmin") then Next
    else NextErr (UnauthorizedError "Not an admin").
Proof.
  intros Hu. unfold ensureAdmin. rewrite Hu. simpl.
  by destruct (JS.truthy (JS.get user "isAdmin")).
Qed.

(** The sibling guards test the identity first and refuse its absence with
    Unauthorized. *)
Lemma sibling_guards_no_identity (params locals : obj) :
  JS.get locals "user" = VUndefined ->
  ensureLoggedIn locals = NextErr (UnauthorizedError "Not logged in") /\
  ensureValidUserOrAdmin params locals =
    NextErr (UnauthorizedError "Not a valid user or admin").
Proof.
  intros Hu. unfold ensureLoggedIn, ensureValidUserOrAdmin. by rewrite Hu.
Qed.

(** ** The database *)

Arguments Db.parse : simpl never.
Arguments Db.query : simpl never.

Section DbProps.
Import Db.

Lemma query_ok text params d s rows d' :
  parse text = Some s ->
  exec s params (logged d text params) = Some (rows, d') ->
  query text params d = (Ok rows, d').
Proof. intros Hp He. unfold query. simpl. by rewrite Hp, He. Qed.

Lemma query_rejected text params d s :
  parse text = Some s ->
  exec s params (logged d text params) = None ->
  query text params d =
    (Throw (DatabaseError "statement rejected"), logged d text params).
Proof. intros Hp He. unfold query. simpl. by rewrite Hp, He. Qed.

Lemma query_inv text params d rows d' :
  query text params d = (Ok rows, d') ->
  exists s : statement,
    parse text = Some s /\ exec s params (logged d text params) = Some (rows, d').
Proof.
  unfold query. simpl. destruct (parse text) as [s|]; [|discriminate].
  destruct (exec s params _) as [[rows0 d0]|] eqn:He; [|discriminate].
  intros [= -> ->]. by exists s.
Qed.

(** [ORDER BY] rearranges the rows. *)
Lemma insert_sorted_perm (c : string) (r : row) (rs : list row) :
  insert_sorted c r rs ≡ₚ r :: rs.
Proof.
  induction rs as [|r' rs IH]; simpl; [done|].
  destruct (cell_le _ _); [done|]. by rewrite IH, Permutation_swap.
Qed.

Lemma order_rows_perm (c : string) (rs : list row) : order_rows c rs ≡ₚ rs.
Proof.
  induction rs as [|r rs IH]; simpl; [done|].
  by rewrite insert_sorted_perm, IH.
Qed.

(** A condition that holds makes each of its conjuncts hold. *)
Lemma eval_cond_atom rel params cond f a :
  eval_cond rel params cond = Some f -> a ∈ cond ->
  exists g : row -> bool,
    eval_atom rel params a = Some g /\ forall r, f r = true -> g r = true.
Proof.
  unfold eval_cond. intros Hf Hin.
  destruct (mapM (eval_atom rel params) cond) as [fs|] eqn:Hm; [|discriminate].
  simpl in Hf. injection Hf as <-.
  apply mapM_Some_1 in Hm. revert Hin.
  induction Hm as [|a' g' cond' fs' Ha' _ IH]; intros Hin; [by apply elem_of_nil in Hin|].
  apply elem_of_cons in Hin as [->|Hin].
  - exists g'. split; [done|]. simpl. intros r Hr. by apply andb_true_iff in Hr as [].
  - destruct (IH Hin) as (g & Hg & Himp). exists g. split; [done|].
    simpl. intros r Hr. apply andb_true_iff in Hr as []. by apply Himp.
Qed.

(** The rows a [SELECT] returns are rows of the table that meet its
    condition. *)
Lemma exec_select_rows sel from cond ob params d rows d' :
  exec (Select sel from cond ob) params d = Some (rows, d') ->
  exists (rel : relation) (out : row -> obj) (f : row -> bool),
    relation_of from = Some rel /\ select rel sel = Some out /\
    eval_cond rel params cond = Some f /\ d' = d /\
    Forall (fun o => exists r, r ∈ rows_of d from /\ f r = true /\ o = out r) rows.
Proof.
  intros H. simpl in H.
  destruct (relation_of from) as [rel|] eqn:Hrel; [|discriminate]. simpl in H.
  destruct (select rel sel) as [out|] eqn:Hout; [|discriminate]. simpl in H.
  destruct (eval_cond rel params cond) as [f|] eqn:Hf; [|discriminate]. simpl in H.
  exists rel, out, f. do 3 (split; [done|]).
  assert (Hsel : forall rs, rs ≡ₚ List.filter f (rows_of d from) ->
            Forall (fun o => exists r, r ∈ rows_of d from /\ f r = true /\ o = out r)
                   (out <$> rs)).
  { intros rs Hrs. apply Forall_fmap, Forall_forall. intros r Hr. exists r.
    rewrite Hrs in Hr. apply list_elem_of_In, List.filter_In in Hr as [Hin Hfr].
    split; [by apply list_elem_of_In|done]. }
  destruct ob as [c|].
  - destruct (col_type rel c); [|discriminate]. simpl in H. injection H as <- <-.
    split; [done|]. apply Hsel, order_rows_perm.
  - injection H as <- <-. split; [done|]. by apply Hsel.
Qed.

(** Equality with a text parameter selects the rows that hold it. *)
Lemma test_eq_text (c : cell) (s : string) :
  test CmpEq c (CText s) = true <-> c = CText s.
Proof.
  destruct c as [|n|s'|m sc]; simpl; try (split; [discriminate|congruence]).
  destruct (String.eqb_spec s' s); split; congruence.
Qed.

Lemma test_eq_int (c : cell) (n : Z) :
  test CmpEq c (CInt n) = true <-> c = CInt n.
Proof.
  destruct c as [|n'|s'|m sc]; simpl; try (split; [discriminate|congruence]).
  destruct (Z.eqb_spec n' n); split; congruence.
Qed.

(** The rows a condition selects, when none of them does, and when the
    first to do so is known. *)
Lemma filter_none {A} (f : A -> bool) (l : list A) :
  Forall (fun x => f x = false) l -> List.filter f l = [].
Proof. induction 1 as [|x l Hx _ IH]; simpl; [done|by rewrite Hx]. Qed.

Lemma filter_first {A} (f : A -> bool) (pre : list A) (x : A) (post : list A) :
  Forall (fun y => f y = false) pre -> f x = true ->
  List.filter f (pre ++ x :: post) = x :: List.filter f post.
Proof.
  intros Hpre Hx. rewrite List.filter_app, (filter_none _ _ Hpre). simpl. by rewrite Hx.
Qed.

Lemma filter_all {A} (f : A -> bool) (l : list A) :
  Forall (fun x => f x = false) l -> List.filter (fun x => negb (f x)) l = l.
Proof. induction 1 as [|x l Hx _ IH]; simpl; [done|by rewrite Hx, IH]. Qed.

End DbProps.

Opaque Db.query.

(** ** Job.get *)

Section JobGet.
Import Db.

Lemma parse_get_job :
  parse Job.get_job_sql =
    Some (Select (Cols [{| src := "id"; alias := "id" |};
                        {| src := "title"; alias := "title" |};
                        {| src := "salary"; alias := "salary" |};
                        {| src := "equity"; alias := "equity" |};
                        {| src := "company_handle"; alias := "company_handle" |}])
            "jobs" [ACmp "title" CmpEq 1] None).
Proof. vm_compute. reflexivity. Qed.

Lemma parse_get_company :
  parse Job.get_company_sql =
    Some (Select (Cols [{| src := "handle"; alias := "handle" |};
                        {| src := "name"; alias := "name" |};
                        {| src := "description"; alias := "description" |};
                        {| src := "num_employees"; alias := "num_employees" |};
                        {| src := "logo_url"; alias := "logo_url" |}])
            "companies" [ACmp "handle" CmpEq 1] None).
Proof. vm_compute. reflexivity. Qed.

Lemma query_get_job (t : string) (d : database) :
  query Job.get_job_sql [VStr t] d =
    (Ok (job_object <$>
           List.filter (fun r => test CmpEq (field r "title") (CText t)) (jobs d)),
     logged d Job.get_job_sql [VStr t]).
Proof.
  eapply query_ok; [apply parse_get_job|]. simpl. do 3 f_equal.
  apply List.filter_ext. intros r. apply andb_true_r.
Qed.

Lemma query_get_company (h : string) (d : database) :
  query Job.get_company_sql [VStr h] d =
    (Ok (company_record <$>
           List.filter (fun r => test CmpEq (field r "handle") (CText h)) (companies d)),
     logged d Job.get_company_sql [VStr h]).
Proof.
  eapply query_ok; [apply parse_get_company|]. simpl. do 3 f_equal.
  apply List.filter_ext. intros r. apply andb_true_r.
Qed.

Lemma not_selected_text (col t : string) (rs : list row) :
  Forall (fun r => field r col <> CText t) rs ->
  Forall (fun r => test CmpEq (field r col) (CText t) = false) rs.
Proof.
  intros H. eapply Forall_impl; [exact H|]. clear H. intros r Hr.
  destruct (test CmpEq (field r col) (CText t)) eqn:E; [|done].
  by apply test_eq_text in E.
Qed.

Lemma not_selected_int (col : string) (n : Z) (rs : list row) :
  Forall (fun r => field r col <> CInt n) rs ->
  Forall (fun r => test CmpEq (field r col) (CInt n) = false) rs.
Proof.
  intros H. eapply Forall_impl; [exact H|]. clear H. intros r Hr.
  destruct (test CmpEq (field r col) (CInt n)) eqn:E; [|done].
  by apply test_eq_int in E.
Qed.

Lemma Job_get_not_found (t : string) (d : database) :
  Forall (fun j => field j "title" <> CText t) (jobs d) ->
  Job.get (VStr t) d =
    (Throw (NotFoundError ("No job: " +:+ t)), logged d Job.get_job_sql [VStr t]).
Proof.
  intros Hno. unfold Job.get, bind. rewrite query_get_job.
  by rewrite (filter_none _ _ (not_selected_text _ _ _ Hno)).
Qed.

Lemma Job_get_found (t h : string) (d : database) (pre post cpre cpost : list row)
    (j c : row) :
  jobs d = pre ++ j :: post ->
  Forall (fun r => field r "title" <> CText t) pre ->
  field j "title" = CText t ->
  field j "company_handle" = CText h ->
  companies d = cpre ++ c :: cpost ->
  Forall (fun r => field r "handle" <> CText h) cpre ->
  field c "handle" = CText h ->
  Job.get (VStr t) d =
    (Ok (VObj [("id", to_js (field j "id")); ("title", VStr t);
               ("salary", to_js (field j "salary")); ("equity", to_js (field j "equity"));
               ("company_handle", VObj (company_record c))]),
     logged (logged d Job.get_job_sql [VStr t]) Job.get_company_sql [VStr h]).
Proof.
  intros Hj Hpre Ht Hh Hc Hcpre Hch. unfold Job.get, bind. rewrite query_get_job, Hj.
  rewrite (filter_first _ _ _ _ (not_selected_text _ _ _ Hpre))
    by (by apply test_eq_text).
  simpl. rewrite Hh. simpl. rewrite query_get_company. simpl. rewrite Hc.
  rewrite (filter_first _ _ _ _ (not_selected_text _ _ _ Hcpre))
    by (by apply test_eq_text).
  simpl. unfold ret. by rewrite Ht.
Qed.

End JobGet.

(** C4. [Job.get(t)] looks the job up by its title: when no job has the title
    [t] it fails with NotFound; otherwise it returns the first job with that
    title, with the row of the company that owns it - the columns handle,
    name, description, num_employees and logo_url - under the key
    [company_handle] in place of the handle. *)
Theorem Job_get_spec (t : string) (d : Db.database) :
  (Forall (fun j => Db.field j "title" <> Db.CText t) (Db.jobs d) ->
   Job.get (VStr t) d =
     (Throw (NotFoundError ("No job: " +:+ t)), Db.logged d Job.get_job_sql [VStr t])) /\
  (forall (pre post cpre cpost : list Db.row) (j c : Db.row) (h : string),
     Db.jobs d = pre ++ j :: post ->
     Forall (fun r => Db.field r "title" <> Db.CText t) pre ->
     Db.field j "title" = Db.CText t ->
     Db.field j "company_handle" = Db.CText h ->
     Db.companies d = cpre ++ c :: cpost ->
     Forall (fun r => Db.field r "handle" <> Db.CText h) cpre ->
     Db.field c "handle" = Db.CText h ->
     exists d' : Db.database,
       Job.get (VStr t) d =
         (Ok (VObj [("id", Db.to_js (Db.field j "id")); ("title", VStr t);
                    ("salary", Db.to_js (Db.field j "salary"));
                    ("equity", Db.to_js (Db.field j "equity"));
                    ("company_handle",
                     VObj [("handle", VStr h);
                           ("name", Db.to_js (Db.field c "name"));
                           ("description", Db.to_js (Db.field c "description"));
                           ("num_employees", Db.to_js (Db.field c "num_employees"));
                           ("logo_url", Db.to_js (Db.field c "logo_url"))])]), d') /\
       Db.companies d' = Db.companies d /\ Db.jobs d' = Db.jobs d).
Proof.
  split; [apply Job_get_not_found|].
  intros pre post cpre cpost j c h Hj Hpre Ht Hh Hc Hcpre Hch.
  eexists. split.
  - rewrite (Job_get_found t h d pre post cpre cpost j c) by done.
    unfold company_record. rewrite Hch. reflexivity.
  - split; reflexivity.
Qed.

Lemma Job_get_spec_witness :
  Job.get (VStr "nope") sample_db =
    (Throw (NotFoundError "No job: nope"), Db.logged sample_db Job.get_job_sql [VStr "nope"]) /\
  exists d' : Db.database,
    Job.get (VStr "title1") sample_db =
      (Ok (VObj [("id", VNum 1); ("title", VStr "title1"); ("salary", VNum 100);
                 ("equity", VStr "0.0");
                 ("company_handle",
                  VObj [("handle", VStr "c1"); ("name", VStr "C1");
                        ("description", VStr "Desc1"); ("num_employees", VNum 1);
                        ("logo_url", VStr "http://c1.img")])]), d') /\
    Db.companies d' = Db.companies sample_db /\ Db.jobs d' = Db.jobs sample_db.
Proof.
  split.
  - apply (proj1 (Job_get_spec "nope" sample_db)).
    repeat constructor; discriminate.
  - apply (proj2 (Job_get_spec "title1" sample_db)
             [] (drop 1 (Db.jobs sample_db)) [] (drop 1 (Db.companies sample_db))
             (default [] (head (Db.jobs sample_db)))
             (default [] (head (Db.companies sample_db))) "c1");
      try reflexivity; constructor.
Defined.

(** ** Company.create *)

Section CompanyCreate.
Import Db.

Lemma selectQuery_company (v : value) :
  selectQuery "companies" ["handle"] [v] = query select_company_sql [v].
Proof. reflexivity. Qed.

Lemma parse_select_company :
  parse select_company_sql = Some (Select Star "companies" [ACmp "handle" CmpEq 1] None).
Proof. vm_compute. reflexivity. Qed.

Lemma parse_insert_company :
  parse Company.insert_sql =
    Some (Insert "companies"
            ["handle"; "name"; "description"; "num_employees"; "logo_url"]
            [1; 2; 3; 4; 5]%nat
            [{| src := "handle"; alias := "handle" |};
             {| src := "name"; alias := "name" |};
             {| src := "description"; alias := "description" |};
             {| src := "num_employees"; alias := "numEmployees" |};
             {| src := "logo_url"; alias := "logoUrl" |}]).
Proof. vm_compute. reflexivity. Qed.

Lemma query_select_company (h : string) (d : database) :
  query select_company_sql [VStr h] d =
    (Ok (company_record <$>
           List.filter (fun r => test CmpEq (field r "handle") (CText h)) (companies d)),
     logged d select_company_sql [VStr h]).
Proof.
  eapply query_ok; [apply parse_select_company|]. simpl. do 3 f_equal.
  apply List.filter_ext. intros r. apply andb_true_r.
Qed.

Lemma Company_create_duplicate (data : obj) (h : string) (d : database) :
  JS.get data "handle" = VStr h ->
  Exists (fun c => field c "handle" = CText h) (companies d) ->
  Company.create data d =
    (Throw (BadRequestError ("Duplicate company: " +:+ h)),
     logged d select_company_sql [VStr h]).
Proof.
  intros Hh Hex. unfold Company.create, bind.
  rewrite Hh, selectQuery_company, query_select_company.
  destruct (List.filter _ (companies d)) as [|c cs] eqn:Hf; [|reflexivity].
  exfalso. apply Exists_exists in Hex as (c & Hin & Hc).
  assert (Hin' : In c (List.filter
             (fun r => test CmpEq (field r "handle") (CText h)) (companies d))).
  { apply List.filter_In. split; [by apply list_elem_of_In|by apply test_eq_text]. }
  by rewrite Hf in Hin'.
Qed.

Lemma key_free_fresh (h : string) (rs : list row) (r : row) :
  field r "handle" = CText h ->
  Forall (fun c => field c "handle" <> CText h) rs ->
  key_free companies_rel rs r = true.
Proof.
  intros Hr Hno. unfold key_free. simpl. rewrite Hr.
  apply forallb_forall. intros c Hin. apply negb_true_iff.
  apply (proj1 (Forall_forall _ _)) with (x := c) in Hno; [|by apply list_elem_of_In].
  destruct (test CmpEq (field c "handle") (CText h)) eqn:E; [|done].
  by apply test_eq_text in E.
Qed.

Lemma Company_create_fresh (data : obj) (h : string) (d : database)
    (name description num_employees logo_url : cell) :
  JS.get data "handle" = VStr h ->
  Forall (fun c => field c "handle" <> CText h) (companies d) ->
  coerce TText (JS.get data "name") = Some name ->
  coerce TText (JS.get data "description") = Some description ->
  coerce TInt (JS.get data "numEmployees") = Some num_employees ->
  coerce TText (JS.get data "logoUrl") = Some logo_url ->
  Company.create data d =
    (Ok (VObj [("handle", VStr h); ("name", to_js name);
               ("description", to_js description);
               ("numEmployees", to_js num_employees);
               ("logoUrl", to_js logo_url)]),
     {| companies :=
          companies d ++ [company_row (CText h) name description num_employees logo_url];
        jobs := jobs d;
        log := log d ++
          [(select_company_sql, [VStr h]);
           (Company.insert_sql,
            [VStr h; JS.get data "name"; JS.get data "description";
             JS.get data "numEmployees"; JS.get data "logoUrl"])] |}).
Proof.
  intros Hh Hno Hn Hd He Hl. unfold Company.create, bind.
  rewrite Hh, selectQuery_company, query_select_company.
  rewrite (filter_none _ _ (not_selected_text _ _ _ Hno)). simpl.
  set (params := [VStr h; JS.get data "name"; JS.get data "description";
                  JS.get data "numEmployees"; JS.get data "logoUrl"]).
  set (r := company_row (CText h) name description num_employees logo_url).
  rewrite (query_ok Company.insert_sql params (logged d select_company_sql [VStr h]) _
             [[("handle", VStr h); ("name", to_js name);
               ("description", to_js description);
               ("numEmployees", to_js num_employees);
               ("logoUrl", to_js logo_url)]]
             {| companies := companies d ++ [r]; jobs := jobs d;
                log := (log d ++ [(select_company_sql, [VStr h])]) ++
                       [(Company.insert_sql, params)] |}
             parse_insert_company).
  - unfold ret. simpl. by rewrite <- app_assoc.
  - simpl. rewrite Hn, Hd, He, Hl. simpl.
    by rewrite key_free_fresh with (h := h).
Qed.

End CompanyCreate.

(** C5. When the handle of the payload is the handle of an existing company,
    [Company.create] fails with BadRequest ("Duplicate company: ..."),
    whatever the other fields, and stores nothing. When no company has the
    handle it inserts the company and returns the created record, with the
    fields handle, name, description, numEmployees and logoUrl and no jobs
    field. *)
Theorem Company_create_spec (data : obj) (h : string) (d : Db.database) :
  JS.get data "handle" = VStr h ->
  (Exists (fun c => Db.field c "handle" = Db.CText h) (Db.companies d) ->
   exists d' : Db.database,
     Company.create data d =
       (Throw (BadRequestError ("Duplicate company: " +:+ h)), d') /\
     Db.companies d' = Db.companies d /\ Db.jobs d' = Db.jobs d) /\
  (Forall (fun c => Db.field c "handle" <> Db.CText h) (Db.companies d) ->
   forall name description num_employees logo_url : Db.cell,
     Db.coerce Db.TText (JS.get data "name") = Some name ->
     Db.coerce Db.TText (JS.get data "description") = Some description ->
     Db.coerce Db.TInt (JS.get data "numEmployees") = Some num_employees ->
     Db.coerce Db.TText (JS.get data "logoUrl") = Some logo_url ->
     exists (company : obj) (d' : Db.database),
       Company.create data d = (Ok (VObj company), d') /\
       company = [("handle", VStr h); ("name", Db.to_js name);
                  ("description", Db.to_js description);
                  ("numEmployees", Db.to_js num_employees);
                  ("logoUrl", Db.to_js logo_url)] /\
       JS.has company "jobs" = false /\
       Db.companies d' =
         Db.companies d ++ [company_row (Db.CText h) name description num_employees logo_url] /\
       Db.jobs d' = Db.jobs d).
Proof.
  intros Hh. split.
  - intros Hex. eexists. split; [by apply Company_create_duplicate|split; reflexivity].
  - intros Hno name description num_employees logo_url Hn Hd He Hl.
    eexists _, _. split; [by apply Company_create_fresh|].
    repeat split; reflexivity.
Qed.

Lemma Company_create_spec_witness :
  (exists d' : Db.database,
     Company.create [("handle", VStr "c1"); ("name", VStr "Other")] sample_db =
       (Throw (BadRequestError "Duplicate company: c1"), d') /\
     Db.companies d' = Db.companies sample_db /\ Db.jobs d' = Db.jobs sample_db) /\
  (exists (company : obj) (d' : Db.database),
     Company.create
       [("handle", VStr "new"); ("name", VStr "New"); ("description", VStr "New Description");
        ("numEmployees", VNum 1); ("logoUrl", VStr "http://new.img")] sample_db =
       (Ok (VObj company), d') /\
     company = [("handle", VStr "new"); ("name", VStr "New");
                ("description", VStr "New Description");
                ("numEmployees", VNum 1); ("logoUrl", VStr "http://new.img")] /\
     JS.has company "jobs" = false /\
     Db.companies d' =
       Db.companies sample_db ++
         [company_row (Db.CText "new") (Db.CText "New") (Db.CText "New Description")
            (Db.CInt 1) (Db.CText "http://new.img")] /\
     Db.jobs d' = Db.jobs sample_db).
Proof.
  split.
  - apply (proj1 (Company_create_spec [("handle", VStr "c1"); ("name", VStr "Other")]
                    "c1" sample_db eq_refl)).
    apply Exists_cons_hd. reflexivity.
  - refine (proj2 (Company_create_spec
                     [("handle", VStr "new"); ("name", VStr "New");
                      ("description", VStr "New Description");
                      ("numEmployees", VNum 1); ("logoUrl", VStr "http://new.img")]
                     "new" sample_db eq_refl) _
                  (Db.CText "New") (Db.CText "New Description") (Db.CInt 1)
                  (Db.CText "http://new.img") eq_refl eq_refl eq_refl eq_refl).
    repeat constructor; discriminate.
Defined.

(** ** The filters: validation *)

Section FilterValidation.
Import Db.

Lemma invalid_key_found (valid : list string) (query : obj) (k : string) :
  k ∈ JS.Object_keys query -> k ∉ valid ->
  existsb (fun key => Bool.eqb (JS.includes valid key) false) (JS.Object_keys query) = true.
Proof.
  intros Hin Hnot. apply existsb_exists. exists k. split; [by apply list_elem_of_In|].
  unfold JS.includes. destruct (existsb (String.eqb k) valid) eqn:E; [|reflexivity].
  exfalso. apply Hnot. apply existsb_exists in E as (k' & Hk' & E).
  apply String.eqb_eq in E as ->. by apply list_elem_of_In.
Qed.

Lemma Company_filter_invalid (query : obj) (d : database) (k : string) :
  k ∈ JS.Object_keys query -> k ∉ Company.validFilters ->
  Company.filter query d = (Throw (BadRequestError "Invalid filter"), d).
Proof.
  intros Hin Hnot. unfold Company.filter.
  by rewrite (invalid_key_found _ _ _ Hin Hnot).
Qed.

Lemma Job_filter_invalid (query : obj) (d : database) (k : string) :
  k ∈ JS.Object_keys query -> k ∉ Job.validFilters ->
  Job.filter query d = (Throw (BadRequestError "Invalid filter"), d).
Proof.
  intros Hin Hnot. unfold Job.filter.
  by rewrite (invalid_key_found _ _ _ Hin Hnot).
Qed.

Lemma has_elem_of (query : obj) (k : string) :
  JS.has query k = true <-> k ∈ JS.Object_keys query.
Proof.
  unfold JS.has. rewrite existsb_exists. split.
  - intros (k' & Hin & E). apply String.eqb_eq in E as ->. by apply list_elem_of_In.
  - intros Hin. exists k. split; [by apply list_elem_of_In|apply String.eqb_refl].
Qed.

Lemma Company_filter_min_gt_max (query : obj) (d : database) :
  JS.has query "minEmployees" = true -> JS.has query "maxEmployees" = true ->
  JS.gt (JS.to_number (JS.get query "minEmployees"))
        (JS.to_number (JS.get query "maxEmployees")) = true ->
  Company.filter query d =
    (Throw (BadRequestError
              (if existsb (fun key => Bool.eqb (JS.includes Company.validFilters key) false)
                    (JS.Object_keys query)
               then "Invalid filter"
               else "minEmployees cannot be greater than maxEmployees")), d).
Proof.
  intros Hmin Hmax Hgt. unfold Company.filter.
  destruct (existsb _ (JS.Object_keys query)); [done|].
  change (JS.includes (JS.Object_keys query)) with (JS.has query).
  by rewrite Hmin, Hmax, Hgt.
Qed.

Section Numbers.
Arguments JS.to_double : simpl never.
Arguments Z.pow : simpl never.
Arguments Z.mul : simpl never.

Lemma nearest_one (x : Z) : JS.nearest x 1 = x.
Proof. unfold JS.nearest. by rewrite Z.div_1_r, Z.mod_1_r. Qed.

(** An integer of at most 53 bits is a double. *)
Lemma to_double_integer (neg : bool) (a : Z) :
  (0 <= a <= 2 ^ 53)%Z ->
  JS.is_integer (JS.to_double neg a 1) (JS.signed_mantissa neg a).
Proof.
  intros Ha. unfold JS.to_double.
  destruct (Z.eqb_spec a 0) as [->|Hne]; [reflexivity|].
  destruct (decide (a = 2 ^ 53)%Z) as [->|Hmax]; [by destruct neg|].
  assert (0 < a < 2 ^ 53)%Z as Hlt by lia.
  pose proof (Z.log2_spec a ltac:(lia)) as [Hlo Hhi].
  pose proof (Z.log2_nonneg a) as Hnn.
  assert (Z.log2 a < 53)%Z as Hl by (apply Z.log2_lt_pow2; lia).
  change (Z.log2 1) with 0%Z. rewrite Z.sub_0_r.
  remember (Z.log2 a) as L eqn:HL. clear HL.
  destruct (Z.leb_spec 0 (L - 52)) as [He|He].
  - assert (L = 52)%Z as -> by lia. change (52 - 52)%Z with 0%Z.
    change (2 ^ 52 * 1 * 2 ^ 0)%Z with (2 ^ 52)%Z.
    destruct (Z.ltb_spec a (2 ^ 52)) as [Hb|_]; [by apply Z.lt_nge in Hb|].
    change (Z.max 0 (-1074)) with 0%Z. simpl (0 <=? 0)%Z. cbv iota.
    change (1 * 2 ^ 0)%Z with 1%Z. rewrite nearest_one.
    simpl. unfold JS.is_integer, JS.up, JS.down. destruct neg; reflexivity.
  - assert (2 ^ 52 <= a * 2 ^ (- (L - 52)))%Z as Hscaled.
    { replace (2 ^ 52)%Z with (2 ^ L * 2 ^ (- (L - 52)))%Z
        by (rewrite <- Z.pow_add_r by lia; f_equal; lia).
      apply Z.mul_le_mono_nonneg_r; [apply Z.pow_nonneg; lia|lia]. }
    destruct (Z.ltb_spec (a * 2 ^ (- (L - 52))) (2 ^ 52 * 1)) as [Hb|_]; [lia|].
    rewrite Z.max_l by lia.
    destruct (Z.leb_spec 0 (L - 52)) as [|_]; [lia|].
    rewrite nearest_one.
    destruct (Z.ltb_spec 971 (L - 52)) as [|_]; [lia|].
    destruct (Z.eqb_spec (L - 52) 971) as [|_]; [lia|].
    simpl. unfold JS.up, JS.down. rewrite Z.max_r, Z.max_l by lia.
    destruct neg; simpl; lia.
Qed.

Lemma to_number_integer (n : Z) :
  (Z.abs n <= 2 ^ 53)%Z -> JS.is_integer (JS.to_number (VNum n)) n.
Proof.
  intros Hn. unfold JS.to_number.
  replace n with (JS.signed_mantissa (n <? 0)%Z (Z.abs n)) at 3.
  - apply to_double_integer. lia.
  - unfold JS.signed_mantissa. destruct (Z.ltb_spec n 0); lia.
Qed.

Lemma digit_code (c : ascii) :
  Text.is_digit c = true -> 48 <= Text.code c <= 57.
Proof.
  unfold Text.is_digit. intros [H1 H2]%andb_true_iff.
  apply Nat.leb_le in H1, H2. lia.
Qed.

Lemma digit_not_char (n : nat) (c : ascii) :
  Text.is_digit c = true -> n < 48 \/ 57 < n -> Text.is_char n c = false.
Proof. intros Hc%digit_code Hn. unfold Text.is_char. apply Nat.eqb_neq. lia. Qed.

Lemma digit_not_space (c : ascii) : Text.is_digit c = true -> Text.is_js_space c = false.
Proof.
  intros Hc%digit_code. unfold Text.is_js_space, Text.is_space.
  apply orb_false_iff. split; [|apply Nat.eqb_neq; lia].
  apply orb_false_iff. split; [apply Nat.eqb_neq; lia|].
  apply andb_false_iff. right. apply Nat.leb_gt. lia.
Qed.

Lemma digits_value_snoc (ds : list ascii) (c : ascii) :
  Text.digits_value (ds ++ [c]) = (10 * Text.digits_value ds + Z.of_nat (Text.code c - 48))%Z.
Proof. unfold Text.digits_value. by rewrite fold_left_app. Qed.

Lemma trim_digits (ds : list ascii) :
  Forall (fun c => Text.is_digit c = true) ds ->
  Text.trim_with Text.is_js_space ds = ds.
Proof.
  intros Hds. unfold Text.trim_with.
  assert (Hdrop : forall l : list ascii,
            Forall (fun c => Text.is_digit c = true) l ->
            (fix drop (l : list ascii) : list ascii :=
               match l with
               | c :: l' => if Text.is_js_space c then drop l' else l
               | [] => []
               end) l = l).
  { intros [|c l] Hl; [done|]. apply Forall_cons in Hl as [Hc _].
    by rewrite (digit_not_space _ Hc). }
  rewrite (Hdrop ds Hds), (Hdrop (reverse ds)) by (by apply Forall_reverse).
  apply reverse_involutive.
Qed.

Lemma split_on_exponent_digits (ds : list ascii) :
  Forall (fun c => Text.is_digit c = true) ds -> Text.split_on_exponent ds = (ds, None).
Proof.
  induction 1 as [|c ds Hc _ IH]; simpl; [done|].
  by rewrite !(digit_not_char _ _ Hc), IH by lia.
Qed.

Lemma split_on_dot_digits (ds : list ascii) :
  Forall (fun c => Text.is_digit c = true) ds -> Text.split_on_dot ds = (ds, None).
Proof.
  induction 1 as [|c ds Hc _ IH]; simpl; [done|].
  by rewrite !(digit_not_char _ _ Hc), IH by lia.
Qed.

(** [Number] on an unsigned decimal numeral. *)
Lemma string_to_number_digits (ds : list ascii) :
  ds <> [] -> Forall (fun c => Text.is_digit c = true) ds ->
  JS.string_to_number (String.string_of_list_ascii ds) =
    JS.to_double false (Text.digits_value ds) 1.
Proof.
  intros Hne Hds. unfold JS.string_to_number.
  rewrite String.list_ascii_of_string_of_list_ascii, (trim_digits _ Hds).
  destruct ds as [|c ds]; [done|]. clear Hne.
  pose proof Hds as [Hc Hds']%Forall_cons.
  change (length (c :: ds) =? 0)%nat with false. cbv iota.
  assert (JS.radix_prefix (c :: ds) = None) as ->.
  { unfold JS.radix_prefix. destruct ds as [|c1 ds]; [done|].
    apply Forall_cons in Hds' as [Hc1 _].
    destruct (Text.is_char 48 c); [|done].
    by rewrite !(digit_not_char _ _ Hc1) by lia. }
  assert (Text.split_sign (c :: ds) = (false, c :: ds)) as ->.
  { unfold Text.split_sign. by rewrite !(digit_not_char _ _ Hc) by lia. }
  assert (String.eqb (String.string_of_list_ascii (c :: ds)) "Infinity" = false) as ->.
  { apply String.eqb_neq. simpl. intros [= -> _]. discriminate Hc. }
  unfold JS.decimal.
  rewrite (split_on_exponent_digits _ Hds), (split_on_dot_digits _ Hds). simpl default.
  assert (forallb Text.is_digit (c :: ds) = true) as ->.
  { apply forallb_forall. intros x Hx%list_elem_of_In.
    by apply (proj1 (Forall_forall _ _) Hds). }
  rewrite app_nil_r. simpl. by rewrite Z.mul_1_r.
Qed.

Lemma digits_value_nonneg (ds : list ascii) : (0 <= Text.digits_value ds)%Z.
Proof.
  induction ds as [|c ds IH] using rev_ind; [done|].
  rewrite digits_value_snoc. lia.
Qed.

Lemma safe_integer_number (x : value) (n : Z) :
  safe_integer x n -> JS.is_integer (JS.to_number x) n.
Proof.
  intros [Hn [->|(ds & Hne & Hds & -> & ->)]]; [by apply to_number_integer|].
  unfold JS.to_number. rewrite (string_to_number_digits _ Hne Hds).
  pose proof (digits_value_nonneg ds).
  apply (to_double_integer false). lia.
Qed.

End Numbers.

(** [>] on two numbers that are integers is the order of the integers. *)
Lemma gt_integers (a b : JS.number) (x y : Z) :
  JS.is_integer a x -> JS.is_integer b y -> JS.gt a b = bool_decide (y < x)%Z.
Proof.
  destruct a as [| |na ma ea], b as [| |nb mb eb]; try done. simpl.
  intros Ha Hb.
  assert (0 < JS.up ea)%Z as Hua by (apply Z.pow_pos_nonneg; lia).
  assert (0 < JS.up eb)%Z as Hub by (apply Z.pow_pos_nonneg; lia).
  assert (0 < JS.down ea)%Z as Hda by (apply Z.pow_pos_nonneg; lia).
  assert (0 < JS.down eb)%Z as Hdb by (apply Z.pow_pos_nonneg; lia).
  assert (JS.signed_mantissa nb mb * JS.up eb * JS.down ea
          = y * (JS.down eb * JS.down ea))%Z as -> by (rewrite Hb; ring).
  assert (JS.signed_mantissa na ma * JS.up ea * JS.down eb
          = x * (JS.down eb * JS.down ea))%Z as -> by (rewrite Ha; ring).
  assert (0 < JS.down eb * JS.down ea)%Z as Hpos by lia.
  destruct (Z.ltb_spec (y * (JS.down eb * JS.down ea)) (x * (JS.down eb * JS.down ea)))
    as [Hlt|Hge]; symmetry.
  - apply bool_decide_eq_true_2. nia.
  - apply bool_decide_eq_false_2. nia.
Qed.

End FilterValidation.

(** C6 (as amended). A filter query with a key outside the recognized set
    fails with BadRequest ("Invalid filter"), whatever its other keys, for
    companies and for jobs; and a company query holding both [minEmployees]
    and [maxEmployees] with [Number(minEmployees) > Number(maxEmployees)] -
    the two values compared as the doubles [Number] gives - fails with
    BadRequest; so it does whenever [Number] gives the two values as
    integers, the first the greater, as it does for integers of at most 53
    bits given as numbers or as unsigned decimal numerals. In each case the
    database has received no statement: it is returned as it was, log
    included. *)
Theorem filter_validation (query : obj) (d : Db.database) :
  (forall k : string, k ∈ JS.Object_keys query ->
     k ∉ ["name"; "minEmployees"; "maxEmployees"] ->
     Company.filter query d = (Throw (BadRequestError "Invalid filter"), d)) /\
  (forall k : string, k ∈ JS.Object_keys query ->
     k ∉ ["title"; "minSalary"; "hasEquity"] ->
     Job.filter query d = (Throw (BadRequestError "Invalid filter"), d)) /\
  ("minEmployees" ∈ JS.Object_keys query -> "maxEmployees" ∈ JS.Object_keys query ->
   JS.gt (JS.to_number (JS.get query "minEmployees"))
         (JS.to_number (JS.get query "maxEmployees")) = true ->
   (exists msg : string, Company.filter query d = (Throw (BadRequestError msg), d)) /\
   (Forall (fun k => k ∈ ["name"; "minEmployees"; "maxEmployees"]) (JS.Object_keys query) ->
    Company.filter query d =
      (Throw (BadRequestError "minEmployees cannot be greater than maxEmployees"), d))) /\
  (forall lo hi : Z,
     "minEmployees" ∈ JS.Object_keys query -> "maxEmployees" ∈ JS.Object_keys query ->
     JS.is_integer (JS.to_number (JS.get query "minEmployees")) lo ->
     JS.is_integer (JS.to_number (JS.get query "maxEmployees")) hi ->
     (lo > hi)%Z ->
     exists msg : string, Company.filter query d = (Throw (BadRequestError msg), d)) /\
  (forall lo hi : Z,
     "minEmployees" ∈ JS.Object_keys query -> "maxEmployees" ∈ JS.Object_keys query ->
     safe_integer (JS.get query "minEmployees") lo ->
     safe_integer (JS.get query "maxEmployees") hi ->
     (lo > hi)%Z ->
     exists msg : string, Company.filter query d = (Throw (BadRequestError msg), d)).
Proof.
  split; [intros k; apply Company_filter_invalid|].
  split; [intros k; apply Job_filter_invalid|].
  split.
  - intros Hmin%has_elem_of Hmax%has_elem_of Hgt.
    pose proof (Company_filter_min_gt_max query d Hmin Hmax Hgt) as Hrun.
    split; [by eexists|]. intros Hkeys. rewrite Hrun.
    assert (existsb (fun key => Bool.eqb (JS.includes Company.validFilters key) false)
              (JS.Object_keys query) = false) as ->; [|done].
    apply not_true_is_false. intros (k & Hin & Hk)%existsb_exists.
    apply (proj1 (Forall_forall _ _)) with (x := k) in Hkeys; [|by apply list_elem_of_In].
    unfold JS.includes in Hk.
    assert (existsb (String.eqb k) Company.validFilters = true) as E.
    { apply existsb_exists. exists k. split; [by apply list_elem_of_In|apply String.eqb_refl]. }
    by rewrite E in Hk.
  - assert (Hint : forall lo hi : Z,
              "minEmployees" ∈ JS.Object_keys query ->
              "maxEmployees" ∈ JS.Object_keys query ->
              JS.is_integer (JS.to_number (JS.get query "minEmployees")) lo ->
              JS.is_integer (JS.to_number (JS.get query "maxEmployees")) hi ->
              (lo > hi)%Z ->
              exists msg : string,
                Company.filter query d = (Throw (BadRequestError msg), d)).
    { intros lo hi Hmin%has_elem_of Hmax%has_elem_of Hlo Hhi Hgt. eexists.
      apply (Company_filter_min_gt_max query d Hmin Hmax).
      rewrite (gt_integers _ _ _ _ Hlo Hhi). apply bool_decide_eq_true_2. lia. }
    split; [exact Hint|].
    intros lo hi Hmin Hmax Hlo%safe_integer_number Hhi%safe_integer_number.
    by apply Hint.
Qed.

Lemma filter_validation_witness :
  Company.filter [("name", VStr "c"); ("nope", VStr "x")] sample_db =
    (Throw (BadRequestError "Invalid filter"), sample_db) /\
  Job.filter [("my", VStr "filter"); ("name", VStr "todd")] sample_db =
    (Throw (BadRequestError "Invalid filter"), sample_db) /\
  Company.filter [("minEmployees", VStr "1e3"); ("maxEmployees", VStr "10.5")] sample_db =
    (Throw (BadRequestError "minEmployees cannot be greater than maxEmployees"), sample_db) /\
  exists msg : string,
    Company.filter [("minEmployees", VStr "10"); ("maxEmployees", VNum 9)] sample_db =
      (Throw (BadRequestError msg), sample_db).
Proof.
  split; [|split; [|split]].
  - apply (proj1 (filter_validation _ sample_db) "nope"); [set_solver|].
    intros Hin. repeat (apply elem_of_cons in Hin as [Hin|Hin]; [discriminate|]).
    by apply elem_of_nil in Hin.
  - apply (proj1 (proj2 (filter_validation _ sample_db)) "my"); [set_solver|].
    intros Hin. repeat (apply elem_of_cons in Hin as [Hin|Hin]; [discriminate|]).
    by apply elem_of_nil in Hin.
  - apply (proj1 (proj2 (proj2 (filter_validation _ sample_db))));
      [set_solver | set_solver | vm_compute; reflexivity | repeat constructor; set_solver].
  - apply (proj2 (proj2 (proj2 (proj2 (filter_validation _ sample_db)))) 10%Z 9%Z);
      [set_solver | set_solver | | | lia].
    + split; [vm_compute; discriminate|]. right.
      exists ["1"; "0"]%char. repeat split; [discriminate|by repeat constructor].
    + split; [vm_compute; discriminate|]. by left.
Defined.

(** C6 as stated fails: the numerals of two integers above two to the 53,
    the first the greater by one, are the same double to [Number]; the query
    is not refused with BadRequest but sent, and it is the database that
    rejects it. *)
Lemma filter_min_above_max_counterexample :
  Company.filter [("minEmployees", VStr "9007199254740993");
                  ("maxEmployees", VStr "9007199254740992")] sample_db =
    (Throw (DatabaseError "statement rejected"),
     Db.logged sample_db
       (Company.filter_sql (VStr "num_employees >= $1 AND num_employees <= $2"))
       [VStr "9007199254740993"; VStr "9007199254740992"]) /\
  JS.to_number (VStr "9007199254740993") = JS.to_number (VStr "9007199254740992") /\
  ~ min_above_max_rejected.
Proof.
  split; [vm_compute; reflexivity|]. split; [vm_compute; reflexivity|].
  intros H.
  destruct (H 9007199254740993%Z 9007199254740992%Z
              [("minEmployees", VStr "9007199254740993");
               ("maxEmployees", VStr "9007199254740992")] sample_db)
    as (msg & Hrun); [vm_compute; reflexivity | vm_compute; reflexivity | lia |].
  vm_compute in Hrun. discriminate Hrun.
Qed.


(** ** Job.filter *)

Section JobFilter.
Import Db.

Lemma get_has (o : obj) (k : string) : JS.get o k <> VUndefined -> JS.has o k = true.
Proof.
  unfold JS.has. induction o as [|[k' v] o IH]; simpl; [done|].
  destruct (String.eqb_spec k' k) as [->|Hne].
  - by rewrite String.eqb_refl.
  - intros H. rewrite IH by done. apply orb_true_r.
Qed.

Lemma wants_equity_true (query : obj) :
  wants_equity query = true <-> JS.get query "hasEquity" = VStr "true".
Proof.
  unfold wants_equity. split.
  - intros [_ H]%andb_true_iff.
    destruct (JS.get query "hasEquity") as [| |b|n|s|o|f]; try discriminate.
    by apply String.eqb_eq in H as ->.
  - intros H. rewrite (get_has query "hasEquity") by (by rewrite H). by rewrite H.
Qed.





Lemma Job_filter_valid (query : obj) (d : database) :
  existsb (fun key => Bool.eqb (JS.includes Job.validFilters key) false)
    (JS.Object_keys query) = false ->
  Job.filter query d =
    bind (Db.query (Job.filter_sql (Job.join_filters (Job.clauses query).1))
            (Job.clauses query).2) ret d.
Proof. intros Hv. unfold Job.filter. rewrite Hv. by destruct (Job.clauses query). Qed.

Lemma keys_valid (valid : list string) (o : obj) :
  Forall (fun k => k ∈ valid) (JS.Object_keys o) ->
  existsb (fun key => Bool.eqb (JS.includes valid key) false) (JS.Object_keys o) = false.
Proof.
  intros Hall. apply not_true_is_false. intros (k & Hin & Hk)%existsb_exists.
  apply (proj1 (Forall_forall _ _)) with (x := k) in Hall; [|by apply list_elem_of_In].
  unfold JS.includes in Hk.
  assert (existsb (String.eqb k) valid = true) as E.
  { apply existsb_exists. exists k. split; [by apply list_elem_of_In|apply String.eqb_refl]. }
  by rewrite E in Hk.
Qed.

Lemma parse_where_undefined :
  parse where_undefined_sql =
    Some (Select (Cols job_columns) "jobs" [ABare "undefined"] (Some "company_handle")).
Proof. vm_compute. reflexivity. Qed.

Lemma query_where_undefined (params : list value) (d : database) :
  query where_undefined_sql params d =
    (Throw (DatabaseError "statement rejected"), logged d where_undefined_sql params).
Proof. eapply query_rejected; [apply parse_where_undefined|reflexivity]. Qed.

Lemma Job_clauses_none (query : obj) :
  (Job.clauses query).1 = [] <->
  JS.has query "title" = false /\ JS.has query "minSalary" = false /\
  JS.get query "hasEquity" <> VStr "true".
Proof.
  rewrite <- wants_equity_true. unfold Job.clauses. fold (wants_equity query).
  destruct (JS.has query "title"), (JS.has query "minSalary"), (wants_equity query);
    simpl; split; try discriminate; try done; intros (? & ? & ?); done.
Qed.

Lemma Job_clauses_none_values (query : obj) :
  (Job.clauses query).1 = [] -> Job.clauses query = ([], []).
Proof.
  unfold Job.clauses. fold (wants_equity query).
  destruct (JS.has query "title"), (JS.has query "minSalary"), (wants_equity query);
    simpl; try discriminate; done.
Qed.

End JobFilter.

(** C9. A job filter query whose keys are all recognized and which pushes no
    clause - [{hasEquity: "false"}] is one - does not fail with BadRequest and
    returns no list of jobs: the joined expression is [undefined], the
    statement sent reads [WHERE undefined], and the database rejects it. *)
Theorem Job_filter_no_clause (query : obj) (d : Db.database) :
  Forall (fun k => k ∈ ["title"; "minSalary"; "hasEquity"]) (JS.Object_keys query) ->
  (Job.clauses query).1 = [] ->
  Job.join_filters (Job.clauses query).1 = VUndefined /\
  Job.filter_sql (Job.join_filters (Job.clauses query).1) = where_undefined_sql /\
  Job.filter query d =
    (Throw (DatabaseError "statement rejected"), Db.logged d where_undefined_sql []) /\
  (forall msg : string, (Job.filter query d).1 <> Throw (BadRequestError msg)) /\
  (forall rows : list obj, (Job.filter query d).1 <> Ok rows).
Proof.
  intros Hkeys Hnone.
  assert (Hrun : Job.filter query d =
            (Throw (DatabaseError "statement rejected"), Db.logged d where_undefined_sql [])).
  { rewrite Job_filter_valid by (by apply keys_valid).
    rewrite (Job_clauses_none_values _ Hnone). unfold bind. simpl.
    change (Job.filter_sql VUndefined) with where_undefined_sql.
    by rewrite query_where_undefined. }
  rewrite Hnone, Hrun. repeat split; try reflexivity; intros ?; discriminate.
Qed.

Lemma Job_filter_no_clause_witness :
  Job.filter [("hasEquity", VStr "false")] sample_db =
    (Throw (DatabaseError "statement rejected"),
     Db.logged sample_db where_undefined_sql []).
Proof.
  apply (Job_filter_no_clause [("hasEquity", VStr "false")] sample_db).
  - repeat constructor; set_solver.
  - reflexivity.
Defined.

Section JobFilterEquity.
Import Db.

(** A [SELECT] changes no table and adds itself to the log. *)
Lemma query_select_tables text params d sel from cond ob :
  parse text = Some (Select sel from cond ob) ->
  (query text params d).2 = logged d text params.
Proof.
  intros Hp. destruct (exec (Select sel from cond ob) params (logged d text params))
    as [[rows d']|] eqn:He.
  - rewrite (query_ok _ _ _ _ _ _ Hp He). simpl.
    by apply exec_select_rows in He as (? & ? & ? & _ & _ & _ & -> & _).
  - by rewrite (query_rejected _ _ _ _ Hp He).
Qed.

Lemma bind_ret_state {A} (m : M A) (d : database) : (bind m ret d).2 = (m d).2.
Proof. unfold bind, ret. by destruct (m d) as [[a|e] d']. Qed.

Lemma Job_filter_statement (query : obj) :
  (Job.clauses query).1 <> [] ->
  parse (Job.filter_sql (Job.join_filters (Job.clauses query).1)) =
    Some (Select (Cols job_columns) "jobs"
            (job_filter_atoms (JS.has query "title") (JS.has query "minSalary")
               (wants_equity query))
            (Some "company_handle")).
Proof.
  unfold Job.clauses. fold (wants_equity query).
  destruct (JS.has query "title"), (JS.has query "minSalary"), (wants_equity query);
    simpl; intros Hne; try done; vm_compute; reflexivity.
Qed.






End JobFilterEquity.



(** ** update and remove *)

Section Sequences.

Lemma sequences_complete (xs ks : list string) (n : nat) :
  Forall (fun k => k ∈ xs) ks -> length ks <= n -> ks ∈ sequences xs n.
Proof.
  revert ks. induction n as [|n IH]; intros [|k ks] Hall Hlen; simpl in *;
    try lia; try (by left).
  apply Forall_cons in Hall as [Hk Hall]. right.
  apply list_elem_of_bind. exists k. split; [|done].
  apply list_elem_of_fmap. exists ks. split; [done|]. apply IH; [done|lia].
Qed.

Lemma nodup_bounded (xs ks : list string) :
  NoDup ks -> Forall (fun k => k ∈ xs) ks -> length ks <= length xs.
Proof.
  intros Hnd Hall. apply submseteq_length, NoDup_submseteq; [done|].
  by apply Forall_forall.
Qed.

Lemma company_updates_checked :
  forallb (fun ks => implb (bool_decide (NoDup ks) && negb (length ks =? 0)%nat)
                       (update_checked company_update_text "companies" Db.companies_rel
                          Company.jsToSql company_returning ks))
    (sequences company_fields 4) = true.
Proof. vm_compute. reflexivity. Qed.

Lemma job_updates_checked :
  forallb (fun ks => implb (bool_decide (NoDup ks) && negb (length ks =? 0)%nat)
                       (update_checked job_update_text "jobs" Db.jobs_rel
                          ∅ job_columns ks))
    (sequences job_fields 3) = true.
Proof. vm_compute. reflexivity. Qed.

End Sequences.

Section UpdateExec.
Import Db.

Lemma checked_updates (fields : list string) (n : nat) (check : list string -> bool)
    (ks : list string) :
  forallb (fun ks => implb (bool_decide (NoDup ks) && negb (length ks =? 0)%nat) (check ks))
    (sequences fields n) = true ->
  length fields <= n -> ks <> [] -> NoDup ks -> Forall (fun k => k ∈ fields) ks ->
  check ks = true.
Proof.
  intros Hall Hn Hne Hnd Hin.
  assert (Hks : ks ∈ sequences fields n).
  { apply sequences_complete; [done|]. etrans; [by apply nodup_bounded|done]. }
  apply list_elem_of_In in Hks. apply (proj1 (forallb_forall _ _) Hall) in Hks.
  rewrite (bool_decide_eq_true_2 _ Hnd) in Hks.
  destruct ks; [done|]. exact Hks.
Qed.

Lemma fst_imap_columns (g : string -> string) (ks : list string) :
  (imap (fun i k => (g k, S i)) ks).*1 = g <$> ks.
Proof.
  apply list_eq. intros i.
  rewrite list_lookup_fmap, list_lookup_imap, list_lookup_fmap.
  by destruct (ks !! i).
Qed.

Lemma field_set_field (r : row) (c c' : string) (v : cell) :
  field (set_field r c v) c' = if String.eqb c c' then v else field r c'.
Proof.
  unfold field. induction r as [|[c0 v0] r IH]; simpl.
  - by destruct (String.eqb c c').
  - destruct (String.eqb_spec c0 c) as [->|Hne]; simpl.
    + by destruct (String.eqb c c').
    + destruct (String.eqb_spec c0 c') as [->|Hne'].
      * by destruct (String.eqb_spec c c'); [congruence|].
      * exact IH.
Qed.

Lemma assign_other (sets : list (string * cell)) (r : row) (c : string) :
  c ∉ sets.*1 -> field (assign r sets) c = field r c.
Proof.
  unfold assign. revert r. induction sets as [|[c0 v0] sets IH]; intros r Hc; [done|].
  simpl in *. apply not_elem_of_cons in Hc as [Hne Hc].
  rewrite IH by done. rewrite field_set_field.
  by destruct (String.eqb_spec c0 c) as [->|].
Qed.

Lemma assign_set (sets : list (string * cell)) (r : row) (c : string) (v : cell) :
  NoDup sets.*1 -> (c, v) ∈ sets -> field (assign r sets) c = v.
Proof.
  unfold assign. revert r. induction sets as [|[c0 v0] sets IH]; intros r Hnd Hin.
  { by apply elem_of_nil in Hin. }
  simpl in *. apply NoDup_cons in Hnd as [Hc0 Hnd].
  apply elem_of_cons in Hin as [[= -> ->]|Hin].
  - fold (assign (set_field r c0 v0) sets). rewrite assign_other by done.
    by rewrite field_set_field, String.eqb_refl.
  - by apply IH.
Qed.

(** The assignments of an update, with the values of the payload in the
    types of their columns. *)
Lemma resolve_payload (rel : relation) (m : gmap string value) (data : obj)
    (cells : list cell) (kv : value) :
  Forall (fun k => col_type rel (column_for m k) = Some (field_type k)) data.*1 ->
  Forall2 (fun kv c => coerce (field_type kv.1) kv.2 = Some c) data cells ->
  resolve rel (data.*2 ++ [kv]) (imap (fun i k => (column_for m k, S i)) data.*1) =
    Some (zip (column_for m <$> data.*1) cells).
Proof.
  intros Hty Hco. unfold resolve. apply mapM_Some_2.
  pose proof (Forall2_length _ _ _ Hco) as Hlen.
  apply Forall2_same_length_lookup_2.
  { by rewrite length_imap, length_zip_with, !length_fmap, <- Hlen, Nat.min_id. }
  intros i [col n] [col' c] Hi Hz.
  rewrite list_lookup_imap, list_lookup_fmap in Hi.
  destruct (data !! i) as [[k v]|] eqn:Hd; [|discriminate]. simpl in Hi.
  injection Hi as <- <-.
  apply lookup_zip_Some in Hz as [Hcol Hc].
  rewrite !list_lookup_fmap, Hd in Hcol. simpl in Hcol. injection Hcol as <-.
  rewrite (proj1 (Forall_lookup _ _) Hty i k) by (by rewrite list_lookup_fmap, Hd).
  simpl. rewrite lookup_app_l, list_lookup_fmap, Hd
    by (rewrite length_fmap; by eapply lookup_lt_Some).
  simpl. pose proof (proj1 (Forall2_lookup _ _ _) Hco i) as Hrel.
  rewrite Hd, Hc in Hrel. inversion Hrel as [? ? Hcoe|]; subst. simpl in Hcoe.
  by rewrite Hcoe.
Qed.

Lemma eval_key_cond (rel : relation) (ty : coltype) (vals : list value) (kv : value)
    (kc : cell) :
  col_type rel (rel_key rel) = Some ty -> coerce ty kv = Some kc ->
  eval_cond rel (vals ++ [kv]) [ACmp (rel_key rel) CmpEq (S (length vals))] =
    Some (fun r => test CmpEq (field r (rel_key rel)) kc && true).
Proof.
  intros Hty Hkc. unfold eval_cond. simpl. rewrite Hty. simpl.
  rewrite list_lookup_middle by done. simpl. rewrite Hkc. simpl.
  by destruct ty.
Qed.

(** An update by key: the rows that hold the key take the assignments and
    are returned. *)
Lemma exec_update_by_key (tbl : string) (rel : relation) (ty : coltype)
    (m : gmap string value) (returning : list out_col) (out : row -> obj)
    (data : obj) (cells : list cell) (kv : value) (kc : cell) (d : database) :
  relation_of tbl = Some rel ->
  project rel returning = Some out ->
  NoDup (column_for m <$> data.*1) ->
  existsb (String.eqb (rel_key rel)) (column_for m <$> data.*1) = false ->
  Forall (fun k => col_type rel (column_for m k) = Some (field_type k)) data.*1 ->
  Forall2 (fun kv c => coerce (field_type kv.1) kv.2 = Some c) data cells ->
  col_type rel (rel_key rel) = Some ty -> coerce ty kv = Some kc ->
  let sets := zip (column_for m <$> data.*1) cells in
  let f := fun r : row => test CmpEq (field r (rel_key rel)) kc in
  exec (update_statement tbl (rel_key rel) m returning data.*1) (data.*2 ++ [kv]) d =
    Some ((fun r : row => out (assign r sets)) <$> List.filter f (rows_of d tbl),
          with_rows d tbl
            ((fun r : row => if f r then assign r sets else r) <$> rows_of d tbl)).
Proof.
  intros Hrel Hout Hnd Hkey Hty Hco Hkty Hkc sets f.
  unfold update_statement, exec. rewrite Hrel. simpl. rewrite Hout. simpl.
  rewrite fst_imap_columns, (bool_decide_eq_true_2 _ Hnd). simpl.
  rewrite (resolve_payload _ _ _ _ _ Hty Hco). simpl.
  replace (length data.*1) with (length data.*2) by (by rewrite !length_fmap).
  rewrite (eval_key_cond _ _ _ _ _ Hkty Hkc). simpl.
  rewrite Hkey. simpl. do 2 f_equal.
  - f_equal. apply List.filter_ext. intros r. apply andb_true_r.
  - f_equal. apply list_fmap_ext. intros _ r _. unfold f. by rewrite andb_true_r.
Qed.

Lemma update_checked_facts text tbl rel m returning ks :
  update_checked text tbl rel m returning ks = true ->
  parse (text ks) = Some (update_statement tbl (rel_key rel) m returning ks) /\
  NoDup (column_for m <$> ks) /\
  existsb (String.eqb (rel_key rel)) (column_for m <$> ks) = false /\
  Forall (fun k => col_type rel (column_for m k) = Some (field_type k)) ks.
Proof.
  unfold update_checked. rewrite !andb_true_iff.
  intros [[[Hp Hnd] Hkey] Hty].
  apply bool_decide_eq_true_1 in Hp. apply bool_decide_eq_true_1 in Hnd.
  apply negb_true_iff in Hkey. repeat split; try done.
  apply Forall_forall. intros k Hk.
  apply list_elem_of_In, (proj1 (forallb_forall _ _) Hty) in Hk.
  by apply bool_decide_eq_true_1 in Hk.
Qed.

(** The statement of an update, sent: the rows that hold the key take the
    assignments and are returned. *)
Lemma query_update (text : list string -> string) (tbl : string) (rel : relation)
    (ty : coltype) (m : gmap string value) (returning : list out_col)
    (out : row -> obj) (data : obj) (cells : list cell) (kv : value) (kc : cell)
    (d : database) :
  update_checked text tbl rel m returning data.*1 = true ->
  relation_of tbl = Some rel ->
  project rel returning = Some out ->
  Forall2 (fun kv c => coerce (field_type kv.1) kv.2 = Some c) data cells ->
  col_type rel (rel_key rel) = Some ty -> coerce ty kv = Some kc ->
  let sets := zip (column_for m <$> data.*1) cells in
  let f := fun r : row => test CmpEq (field r (rel_key rel)) kc in
  let d1 := logged d (text data.*1) (data.*2 ++ [kv]) in
  query (text data.*1) (data.*2 ++ [kv]) d =
    (Ok ((fun r : row => out (assign r sets)) <$> List.filter f (rows_of d1 tbl)),
     with_rows d1 tbl ((fun r : row => if f r then assign r sets else r) <$> rows_of d1 tbl)).
Proof.
  intros (Hp & Hnd & Hkey & Hty)%update_checked_facts Hrel Hout Hco Hkty Hkc sets f d1.
  eapply query_ok; [exact Hp|]. by eapply exec_update_by_key.
Qed.

End UpdateExec.


Section Update.
Import Db.

Lemma fmap_if_none {A} (f : A -> bool) (g : A -> A) (l : list A) :
  Forall (fun x => f x = false) l -> (fun x => if f x then g x else x) <$> l = l.
Proof. induction 1 as [|x l Hx _ IH]; simpl; [done|]. rewrite Hx. f_equal. exact IH. Qed.

Lemma assign_updated (m : gmap string value) (data : obj) (cells : list cell) (r : row) :
  NoDup (column_for m <$> data.*1) -> length data = length cells ->
  updated_with m data cells r (assign r (zip (column_for m <$> data.*1) cells)).
Proof.
  intros Hnd Hlen.
  assert (Hfst : (zip (column_for m <$> data.*1) cells).*1 = column_for m <$> data.*1).
  { apply fst_zip. rewrite !length_fmap. lia. }
  split.
  - intros i k v c Hd Hc. apply assign_set; [by rewrite Hfst|].
    apply list_elem_of_lookup. exists i. apply lookup_zip_Some. split; [|done].
    by rewrite !list_lookup_fmap, Hd.
  - intros col Hcol. apply assign_other. by rewrite Hfst.
Qed.

Lemma payload_checked_company (data : obj) (cells : list cell) :
  payload_for company_fields data cells ->
  update_checked company_update_text "companies" companies_rel Company.jsToSql
    company_returning data.*1 = true.
Proof.
  intros (Hne & Hnd & Hin & _).
  apply (checked_updates company_fields 4 _ _ company_updates_checked);
    [simpl; lia | by destruct data | done | done].
Qed.

Lemma sqlForPartialUpdate_payload (data : obj) (m : gmap string value) :
  data <> [] ->
  sqlForPartialUpdate data m =
    Ok {| setCols := String.concat ", " (imap (assignment m) data.*1);
          values := data.*2 |}.
Proof. destruct data; [done|]. intros _. apply sqlForPartialUpdate_cons. Qed.

(** What [Company.update] does with a payload it accepts. *)
Lemma Company_update_run (h : string) (data : obj) (cells : list cell) (d : database) :
  payload_for company_fields data cells ->
  let text := company_update_text data.*1 in
  let d1 := logged d text (data.*2 ++ [VStr h]) in
  let sets := zip (column_for Company.jsToSql <$> data.*1) cells in
  let f := fun r : row => test CmpEq (field r "handle") (CText h) in
  Company.update (VStr h) data d =
    (match List.filter f (companies d) with
     | [] => Throw (NotFoundError ("No company: " +:+ h))
     | c :: _ => Ok (VObj (company_object (assign c sets)))
     end,
     with_rows d1 "companies"
       ((fun r : row => if f r then assign r sets else r) <$> companies d)).
Proof.
  intros Hpay text d1 sets f.
  pose proof (payload_checked_company _ _ Hpay) as Hchk.
  destruct Hpay as (Hne & Hnd & Hin & Hco).
  unfold Company.update, bind, lift. rewrite (sqlForPartialUpdate_payload _ _ Hne).
  simpl. replace (length data.*2) with (length data.*1) by (by rewrite !length_fmap).
  change (Company.update_sql _ _) with (company_update_text data.*1).
  rewrite (query_update company_update_text "companies" companies_rel TText
             Company.jsToSql company_returning company_object data cells (VStr h) (CText h) d
             Hchk eq_refl eq_refl Hco eq_refl eq_refl).
  change (rows_of _ "companies") with (companies d). subst f. simpl.
  by destruct (List.filter _ (companies d)).
Qed.

Lemma payload_checked_job (data : obj) (cells : list cell) :
  payload_for job_fields data cells ->
  update_checked job_update_text "jobs" jobs_rel ∅ job_columns data.*1 = true.
Proof.
  intros (Hne & Hnd & Hin & _).
  apply (checked_updates job_fields 3 _ _ job_updates_checked);
    [simpl; lia | by destruct data | done | done].
Qed.

(** What [Job.update] does with a payload it accepts. *)
Lemma Job_update_run (n : Z) (data : obj) (cells : list cell) (d : database) :
  in_int4 n = true ->
  payload_for job_fields data cells ->
  let text := job_update_text data.*1 in
  let d1 := logged d text (data.*2 ++ [VNum n]) in
  let sets := zip (column_for ∅ <$> data.*1) cells in
  let f := fun r : row => test CmpEq (field r "id") (CInt n) in
  Job.update (VNum n) data d =
    (match List.filter f (jobs d) with
     | [] => Throw (NotFoundError ("No company: " +:+ pretty n))
     | j :: _ => Ok (VObj (job_object (assign j sets)))
     end,
     with_rows d1 "jobs"
       ((fun r : row => if f r then assign r sets else r) <$> jobs d)).
Proof.
  intros Hn Hpay text d1 sets f.
  pose proof (payload_checked_job _ _ Hpay) as Hchk.
  destruct Hpay as (Hne & Hnd & Hin & Hco).
  unfold Job.update, bind, lift. rewrite (sqlForPartialUpdate_payload _ _ Hne).
  simpl. replace (length data.*2) with (length data.*1) by (by rewrite !length_fmap).
  change (Job.update_sql _ _) with (job_update_text data.*1).
  assert (Hid : coerce TInt (VNum n) = Some (CInt n)) by (simpl; by rewrite Hn).
  rewrite (query_update job_update_text "jobs" jobs_rel TInt
             ∅ job_columns job_object data cells (VNum n) (CInt n) d
             Hchk eq_refl eq_refl Hco eq_refl Hid).
  change (rows_of _ "jobs") with (jobs d). subst f. simpl.
  by destruct (List.filter _ (jobs d)).
Qed.

Lemma parse_delete_company :
  parse Company.delete_sql =
    Some (Delete "companies" [ACmp "handle" CmpEq 1]
            [{| src := "handle"; alias := "handle" |}]).
Proof. vm_compute. reflexivity. Qed.

Lemma parse_delete_job :
  parse Job.delete_sql =
    Some (Delete "jobs" [ACmp "id" CmpEq 1] [{| src := "id"; alias := "id" |}]).
Proof. vm_compute. reflexivity. Qed.

Lemma Company_remove_run (h : string) (d : database) :
  let d1 := logged d Company.delete_sql [VStr h] in
  let f := fun r : row => test CmpEq (field r "handle") (CText h) in
  Company.remove (VStr h) d =
    match List.filter f (companies d) with
    | [] => (Throw (NotFoundError ("No company: " +:+ h)),
             with_rows d1 "companies" (List.filter (fun r => negb (f r)) (companies d)))
    | _ :: _ =>
        (Ok tt, with_rows d1 "companies" (List.filter (fun r => negb (f r)) (companies d)))
    end.
Proof.
  intros d1 f. unfold Company.remove, bind.
  rewrite (query_ok Company.delete_sql [VStr h] d _
             ((fun r : row => [("handle", to_js (field r "handle"))]) <$>
                List.filter f (companies d))
             (with_rows d1 "companies" (List.filter (fun r => negb (f r)) (companies d)))
             parse_delete_company).
  - by destruct (List.filter f (companies d)).
  - simpl. do 2 f_equal.
    + f_equal. apply List.filter_ext. intros r. apply andb_true_r.
    + f_equal. apply List.filter_ext. intros r. unfold f. by rewrite andb_true_r.
Qed.

Lemma Job_remove_run (n : Z) (d : database) :
  in_int4 n = true ->
  let d1 := logged d Job.delete_sql [VNum n] in
  let f := fun r : row => test CmpEq (field r "id") (CInt n) in
  Job.remove (VNum n) d =
    match List.filter f (jobs d) with
    | [] => (Throw (NotFoundError ("No job: " +:+ pretty n)),
             with_rows d1 "jobs" (List.filter (fun r => negb (f r)) (jobs d)))
    | _ :: _ => (Ok tt, with_rows d1 "jobs" (List.filter (fun r => negb (f r)) (jobs d)))
    end.
Proof.
  intros Hn d1 f. unfold Job.remove, bind.
  rewrite (query_ok Job.delete_sql [VNum n] d _
             ((fun r : row => [("id", to_js (field r "id"))]) <$> List.filter f (jobs d))
             (with_rows d1 "jobs" (List.filter (fun r => negb (f r)) (jobs d)))
             parse_delete_job).
  - by destruct (List.filter f (jobs d)).
  - simpl. unfold eval_cond. simpl. rewrite Hn. simpl. do 2 f_equal.
    + f_equal. apply List.filter_ext. intros r. apply andb_true_r.
    + f_equal. apply List.filter_ext. intros r. unfold f. by rewrite andb_true_r.
Qed.

End Update.

Section UpdateRemove.
Import Db.

Lemma filter_unique {A} (f : A -> bool) (pre post : list A) (x : A) :
  Forall (fun y => f y = false) pre -> Forall (fun y => f y = false) post -> f x = true ->
  List.filter f (pre ++ x :: post) = [x].
Proof. intros Hpre Hpost Hx. by rewrite filter_first, (filter_none _ _ Hpost). Qed.

Lemma fmap_if_unique {A} (f : A -> bool) (g : A -> A) (pre post : list A) (x : A) :
  Forall (fun y => f y = false) pre -> Forall (fun y => f y = false) post -> f x = true ->
  (fun y => if f y then g y else y) <$> (pre ++ x :: post) = pre ++ g x :: post.
Proof.
  intros Hpre Hpost Hx. rewrite fmap_app, fmap_cons, Hx.
  by rewrite (fmap_if_none _ _ _ Hpre), (fmap_if_none _ _ _ Hpost).
Qed.

Lemma Company_update_not_found h data cells d :
  payload_for company_fields data cells ->
  Forall (fun c => field c "handle" <> CText h) (companies d) ->
  exists d' : database,
    Company.update (VStr h) data d = (Throw (NotFoundError ("No company: " +:+ h)), d') /\
    companies d' = companies d /\ jobs d' = jobs d.
Proof.
  intros Hpay Hno%not_selected_text. rewrite (Company_update_run _ _ _ _ Hpay).
  rewrite (filter_none _ _ Hno), (fmap_if_none _ _ _ Hno). by eexists.
Qed.

Lemma Company_update_found h data cells d pre c post :
  payload_for company_fields data cells ->
  companies d = pre ++ c :: post ->
  Forall (fun r => field r "handle" <> CText h) pre ->
  Forall (fun r => field r "handle" <> CText h) post ->
  field c "handle" = CText h ->
  exists (c' : row) (d' : database),
    Company.update (VStr h) data d = (Ok (VObj (company_object c')), d') /\
    updated_with Company.jsToSql data cells c c' /\
    companies d' = pre ++ c' :: post /\ jobs d' = jobs d.
Proof.
  intros Hpay Hc Hpre Hpost Hh. rewrite (Company_update_run _ _ _ _ Hpay), Hc.
  apply not_selected_text in Hpre, Hpost. apply test_eq_text in Hh.
  rewrite (filter_unique _ _ _ _ Hpre Hpost Hh).
  rewrite (fmap_if_unique _ _ _ _ _ Hpre Hpost Hh).
  eexists _, _. split; [reflexivity|]. split; [|done].
  pose proof (payload_checked_company _ _ Hpay) as (_ & Hnd & _)%update_checked_facts.
  destruct Hpay as (_ & _ & _ & Hco). apply assign_updated; [done|].
  by eapply Forall2_length.
Qed.

Lemma elem_of_filter_not (f : row -> bool) (P : row -> Prop) (rs : list row) :
  (forall r, f r = true <-> P r) ->
  forall r, r ∈ List.filter (fun r => negb (f r)) rs <-> r ∈ rs /\ ~ P r.
Proof.
  intros Hf r. rewrite !list_elem_of_In, List.filter_In, negb_true_iff, <- Hf.
  by destruct (f r); intuition.
Qed.

Lemma Company_remove_spec h d :
  (Forall (fun c => field c "handle" <> CText h) (companies d) ->
   exists d' : database,
     Company.remove (VStr h) d = (Throw (NotFoundError ("No company: " +:+ h)), d') /\
     companies d' = companies d /\ jobs d' = jobs d) /\
  (Exists (fun c => field c "handle" = CText h) (companies d) ->
   exists d' : database,
     Company.remove (VStr h) d = (Ok tt, d') /\
     (forall r, r ∈ companies d' <-> r ∈ companies d /\ field r "handle" <> CText h) /\
     jobs d' = jobs d).
Proof.
  rewrite Company_remove_run. split.
  - intros Hno%not_selected_text. rewrite (filter_none _ _ Hno), (filter_all _ _ Hno).
    by eexists.
  - intros (c & Hin & Hc)%Exists_exists.
    destruct (List.filter _ (companies d)) as [|c0 cs] eqn:Hf.
    { assert (In c []) as []. rewrite <- Hf. apply List.filter_In.
      split; [by apply list_elem_of_In|by apply test_eq_text]. }
    eexists. split; [reflexivity|]. split; [|done]. simpl.
    apply elem_of_filter_not. intros r. apply test_eq_text.
Qed.

Lemma Job_remove_spec n d :
  in_int4 n = true ->
  (Forall (fun j => field j "id" <> CInt n) (jobs d) ->
   exists d' : database,
     Job.remove (VNum n) d = (Throw (NotFoundError ("No job: " +:+ pretty n)), d') /\
     companies d' = companies d /\ jobs d' = jobs d) /\
  (Exists (fun j => field j "id" = CInt n) (jobs d) ->
   exists d' : database,
     Job.remove (VNum n) d = (Ok tt, d') /\
     (forall r, r ∈ jobs d' <-> r ∈ jobs d /\ field r "id" <> CInt n) /\
     companies d' = companies d).
Proof.
  intros Hn. rewrite (Job_remove_run _ _ Hn). split.
  - intros Hno%not_selected_int. rewrite (filter_none _ _ Hno), (filter_all _ _ Hno).
    by eexists.
  - intros (j & Hin & Hj)%Exists_exists.
    destruct (List.filter _ (jobs d)) as [|j0 js] eqn:Hf.
    { assert (In j []) as []. rewrite <- Hf. apply List.filter_In.
      split; [by apply list_elem_of_In|by apply test_eq_int]. }
    eexists. split; [reflexivity|]. split; [|done]. simpl.
    apply elem_of_filter_not. intros r. apply test_eq_int.
Qed.

Lemma eval_key_cond_rejected (rel : relation) (ty : coltype) (vals : list value)
    (kv : value) :
  col_type rel (rel_key rel) = Some ty -> coerce ty kv = None ->
  eval_cond rel (vals ++ [kv]) [ACmp (rel_key rel) CmpEq (S (length vals))] = None.
Proof.
  intros Hty Hkc. unfold eval_cond. simpl. rewrite Hty. simpl.
  rewrite list_lookup_middle by done. simpl. by rewrite Hkc.
Qed.

(** An update by a key the column does not take is rejected. *)
Lemma query_update_rejected (text : list string -> string) (tbl : string) (rel : relation)
    (ty : coltype) (m : gmap string value) (returning : list out_col)
    (out : row -> obj) (data : obj) (cells : list cell) (kv : value) (d : database) :
  update_checked text tbl rel m returning data.*1 = true ->
  relation_of tbl = Some rel ->
  project rel returning = Some out ->
  Forall2 (fun kv c => coerce (field_type kv.1) kv.2 = Some c) data cells ->
  col_type rel (rel_key rel) = Some ty -> coerce ty kv = None ->
  query (text data.*1) (data.*2 ++ [kv]) d =
    (Throw (DatabaseError "statement rejected"),
     logged d (text data.*1) (data.*2 ++ [kv])).
Proof.
  intros (Hp & Hnd & Hkey & Hty)%update_checked_facts Hrel Hout Hco Hkty Hkc.
  eapply query_rejected; [exact Hp|].
  unfold update_statement, exec. rewrite Hrel. simpl. rewrite Hout. simpl.
  rewrite fst_imap_columns, (bool_decide_eq_true_2 _ Hnd). simpl.
  rewrite (resolve_payload _ _ _ _ _ Hty Hco). simpl.
  replace (length data.*1) with (length data.*2) by (by rewrite !length_fmap).
  by rewrite (eval_key_cond_rejected _ _ _ _ Hkty Hkc).
Qed.

(** What [Job.update] does with a payload it accepts, for any id. *)
Lemma Job_update_id_run (id : value) (data : obj) (cells : list cell) (d : database) :
  payload_for job_fields data cells ->
  let text := job_update_text data.*1 in
  let d1 := logged d text (data.*2 ++ [id]) in
  let sets := zip (column_for ∅ <$> data.*1) cells in
  Job.update id data d =
    match coerce TInt id with
    | Some c =>
        let f := fun r : row => test CmpEq (field r "id") c in
        (match List.filter f (jobs d) with
         | [] => Throw (NotFoundError ("No company: " +:+ JS.to_string id))
         | j :: _ => Ok (VObj (job_object (assign j sets)))
         end,
         with_rows d1 "jobs" ((fun r : row => if f r then assign r sets else r) <$> jobs d))
    | None => (Throw (DatabaseError "statement rejected"), d1)
    end.
Proof.
  intros Hpay text d1 sets.
  pose proof (payload_checked_job _ _ Hpay) as Hchk.
  destruct Hpay as (Hne & Hnd & Hin & Hco).
  unfold Job.update, bind, lift. rewrite (sqlForPartialUpdate_payload _ _ Hne).
  simpl. replace (length data.*2) with (length data.*1) by (by rewrite !length_fmap).
  change (Job.update_sql _ _) with (job_update_text data.*1).
  destruct (coerce TInt id) as [c|] eqn:Hid.
  - rewrite (query_update job_update_text "jobs" jobs_rel TInt
               ∅ job_columns job_object data cells id c d
               Hchk eq_refl eq_refl Hco eq_refl Hid).
    change (rows_of _ "jobs") with (jobs d). simpl.
    by destruct (List.filter _ (jobs d)).
  - by rewrite (query_update_rejected job_update_text "jobs" jobs_rel TInt
                  ∅ job_columns job_object data cells id d
                  Hchk eq_refl eq_refl Hco eq_refl Hid).
Qed.

(** What [Job.remove] does, for any id. *)
Lemma Job_remove_id_run (id : value) (d : database) :
  let d1 := logged d Job.delete_sql [id] in
  Job.remove id d =
    match coerce TInt id with
    | Some c =>
        let f := fun r : row => test CmpEq (field r "id") c in
        (match List.filter f (jobs d) with
         | [] => Throw (NotFoundError ("No job: " +:+ JS.to_string id))
         | _ :: _ => Ok tt
         end,
         with_rows d1 "jobs" (List.filter (fun r => negb (f r)) (jobs d)))
    | None => (Throw (DatabaseError "statement rejected"), d1)
    end.
Proof.
  intros d1. unfold Job.remove, bind.
  destruct (coerce TInt id) as [c|] eqn:Hid.
  - rewrite (query_ok Job.delete_sql [id] d _
               ((fun r : row => [("id", to_js (field r "id"))]) <$>
                  List.filter (fun r : row => test CmpEq (field r "id") c) (jobs d))
               (with_rows d1 "jobs"
                  (List.filter (fun r : row => negb (test CmpEq (field r "id") c)) (jobs d)))
               parse_delete_job).
    + simpl. by destruct (List.filter _ (jobs d)).
    + simpl. unfold eval_cond. simpl. rewrite Hid. simpl. do 2 f_equal.
      * f_equal. apply List.filter_ext. intros r. apply andb_true_r.
      * f_equal. apply List.filter_ext. intros r. by rewrite andb_true_r.
  - rewrite (query_rejected Job.delete_sql [id] d _ parse_delete_job); [done|].
    simpl. unfold eval_cond. simpl. by rewrite Hid.
Qed.

Lemma test_eq_null (c : cell) : test CmpEq c CNull = false.
Proof. by destruct c. Qed.

Lemma coerce_int_cases (id : value) (c : cell) :
  coerce TInt id = Some c -> c = CNull \/ exists n : Z, c = CInt n /\ in_int4 n = true.
Proof.
  destruct id as [| |b|n|s|o|f]; simpl; try discriminate;
    try (intros [= <-]; by left).
  - destruct (in_int4 n) eqn:Hn; [|discriminate]. intros [= <-]. right. by exists n.
  - destruct (parse_int s) as [n|]; [|discriminate]. simpl.
    destruct (in_int4 n) eqn:Hn; [|discriminate]. intros [= <-]. right. by exists n.
Qed.

Lemma Job_update_id_spec (id : value) (data : obj) (cells : list cell) (d : database) :
  payload_for job_fields data cells ->
  (forall n : Z, coerce TInt id = Some (CInt n) ->
     (Forall (fun j => field j "id" <> CInt n) (jobs d) ->
      exists d' : database,
        Job.update id data d =
          (Throw (NotFoundError ("No company: " +:+ JS.to_string id)), d') /\
        companies d' = companies d /\ jobs d' = jobs d) /\
     (forall (pre post : list row) (j : row),
        jobs d = pre ++ j :: post ->
        Forall (fun r => field r "id" <> CInt n) pre ->
        Forall (fun r => field r "id" <> CInt n) post ->
        field j "id" = CInt n ->
        exists (j' : row) (d' : database),
          Job.update id data d = (Ok (VObj (job_object j')), d') /\
          updated_with ∅ data cells j j' /\
          jobs d' = pre ++ j' :: post /\ companies d' = companies d)) /\
  (coerce TInt id = Some CNull ->
   exists d' : database,
     Job.update id data d =
       (Throw (NotFoundError ("No company: " +:+ JS.to_string id)), d') /\
     companies d' = companies d /\ jobs d' = jobs d) /\
  (coerce TInt id = None ->
   exists d' : database,
     Job.update id data d = (Throw (DatabaseError "statement rejected"), d') /\
     companies d' = companies d /\ jobs d' = jobs d).
Proof.
  intros Hpay. rewrite (Job_update_id_run _ _ _ _ Hpay). split; [|split].
  - intros n ->. cbv beta iota zeta. split.
    + intros Hno%not_selected_int.
      rewrite (filter_none _ _ Hno), (fmap_if_none _ _ _ Hno). by eexists.
    + intros pre post j Hj Hpre%not_selected_int Hpost%not_selected_int Hid%test_eq_int.
      rewrite Hj, (filter_unique _ _ _ _ Hpre Hpost Hid).
      rewrite (fmap_if_unique _ _ _ _ _ Hpre Hpost Hid).
      eexists _, _. split; [reflexivity|]. split; [|done].
      pose proof (payload_checked_job _ _ Hpay) as (_ & Hnd & _)%update_checked_facts.
      destruct Hpay as (_ & _ & _ & Hco). apply assign_updated; [done|].
      by eapply Forall2_length.
  - intros ->. cbv beta iota zeta.
    assert (Hno : Forall (fun r : row => test CmpEq (field r "id") CNull = false) (jobs d)).
    { apply Forall_forall. intros r _. apply test_eq_null. }
    rewrite (filter_none _ _ Hno), (fmap_if_none _ _ _ Hno). by eexists.
  - intros ->. cbv beta iota zeta. by eexists.
Qed.

Lemma Job_remove_id_spec (id : value) (d : database) :
  (forall n : Z, coerce TInt id = Some (CInt n) ->
     (Forall (fun j => field j "id" <> CInt n) (jobs d) ->
      exists d' : database,
        Job.remove id d = (Throw (NotFoundError ("No job: " +:+ JS.to_string id)), d') /\
        companies d' = companies d /\ jobs d' = jobs d) /\
     (Exists (fun j => field j "id" = CInt n) (jobs d) ->
      exists d' : database,
        Job.remove id d = (Ok tt, d') /\
        (forall r, r ∈ jobs d' <-> r ∈ jobs d /\ field r "id" <> CInt n) /\
        companies d' = companies d)) /\
  (coerce TInt id = Some CNull ->
   exists d' : database,
     Job.remove id d = (Throw (NotFoundError ("No job: " +:+ JS.to_string id)), d') /\
     companies d' = companies d /\ jobs d' = jobs d) /\
  (coerce TInt id = None ->
   exists d' : database,
     Job.remove id d = (Throw (DatabaseError "statement rejected"), d') /\
     companies d' = companies d /\ jobs d' = jobs d).
Proof.
  rewrite Job_remove_id_run. split; [|split].
  - intros n ->. cbv beta iota zeta. split.
    + intros Hno%not_selected_int. rewrite (filter_none _ _ Hno), (filter_all _ _ Hno).
      by eexists.
    + intros (j & Hin & Hj)%Exists_exists.
      destruct (List.filter _ (jobs d)) as [|j0 js] eqn:Hf.
      { assert (In j []) as []. rewrite <- Hf. apply List.filter_In.
        split; [by apply list_elem_of_In|by apply test_eq_int]. }
      eexists. split; [reflexivity|]. split; [|done]. simpl.
      apply elem_of_filter_not. intros r. apply test_eq_int.
  - intros ->. cbv beta iota zeta.
    assert (Hno : Forall (fun r : row => test CmpEq (field r "id") CNull = false) (jobs d)).
    { apply Forall_forall. intros r _. apply test_eq_null. }
    rewrite (filter_none _ _ Hno), (filter_all _ _ Hno). by eexists.
  - intros ->. cbv beta iota zeta. by eexists.
Qed.

End UpdateRemove.

(** C7 (as amended). With a payload it accepts - not empty, its keys distinct
    and among the fields that can be updated, its values ones the columns
    take - [Company.update] and [Job.update] fail with NotFound when no row
    has the handle or the id, and return the updated record when one has.
    [Company.remove] and [Job.remove] fail with NotFound when no row has the
    handle or the id, and delete the row and return nothing when one has.
    This for every handle, a string, and for every job id the integer column
    takes: an integer of 32 bits, as a number or as a text the database
    reads as one. A job id that
    is [undefined] or [null] is sent as [NULL] and meets no row: NotFound.
    Any other job id - an integer out of the range, a text that is not an
    integer, an object - is rejected by the database: [Job.update] and
    [Job.remove] fail with a database error, not with NotFound. A failed
    call leaves the tables as they were. With an empty payload the updates
    fail with BadRequest and send nothing. *)
Theorem update_remove_spec (d : Db.database) :
  (forall (h : string) (data : obj) (cells : list Db.cell),
     payload_for company_fields data cells ->
     (Forall (fun c => Db.field c "handle" <> Db.CText h) (Db.companies d) ->
      exists d' : Db.database,
        Company.update (VStr h) data d =
          (Throw (NotFoundError ("No company: " +:+ h)), d') /\
        Db.companies d' = Db.companies d /\ Db.jobs d' = Db.jobs d) /\
     (forall (pre post : list Db.row) (c : Db.row),
        Db.companies d = pre ++ c :: post ->
        Forall (fun r => Db.field r "handle" <> Db.CText h) pre ->
        Forall (fun r => Db.field r "handle" <> Db.CText h) post ->
        Db.field c "handle" = Db.CText h ->
        exists (c' : Db.row) (d' : Db.database),
          Company.update (VStr h) data d = (Ok (VObj (company_object c')), d') /\
          updated_with Company.jsToSql data cells c c' /\
          Db.companies d' = pre ++ c' :: post /\ Db.jobs d' = Db.jobs d)) /\
  (forall (id : value) (data : obj) (cells : list Db.cell),
     payload_for job_fields data cells ->
     (forall n : Z, Db.coerce Db.TInt id = Some (Db.CInt n) ->
        (Forall (fun j => Db.field j "id" <> Db.CInt n) (Db.jobs d) ->
         exists d' : Db.database,
           Job.update id data d =
             (Throw (NotFoundError ("No company: " +:+ JS.to_string id)), d') /\
           Db.companies d' = Db.companies d /\ Db.jobs d' = Db.jobs d) /\
        (forall (pre post : list Db.row) (j : Db.row),
           Db.jobs d = pre ++ j :: post ->
           Forall (fun r => Db.field r "id" <> Db.CInt n) pre ->
           Forall (fun r => Db.field r "id" <> Db.CInt n) post ->
           Db.field j "id" = Db.CInt n ->
           exists (j' : Db.row) (d' : Db.database),
             Job.update id data d = (Ok (VObj (job_object j')), d') /\
             updated_with ∅ data cells j j' /\
             Db.jobs d' = pre ++ j' :: post /\ Db.companies d' = Db.companies d)) /\
     (Db.coerce Db.TInt id = Some Db.CNull ->
      exists d' : Db.database,
        Job.update id data d =
          (Throw (NotFoundError ("No company: " +:+ JS.to_string id)), d') /\
        Db.companies d' = Db.companies d /\ Db.jobs d' = Db.jobs d) /\
     (Db.coerce Db.TInt id = None ->
      exists d' : Db.database,
        Job.update id data d = (Throw (DatabaseError "statement rejected"), d') /\
        Db.companies d' = Db.companies d /\ Db.jobs d' = Db.jobs d)) /\
  (forall h : string,
     (Forall (fun c => Db.field c "handle" <> Db.CText h) (Db.companies d) ->
      exists d' : Db.database,
        Company.remove (VStr h) d = (Throw (NotFoundError ("No company: " +:+ h)), d') /\
        Db.companies d' = Db.companies d /\ Db.jobs d' = Db.jobs d) /\
     (Exists (fun c => Db.field c "handle" = Db.CText h) (Db.companies d) ->
      exists d' : Db.database,
        Company.remove (VStr h) d = (Ok tt, d') /\
        (forall r, r ∈ Db.companies d' <->
                   r ∈ Db.companies d /\ Db.field r "handle" <> Db.CText h) /\
        Db.jobs d' = Db.jobs d)) /\
  (forall id : value,
     (forall n : Z, Db.coerce Db.TInt id = Some (Db.CInt n) ->
        (Forall (fun j => Db.field j "id" <> Db.CInt n) (Db.jobs d) ->
         exists d' : Db.database,
           Job.remove id d =
             (Throw (NotFoundError ("No job: " +:+ JS.to_string id)), d') /\
           Db.companies d' = Db.companies d /\ Db.jobs d' = Db.jobs d) /\
        (Exists (fun j => Db.field j "id" = Db.CInt n) (Db.jobs d) ->
         exists d' : Db.database,
           Job.remove id d = (Ok tt, d') /\
           (forall r, r ∈ Db.jobs d' <-> r ∈ Db.jobs d /\ Db.field r "id" <> Db.CInt n) /\
           Db.companies d' = Db.companies d)) /\
     (Db.coerce Db.TInt id = Some Db.CNull ->
      exists d' : Db.database,
        Job.remove id d = (Throw (NotFoundError ("No job: " +:+ JS.to_string id)), d') /\
        Db.companies d' = Db.companies d /\ Db.jobs d' = Db.jobs d) /\
     (Db.coerce Db.TInt id = None ->
      exists d' : Db.database,
        Job.remove id d = (Throw (DatabaseError "statement rejected"), d') /\
        Db.companies d' = Db.companies d /\ Db.jobs d' = Db.jobs d)) /\
  (forall id : value,
     (forall c : Db.cell, Db.coerce Db.TInt id = Some c ->
        c = Db.CNull \/ exists n : Z, c = Db.CInt n /\ Db.in_int4 n = true) /\
     (forall n : Z, id = VNum n ->
        Db.coerce Db.TInt id = if Db.in_int4 n then Some (Db.CInt n) else None) /\
     (id = VUndefined \/ id = VNull -> Db.coerce Db.TInt id = Some Db.CNull)) /\
  (forall v : value,
     Company.update v [] d = (Throw (BadRequestError "No data"), d) /\
     Job.update v [] d = (Throw (BadRequestError "No data"), d)).
Proof.
  split; [|split; [|split; [|split; [|split]]]]; [| | | | |by intros v].
  - intros h data cells Hpay. split.
    + by apply (Company_update_not_found h data cells).
    + intros pre post c. by apply (Company_update_found h data cells).
  - intros id data cells. apply Job_update_id_spec.
  - intros h. apply Company_remove_spec.
  - intros id. apply Job_remove_id_spec.
  - intros id. split; [apply coerce_int_cases|]. split.
    + by intros n ->.
    + by intros [->| ->].
Qed.

Lemma update_remove_spec_witness :
  (exists d' : Db.database,
     Company.update (VStr "nope") [("name", VStr "New")] sample_db =
       (Throw (NotFoundError "No company: nope"), d') /\
     Db.companies d' = Db.companies sample_db /\ Db.jobs d' = Db.jobs sample_db) /\
  (exists d' : Db.database,
     Job.remove (VStr "1") sample_db = (Ok tt, d') /\
     (forall r, r ∈ Db.jobs d' <->
                r ∈ Db.jobs sample_db /\ Db.field r "id" <> Db.CInt 1) /\
     Db.companies d' = Db.companies sample_db) /\
  (exists d' : Db.database,
     Job.update (VNum 2147483648) [("title", VStr "New")] sample_db =
       (Throw (DatabaseError "statement rejected"), d') /\
     Db.companies d' = Db.companies sample_db /\ Db.jobs d' = Db.jobs sample_db).
Proof.
  split; [|split].
  - apply (proj1 (proj1 (update_remove_spec sample_db)
                    "nope" [("name", VStr "New")] [Db.CText "New"]
                    ltac:(repeat split;
                          [discriminate | repeat constructor; set_solver
                          | repeat constructor; set_solver | repeat constructor]))).
    repeat constructor; discriminate.
  - apply (proj2 (proj1 (proj1 (proj2 (proj2 (proj2 (update_remove_spec sample_db))))
                           (VStr "1")) 1%Z eq_refl)).
    apply Exists_cons_hd. reflexivity.
  - apply (proj2 (proj2 (proj1 (proj2 (update_remove_spec sample_db))
                           (VNum 2147483648) [("title", VStr "New")] [Db.CText "New"]
                           ltac:(repeat split;
                                 [discriminate | repeat constructor; set_solver
                                 | repeat constructor; set_solver | repeat constructor])))).
    reflexivity.
Defined.

(** C7 as stated fails, twice over: with an empty payload the update fails
    with BadRequest before any statement is sent, whether or not a row has
    the handle; and for a job id out of the range of the column, which no
    row can hold, the removal fails with a database error, not with
    NotFound. *)
Lemma update_empty_payload_counterexample :
  Company.update (VStr "nope") [] sample_db =
    (Throw (BadRequestError "No data"), sample_db) /\
  Job.update (VNum 100000) [] sample_db =
    (Throw (BadRequestError "No data"), sample_db) /\
  ~ update_always_not_found /\
  Forall (fun j => Db.field j "id" <> Db.CInt 2147483648) (Db.jobs sample_db) /\
  Job.remove (VNum 2147483648) sample_db =
    (Throw (DatabaseError "statement rejected"),
     Db.logged sample_db Job.delete_sql [VNum 2147483648]).
Proof.
  split; [reflexivity|]. split; [reflexivity|]. split; [|split].
  - intros H. destruct (H "nope" [] sample_db) as (msg & d' & Hrun).
    + repeat constructor; discriminate.
    + discriminate Hrun.
  - repeat constructor; discriminate.
  - vm_compute. reflexivity.
Qed.

(** * Further properties *)

(** ** The guards after the authenticate step *)

Section GuardsAfterAuthenticate.
Context (jwt_verify : string -> string -> result value) (SECRET_KEY : string).

Lemma get_set_eq (o : obj) (k : string) (v : value) : JS.get (JS.set o k v) k = v.
Proof.
  induction o as [|[k' v'] o IH]; simpl.
  - by rewrite String.eqb_refl.
  - destruct (String.eqb_spec k' k) as [->|Hne]; simpl.
    + by rewrite String.eqb_refl.
    + by destruct (String.eqb_spec k' k).
Qed.

Lemma get_set_ne (o : obj) (k k' : string) (v : value) :
  k <> k' -> JS.get (JS.set o k v) k' = JS.get o k'.
Proof.
  intros Hne. induction o as [|[k0 v0] o IH]; simpl.
  - by destruct (String.eqb_spec k k').
  - destruct (String.eqb_spec k0 k) as [->|Hne0]; simpl.
    + by destruct (String.eqb_spec k k').
    + by rewrite IH.
Qed.

(** X1. The authenticate step followed by the logged-in guard: a request
    that arrives with no identity and a header whose token verifies to a
    truthy payload passes; one whose token does not verify, or that has no
    header, is refused with Unauthorized. *)
Theorem authenticate_then_ensureLoggedIn (req locals headers : obj) (s : string) :
  JS.get locals "user" = VUndefined ->
  (JS.get req "headers" = VObj headers ->
   JS.get headers "authorization" = VStr s -> s <> "" ->
   ensureLoggedIn (authenticateJWT jwt_verify SECRET_KEY req locals).1 =
     match jwt_verify (JS.trim (strip_bearer s)) SECRET_KEY with
     | Ok payload =>
         if JS.truthy payload then Next
         else NextErr (UnauthorizedError "Not logged in")
     | Throw _ => NextErr (UnauthorizedError "Not logged in")
     end) /\
  (JS.truthy (JS.get req "headers") = false \/
   (JS.get req "headers" = VObj headers /\
    JS.truthy (JS.get headers "authorization") = false) ->
   ensureLoggedIn (authenticateJWT jwt_verify SECRET_KEY req locals).1 =
     NextErr (UnauthorizedError "Not logged in")).
Proof.
  intros Hu. split.
  - intros Hh Ha Hs. rewrite (authenticateJWT_header _ _ _ _ _ _ Hh Ha Hs).
    unfold ensureLoggedIn. destruct (jwt_verify _ _) as [payload|e].
    + rewrite get_set_eq. by destruct (JS.truthy payload).
    + by rewrite Hu.
  - intros Hno. rewrite authenticateJWT_no_header.
    + unfold ensureLoggedIn. simpl. by rewrite Hu.
    + destruct Hno as [Hno|[Hh Ha]]; [by left|right; by exists headers].
Qed.

(** X2. The authenticate step followed by the admin guard: with a header
    whose token verifies to a payload object, the guard passes exactly when
    the [isAdmin] field of the payload is truthy, and refuses with
    Unauthorized otherwise. *)
Theorem authenticate_then_ensureAdmin (req locals headers payload : obj) (s : string) :
  JS.get req "headers" = VObj headers ->
  JS.get headers "authorization" = VStr s -> s <> "" ->
  jwt_verify (JS.trim (strip_bearer s)) SECRET_KEY = Ok (VObj payload) ->
  ensureAdmin (authenticateJWT jwt_verify SECRET_KEY req locals).1 =
    if JS.truthy (JS.get payload "isAdmin") then Next
    else NextErr (UnauthorizedError "Not an admin").
Proof.
  intros Hh Ha Hs Hv. rewrite (authenticateJWT_header _ _ _ _ _ _ Hh Ha Hs), Hv.
  apply ensureAdmin_identity, get_set_eq.
Qed.

(** X3. The authenticate step writes nothing but the [user] key: every other
    key of [res.locals] reads as before, and when no identity is attached
    [res.locals] is returned as it came. *)
Theorem authenticateJWT_other_keys (req locals : obj) (k : string) :
  k <> "user" ->
  JS.get (authenticateJWT jwt_verify SECRET_KEY req locals).1 k = JS.get locals k /\
  ((authenticateJWT jwt_verify SECRET_KEY req locals).1 = locals \/
   exists payload : value,
     (authenticateJWT jwt_verify SECRET_KEY req locals).1 = JS.set locals "user" payload).
Proof.
  intros Hk.
  assert (H : (authenticateJWT jwt_verify SECRET_KEY req locals).1 = locals \/
              exists payload : value,
                (authenticateJWT jwt_verify SECRET_KEY req locals).1 =
                  JS.set locals "user" payload).
  { unfold authenticateJWT.
    destruct (JS.truthy (JS.get req "headers")) eqn:Hh.
    - destruct (JS.prop (JS.get req "headers") "authorization") as [a|e]; simpl;
        [|by left].
      destruct (JS.truthy a); [|by left].
      destruct a as [| |b|n|s|o|f]; simpl; try (by left).
      destruct (jwt_verify _ _) as [payload|e]; simpl; [right; by eexists|by left].
    - simpl. rewrite Hh. by left. }
  split; [|exact H].
  destruct H as [->|[payload ->]]; [done|]. apply get_set_ne. congruence.
Qed.

End GuardsAfterAuthenticate.

Lemma authenticate_then_ensureLoggedIn_witness :
  ensureLoggedIn
    (authenticateJWT verify_tok "secret"
       [("headers", VObj [("authorization", VStr "Bearer tok")])] []).1 = Next /\
  ensureLoggedIn
    (authenticateJWT verify_tok "secret"
       [("headers", VObj [("authorization", VStr "Bearer bad")])] []).1 =
    NextErr (UnauthorizedError "Not logged in") /\
  ensureLoggedIn (authenticateJWT verify_tok "secret" [("headers", VObj [])] []).1 =
    NextErr (UnauthorizedError "Not logged in").
Proof.
  split; [|split].
  - apply (proj1 (authenticate_then_ensureLoggedIn verify_tok "secret"
                    [("headers", VObj [("authorization", VStr "Bearer tok")])] []
                    [("authorization", VStr "Bearer tok")] "Bearer tok" eq_refl)
             eq_refl eq_refl ltac:(discriminate)).
  - apply (proj1 (authenticate_then_ensureLoggedIn verify_tok "secret"
                    [("headers", VObj [("authorization", VStr "Bearer bad")])] []
                    [("authorization", VStr "Bearer bad")] "Bearer bad" eq_refl)
             eq_refl eq_refl ltac:(discriminate)).
  - apply (proj2 (authenticate_then_ensureLoggedIn verify_tok "secret"
                    [("headers", VObj [])] [] [] "" eq_refl)).
    right. split; reflexivity.
Defined.

Lemma authenticate_then_ensureAdmin_witness :
  ensureAdmin
    (authenticateJWT verify_tok "secret"
       [("headers", VObj [("authorization", VStr "Bearer tok")])] []).1 =
    NextErr (UnauthorizedError "Not an admin").
Proof.
  apply (authenticate_then_ensureAdmin verify_tok "secret"
           [("headers", VObj [("authorization", VStr "Bearer tok")])] []
           [("authorization", VStr "Bearer tok")]
           [("username", VStr "u1"); ("isAdmin", VBool false)] "Bearer tok"
           eq_refl eq_refl ltac:(discriminate) eq_refl).
Defined.

Lemma authenticateJWT_other_keys_witness :
  JS.get (authenticateJWT verify_tok "secret"
            [("headers", VObj [("authorization", VStr "Bearer tok")])]
            [("requestId", VNum 7)]).1 "requestId" = VNum 7.
Proof.
  apply (proj1 (authenticateJWT_other_keys verify_tok "secret"
                  [("headers", VObj [("authorization", VStr "Bearer tok")])]
                  [("requestId", VNum 7)] "requestId" ltac:(discriminate))).
Defined.

(** X4. The admin-or-self guard: it refuses with Unauthorized when no
    identity is attached; with an identity attached it passes when the
    [isAdmin] field is truthy, and otherwise exactly when the [username] of
    the identity is strictly equal to the [username] parameter of the
    route. *)
Theorem ensureValidUserOrAdmin_spec (params locals : obj) :
  (JS.truthy (JS.get locals "user") = false ->
   ensureValidUserOrAdmin params locals =
     NextErr (UnauthorizedError "Not a valid user or admin")) /\
  (forall user : obj, JS.get locals "user" = VObj user ->
     (JS.truthy (JS.get user "isAdmin") = true ->
      ensureValidUserOrAdmin params locals = Next) /\
     (JS.truthy (JS.get user "isAdmin") = false ->
      forall u p : string,
        JS.get user "username" = VStr u -> JS.get params "username" = VStr p ->
        (u = p -> ensureValidUserOrAdmin params locals = Next) /\
        (u <> p ->
         ensureValidUserOrAdmin params locals =
           NextErr (UnauthorizedError "Not a valid user or admin")))).
Proof.
  split.
  - intros Hu. unfold ensureValidUserOrAdmin. by rewrite Hu.
  - intros user Hu. unfold ensureValidUserOrAdmin. rewrite Hu. simpl. split.
    + by intros ->.
    + intros -> u p -> ->. simpl. split.
      * intros ->. by rewrite String.eqb_refl.
      * intros Hne. by destruct (String.eqb_spec u p).
Qed.

Lemma ensureValidUserOrAdmin_spec_witness :
  ensureValidUserOrAdmin [("username", VStr "u1")]
    [("user", VObj [("username", VStr "u1"); ("isAdmin", VBool false)])] = Next /\
  ensureValidUserOrAdmin [("username", VStr "u2")]
    [("user", VObj [("username", VStr "u1"); ("isAdmin", VBool false)])] =
    NextErr (UnauthorizedError "Not a valid user or admin") /\
  ensureValidUserOrAdmin [("username", VStr "u2")] [] =
    NextErr (UnauthorizedError "Not a valid user or admin").
Proof.
  split; [|split].
  - apply (proj1 (proj2 (proj2 (ensureValidUserOrAdmin_spec [("username", VStr "u1")]
             [("user", VObj [("username", VStr "u1"); ("isAdmin", VBool false)])])
             [("username", VStr "u1"); ("isAdmin", VBool false)] eq_refl)
             eq_refl "u1" "u1" eq_refl eq_refl) eq_refl).
  - apply (proj2 (proj2 (proj2 (ensureValidUserOrAdmin_spec [("username", VStr "u2")]
             [("user", VObj [("username", VStr "u1"); ("isAdmin", VBool false)])])
             [("username", VStr "u1"); ("isAdmin", VBool false)] eq_refl)
             eq_refl "u1" "u2" eq_refl eq_refl) ltac:(discriminate)).
  - apply (proj1 (ensureValidUserOrAdmin_spec [("username", VStr "u2")] []) eq_refl).
Defined.

(** ** The partial-update builder and the mapping *)

(** X5. The builder reads the mapping only at the keys of the payload: two
    mappings that agree on those keys give the same result. *)
Theorem sqlForPartialUpdate_agree (d : obj) (m m' : gmap string value) :
  (forall k : string, k ∈ JS.Object_keys d -> m !! k = m' !! k) ->
  sqlForPartialUpdate d m = sqlForPartialUpdate d m'.
Proof.
  intros Hagree. destruct d as [|kv d]; [reflexivity|].
  rewrite !sqlForPartialUpdate_cons. do 3 f_equal.
  apply imap_ext. intros i k Hk. unfold assignment, JS.index.
  rewrite Hagree; [done|]. by eapply list_elem_of_lookup_2.
Qed.

Lemma sqlForPartialUpdate_agree_witness :
  sqlForPartialUpdate [("numEmployees", VNum 100)] Company.jsToSql =
    sqlForPartialUpdate [("numEmployees", VNum 100)]
      {[ "numEmployees" := VStr "num_employees" ]}.
Proof.
  apply sqlForPartialUpdate_agree. intros k Hk.
  apply elem_of_cons in Hk as [->|Hk]; [reflexivity|]. by apply elem_of_nil in Hk.
Defined.

(** ** The filters: what they return *)

Section FilterRows.
Import Db.


Lemma Company_filter_statement (query : obj) :
  (Company.clauses query).1 <> [] ->
  parse (Company.filter_sql (Company.join_filters (Company.clauses query).1)) =
    Some (Select Star "companies"
            (company_filter_atoms (JS.has query "name") (JS.has query "minEmployees")
               (JS.has query "maxEmployees"))
            (Some "name")).
Proof.
  unfold Company.clauses.
  destruct (JS.has query "name"), (JS.has query "minEmployees"),
    (JS.has query "maxEmployees");
    simpl; intros Hne; try done; vm_compute; reflexivity.
Qed.





(** [ORDER BY] puts the rows in order. *)
Lemma cell_le_total (a b : cell) : cell_le a b = false -> cell_le b a = true.
Proof.
  destruct a as [|x|x|x sx], b as [|y|y|y sy]; simpl; try done.
  - intros H%Z.leb_gt. apply Z.leb_le. lia.
  - intros H. by destruct (String.leb_total x y) as [H'|H']; [rewrite H' in H|].
  - intros H%Z.leb_gt. apply Z.leb_le. lia.
Qed.

Lemma insert_sorted_ordered (c : string) (r : row) (rs : list row) :
  ordered_by c rs -> ordered_by c (insert_sorted c r rs).
Proof.
  unfold ordered_by. induction 1 as [|r' rs Hrs IH Hhd]; simpl.
  - repeat constructor.
  - destruct (cell_le (field r c) (field r' c)) eqn:Hle.
    + constructor; [by constructor|by constructor].
    + constructor; [exact IH|].
      destruct rs as [|r'' rs]; simpl.
      * constructor. by apply cell_le_total.
      * destruct (cell_le (field r c) (field r'' c)).
        -- constructor. by apply cell_le_total.
        -- constructor. by inversion Hhd.
Qed.

Lemma order_rows_ordered (c : string) (rs : list row) : ordered_by c (order_rows c rs).
Proof.
  induction rs as [|r rs IH]; simpl; [constructor|by apply insert_sorted_ordered].
Qed.

(** X8. The rows [Job.filter] and [Company.filter] return come in order:
    whenever the call returns rows, they are the rows of jobs in ascending
    order of [company_handle], and the rows of companies in ascending order
    of [name]. *)
Theorem filter_rows_ordered (query : obj) (d d' : database) (rows : list obj) :
  (Job.filter query d = (Ok rows, d') ->
   exists js : list row,
     rows = job_object <$> js /\ ordered_by "company_handle" js /\ js ⊆ jobs d) /\
  (Company.filter query d = (Ok rows, d') ->
   exists cs : list row,
     rows = company_record <$> cs /\ ordered_by "name" cs /\ cs ⊆ companies d).
Proof.
  split.
  - intros Hrun.
    destruct (existsb (fun key => Bool.eqb (JS.includes Job.validFilters key) false)
                (JS.Object_keys query)) eqn:Hv.
    { unfold Job.filter in Hrun. by rewrite Hv in Hrun. }
    rewrite (Job_filter_valid _ _ Hv) in Hrun. unfold bind in Hrun.
    destruct (Db.query _ _ d) as [[rows0|e] d0] eqn:Hq; [|discriminate].
    injection Hrun as -> ->.
    apply query_inv in Hq as (s & Hparse & Hexec).
    destruct (decide ((Job.clauses query).1 = [])) as [Hnone|Hsome].
    { rewrite Hnone in Hparse. change (Job.filter_sql _) with where_undefined_sql in Hparse.
      rewrite parse_where_undefined in Hparse. injection Hparse as <-.
      discriminate Hexec. }
    rewrite (Job_filter_statement _ Hsome) in Hparse. injection Hparse as <-.
    simpl in Hexec.
    destruct (eval_cond jobs_rel _ _) as [f|]; [|discriminate]. simpl in Hexec.
    injection Hexec as <- _. eexists. split; [reflexivity|].
    split; [apply order_rows_ordered|].
    intros r Hr. rewrite order_rows_perm in Hr.
    apply list_elem_of_In, List.filter_In in Hr as [Hr _]. by apply list_elem_of_In.
  - intros Hrun. unfold Company.filter in Hrun.
    destruct (existsb _ (JS.Object_keys query)); [discriminate|].
    destruct (_ && _); [discriminate|].
    destruct (Company.clauses query) as [fs vs] eqn:Hcl. unfold bind in Hrun.
    destruct (Db.query _ _ d) as [[rows0|e] d0] eqn:Hq; [|discriminate].
    injection Hrun as -> ->.
    apply query_inv in Hq as (s & Hparse & Hexec).
    assert (Hfs : fs = (Company.clauses query).1) by (by rewrite Hcl).
    destruct (decide (fs = [])) as [->|Hsome].
    { vm_compute in Hparse. injection Hparse as <-. discriminate Hexec. }
    rewrite Hfs, Company_filter_statement in Hparse by (by rewrite <- Hfs).
    injection Hparse as <-. simpl in Hexec.
    destruct (eval_cond companies_rel _ _) as [f|]; [|discriminate]. simpl in Hexec.
    injection Hexec as <- _. eexists. split; [reflexivity|].
    split; [apply order_rows_ordered|].
    intros r Hr. rewrite order_rows_perm in Hr.
    apply list_elem_of_In, List.filter_In in Hr as [Hr _]. by apply list_elem_of_In.
Qed.

Lemma filter_rows_ordered_witness :
  exists js : list row,
    [[("id", VNum 1); ("title", VStr "title1"); ("salary", VNum 100);
      ("equity", VStr "0.0"); ("company_handle", VStr "c1")];
     [("id", VNum 2); ("title", VStr "title2"); ("salary", VNum 200);
      ("equity", VStr "0.2"); ("company_handle", VStr "c2")]] = job_object <$> js /\
    ordered_by "company_handle" js /\ js ⊆ jobs sample_db.
Proof.
  apply (proj1 (filter_rows_ordered [("title", VStr "TITLE")] sample_db
                  (logged sample_db
                     (Job.filter_sql
                        (Job.join_filters (Job.clauses [("title", VStr "TITLE")]).1))
                     [VStr "%TITLE%"]) _)).
  vm_compute. reflexivity.
Defined.

Lemma parse_company_where_undefined :
  parse company_where_undefined_sql =
    Some (Select Star "companies" [ABare "undefined"] (Some "name")).
Proof. vm_compute. reflexivity. Qed.

(** X9. The filters only read: whatever the query and whatever the outcome,
    [Job.filter] and [Company.filter] leave both tables as they were, and
    send the database at most one statement. *)
Theorem filters_read_only (query : obj) (d : database) :
  (companies (Job.filter query d).2 = companies d /\
   jobs (Job.filter query d).2 = jobs d /\
   exists sent, log (Job.filter query d).2 = log d ++ sent /\ length sent <= 1) /\
  (companies (Company.filter query d).2 = companies d /\
   jobs (Company.filter query d).2 = jobs d /\
   exists sent, log (Company.filter query d).2 = log d ++ sent /\ length sent <= 1).
Proof.
  assert (Hsame : forall text params,
            companies (logged d text params) = companies d /\
            jobs (logged d text params) = jobs d /\
            exists sent, log (logged d text params) = log d ++ sent /\ length sent <= 1).
  { intros text params. repeat split. exists [(text, params)]. split; [done|simpl; lia]. }
  assert (Hnone : companies d = companies d /\ jobs d = jobs d /\
            exists sent, log d = log d ++ sent /\ length sent <= 1).
  { repeat split. exists []. split; [by rewrite app_nil_r|simpl; lia]. }
  split.
  - unfold Job.filter. destruct (existsb _ (JS.Object_keys query)); [exact Hnone|].
    destruct (Job.clauses query) as [fs vs] eqn:Hcl.
    assert (Hfs : fs = (Job.clauses query).1) by (by rewrite Hcl).
    rewrite bind_ret_state. destruct (decide (fs = [])) as [->|Hsome].
    + change (Job.filter_sql _) with where_undefined_sql.
      rewrite (query_select_tables _ _ _ _ _ _ _ parse_where_undefined). apply Hsame.
    + rewrite Hfs. erewrite query_select_tables; [apply Hsame|].
      apply Job_filter_statement. by rewrite <- Hfs.
  - unfold Company.filter. destruct (existsb _ (JS.Object_keys query)); [exact Hnone|].
    destruct (_ && _); [exact Hnone|].
    destruct (Company.clauses query) as [fs vs] eqn:Hcl.
    assert (Hfs : fs = (Company.clauses query).1) by (by rewrite Hcl).
    rewrite bind_ret_state. destruct (decide (fs = [])) as [->|Hsome].
    + change (Company.filter_sql _) with company_where_undefined_sql.
      rewrite (query_select_tables _ _ _ _ _ _ _ parse_company_where_undefined).
      apply Hsame.
    + rewrite Hfs. erewrite query_select_tables; [apply Hsame|].
      apply Company_filter_statement. by rewrite <- Hfs.
Qed.

(** X10. The clauses and their values stay aligned: each filter pushes as
    many values as clauses, at most three, and the clause at position [i]
    ends with the placeholder [$i+1], which is the position of its value. *)
Theorem filter_clauses_aligned (query : obj) :
  (length (Job.clauses query).1 = length (Job.clauses query).2 /\
   length (Job.clauses query).1 <= 3 /\
   forall (i : nat) (c : string), (Job.clauses query).1 !! i = Some c ->
     exists lhs : string, c = lhs +:+ "$" +:+ pretty (S i)) /\
  (length (Company.clauses query).1 = length (Company.clauses query).2 /\
   length (Company.clauses query).1 <= 3 /\
   forall (i : nat) (c : string), (Company.clauses query).1 !! i = Some c ->
     exists lhs : string, c = lhs +:+ "$" +:+ pretty (S i)).
Proof.
  split.
  - unfold Job.clauses. fold (wants_equity query).
    destruct (JS.has query "title"), (JS.has query "minSalary"), (wants_equity query);
      simpl; (split; [done|]); (split; [lia|]); intros i c Hi;
      repeat (destruct i as [|i]; simpl in Hi;
              [injection Hi as <-;
               first [by exists "title ILIKE " | by exists "salary >= "
                     | by exists "equity > "]|]);
      discriminate Hi.
  - unfold Company.clauses.
    destruct (JS.has query "name"), (JS.has query "minEmployees"),
      (JS.has query "maxEmployees");
      simpl; (split; [done|]); (split; [lia|]); intros i c Hi;
      repeat (destruct i as [|i]; simpl in Hi;
              [injection Hi as <-;
               first [by exists "name ILIKE " | by exists "num_employees >= "
                     | by exists "num_employees <= "]|]);
      discriminate Hi.
Qed.

(** X11. [Company.filter] with no clause to push: a query whose keys are all
    recognized but which holds none of them - the empty query - is sent as
    [WHERE undefined] and the database rejects it; the call fails with a
    database error, not with BadRequest. *)
Theorem Company_filter_no_clause (query : obj) (d : database) :
  Forall (fun k => k ∈ ["name"; "minEmployees"; "maxEmployees"]) (JS.Object_keys query) ->
  (Company.clauses query).1 = [] ->
  query = [] /\
  Company.filter query d =
    (Throw (DatabaseError "statement rejected"),
     logged d company_where_undefined_sql []).
Proof.
  intros Hkeys Hnone.
  assert (Hq : query = []).
  { destruct query as [|[k v] query]; [done|]. exfalso.
    unfold JS.Object_keys in Hkeys. simpl in Hkeys.
    apply Forall_cons in Hkeys as [Hk _]. revert Hnone. unfold Company.clauses.
    assert (JS.has ((k, v) :: query) k = true) as Hhas.
    { unfold JS.has. simpl. by rewrite String.eqb_refl. }
    rewrite !elem_of_cons, elem_of_nil in Hk.
    destruct Hk as [->|[->|[->|[]]]]; rewrite Hhas;
      repeat match goal with |- context [JS.has ?q ?x] => destruct (JS.has q x) end;
      simpl; discriminate. }
  split; [exact Hq|]. subst query. unfold Company.filter, bind. simpl.
  change (Company.filter_sql VUndefined) with company_where_undefined_sql.
  by rewrite (query_rejected _ _ _ _ parse_company_where_undefined eq_refl).
Qed.

Lemma Company_filter_no_clause_witness :
  Company.filter [] sample_db =
    (Throw (DatabaseError "statement rejected"),
     logged sample_db company_where_undefined_sql []).
Proof.
  apply (Company_filter_no_clause [] sample_db); [constructor|reflexivity].
Defined.

End FilterRows.

(** ** Company.get, and the operations one after another *)

Section CompanyGet.
Import Db.

Lemma selectQuery_jobs (v : value) :
  selectQuery "jobs" ["company_handle"] [v] = query select_jobs_sql [v].
Proof. reflexivity. Qed.

Lemma parse_select_jobs :
  parse select_jobs_sql = Some (Select Star "jobs" [ACmp "company_handle" CmpEq 1] None).
Proof. vm_compute. reflexivity. Qed.

Lemma query_select_jobs (h : string) (d : database) :
  query select_jobs_sql [VStr h] d =
    (Ok (job_object <$> jobs_of h (jobs d)), logged d select_jobs_sql [VStr h]).
Proof.
  eapply query_ok; [apply parse_select_jobs|]. simpl. do 3 f_equal.
  apply List.filter_ext. intros r. rewrite andb_true_r.
  destruct (test CmpEq _ _) eqn:E.
  - symmetry. apply bool_decide_eq_true_2. by apply test_eq_text.
  - symmetry. apply bool_decide_eq_false_2. intros H%test_eq_text. congruence.
Qed.

Lemma Company_get_not_found (h : string) (d : database) :
  Forall (fun c => field c "handle" <> CText h) (companies d) ->
  Company.get (VStr h) d =
    (Throw (NotFoundError ("No company: " +:+ h)), logged d select_company_sql [VStr h]).
Proof.
  intros Hno%not_selected_text. unfold Company.get, bind.
  by rewrite selectQuery_company, query_select_company, (filter_none _ _ Hno).
Qed.

Lemma Company_get_found (h : string) (d : database) (pre post : list row) (c : row) :
  companies d = pre ++ c :: post ->
  Forall (fun r => field r "handle" <> CText h) pre ->
  field c "handle" = CText h ->
  Company.get (VStr h) d =
    (Ok {| Company.company := company_record c;
           Company.jobs := job_object <$> jobs_of h (jobs d) |},
     logged (logged d select_company_sql [VStr h]) select_jobs_sql [VStr h]).
Proof.
  intros Hc Hpre%not_selected_text Hh%test_eq_text. unfold Company.get, bind.
  rewrite selectQuery_company, query_select_company, Hc.
  rewrite (filter_first _ _ _ _ Hpre Hh). simpl.
  by rewrite selectQuery_jobs, query_select_jobs.
Qed.

End CompanyGet.

(** X12. [Company.get(h)] fails with NotFound when no company has the handle
    [h]; otherwise it returns the row of the company, under the names of the
    columns, with the rows of all the jobs whose [company_handle] is [h] -
    none when no job refers to it - under [jobs]; and it changes no table. *)
Theorem Company_get_spec (h : string) (d : Db.database) :
  (Forall (fun c => Db.field c "handle" <> Db.CText h) (Db.companies d) ->
   exists d' : Db.database,
     Company.get (VStr h) d = (Throw (NotFoundError ("No company: " +:+ h)), d') /\
     Db.companies d' = Db.companies d /\ Db.jobs d' = Db.jobs d) /\
  (forall (pre post : list Db.row) (c : Db.row),
     Db.companies d = pre ++ c :: post ->
     Forall (fun r => Db.field r "handle" <> Db.CText h) pre ->
     Db.field c "handle" = Db.CText h ->
     exists d' : Db.database,
       Company.get (VStr h) d =
         (Ok {| Company.company :=
                  [("handle", VStr h); ("name", Db.to_js (Db.field c "name"));
                   ("description", Db.to_js (Db.field c "description"));
                   ("num_employees", Db.to_js (Db.field c "num_employees"));
                   ("logo_url", Db.to_js (Db.field c "logo_url"))];
                Company.jobs := job_object <$> jobs_of h (Db.jobs d) |}, d') /\
       Db.companies d' = Db.companies d /\ Db.jobs d' = Db.jobs d /\
       (Forall (fun j => Db.field j "company_handle" <> Db.CText h) (Db.jobs d) ->
        jobs_of h (Db.jobs d) = [])).
Proof.
  split.
  - intros Hno. eexists. split; [by apply Company_get_not_found|done].
  - intros pre post c Hc Hpre Hh. eexists. split.
    + rewrite (Company_get_found h d pre post c Hc Hpre Hh).
      unfold company_record. by rewrite Hh.
    + repeat split; try reflexivity. intros Hno. apply filter_none.
      eapply Forall_impl; [exact Hno|]. intros j Hj. by apply bool_decide_eq_false_2.
Qed.

Lemma Company_get_spec_witness :
  (exists d' : Db.database,
     Company.get (VStr "nope") sample_db =
       (Throw (NotFoundError "No company: nope"), d') /\
     Db.companies d' = Db.companies sample_db /\ Db.jobs d' = Db.jobs sample_db) /\
  (exists d' : Db.database,
     Company.get (VStr "c1") sample_db =
       (Ok {| Company.company :=
                [("handle", VStr "c1"); ("name", VStr "C1"); ("description", VStr "Desc1");
                 ("num_employees", VNum 1); ("logo_url", VStr "http://c1.img")];
              Company.jobs :=
                [[("id", VNum 1); ("title", VStr "title1"); ("salary", VNum 100);
                  ("equity", VStr "0.0"); ("company_handle", VStr "c1")]] |}, d') /\
     Db.companies d' = Db.companies sample_db /\ Db.jobs d' = Db.jobs sample_db).
Proof.
  split.
  - apply (proj1 (Company_get_spec "nope" sample_db)). repeat constructor; discriminate.
  - destruct (proj2 (Company_get_spec "c1" sample_db)
                [] (drop 1 (Db.companies sample_db))
                (default [] (head (Db.companies sample_db)))
                eq_refl ltac:(constructor) eq_refl) as (d' & Hget & Hc & Hj & _).
    exists d'. split; [exact Hget|by split].
Defined.

Section OneAfterAnother.
Import Db.

Lemma field_company_row_handle (h name description num logo : cell) :
  field (company_row h name description num logo) "handle" = h.
Proof. reflexivity. Qed.

(** X13. A company created is the company read: after [Company.create]
    succeeds on a payload with the handle [h], [Company.get(h)] returns the
    values stored for the five fields (under the names of the columns, where
    [create] returned them under [numEmployees] and [logoUrl]), with the jobs
    that refer to [h] - none if no job does. *)
Theorem create_then_get (data : obj) (h : string) (d : database)
    (name description num_employees logo_url : cell) :
  JS.get data "handle" = VStr h ->
  Forall (fun c => field c "handle" <> CText h) (companies d) ->
  coerce TText (JS.get data "name") = Some name ->
  coerce TText (JS.get data "description") = Some description ->
  coerce TInt (JS.get data "numEmployees") = Some num_employees ->
  coerce TText (JS.get data "logoUrl") = Some logo_url ->
  exists d1 d2 : database,
    Company.create data d =
      (Ok (VObj [("handle", VStr h); ("name", to_js name);
                 ("description", to_js description);
                 ("numEmployees", to_js num_employees);
                 ("logoUrl", to_js logo_url)]), d1) /\
    Company.get (VStr h) d1 =
      (Ok {| Company.company :=
               [("handle", VStr h); ("name", to_js name);
                ("description", to_js description);
                ("num_employees", to_js num_employees);
                ("logo_url", to_js logo_url)];
             Company.jobs := job_object <$> jobs_of h (jobs d) |}, d2) /\
    (Forall (fun j => field j "company_handle" <> CText h) (jobs d) ->
     jobs_of h (jobs d) = []).
Proof.
  intros Hh Hno Hn Hd He Hl.
  set (d1 := {| companies :=
                  companies d ++
                    [company_row (CText h) name description num_employees logo_url];
                jobs := jobs d;
                log := log d ++
                  [(select_company_sql, [VStr h]);
                   (Company.insert_sql,
                    [VStr h; JS.get data "name"; JS.get data "description";
                     JS.get data "numEmployees"; JS.get data "logoUrl"])] |}).
  exists d1, (logged (logged d1 select_company_sql [VStr h]) select_jobs_sql [VStr h]).
  split; [|split].
  - by apply Company_create_fresh.
  - by rewrite (Company_get_found h d1 (companies d) []
                  (company_row (CText h) name description num_employees logo_url)
                  eq_refl Hno eq_refl).
  - intros Hj. apply filter_none. eapply Forall_impl; [exact Hj|].
    intros j Hne. by apply bool_decide_eq_false_2.
Qed.

(** X14. A handle is taken once: after [Company.create] succeeds on a
    payload with the handle [h], a second [Company.create] with the same
    handle fails with BadRequest, whatever its other fields. *)
Theorem create_twice (data data' : obj) (h : string) (d d1 : database) (company : value) :
  JS.get data "handle" = VStr h -> JS.get data' "handle" = VStr h ->
  Company.create data d = (Ok company, d1) ->
  exists d2 : database,
    Company.create data' d1 =
      (Throw (BadRequestError ("Duplicate company: " +:+ h)), d2) /\
    companies d2 = companies d1 /\ jobs d2 = jobs d1.
Proof.
  intros Hh Hh' Hrun.
  exists (logged d1 select_company_sql [VStr h]). split; [|split; reflexivity].
  apply Company_create_duplicate; [exact Hh'|].
  revert Hrun. unfold Company.create, bind.
  rewrite Hh, selectQuery_company, query_select_company.
  destruct (List.filter _ (companies d)) as [|c cs]; [|discriminate]. simpl.
  destruct (query Company.insert_sql _ _) as [[rows|e] d0] eqn:Hq; [|discriminate].
  intros [= _ ->]. apply query_inv in Hq as (s & Hp & He).
  rewrite parse_insert_company in Hp. injection Hp as <-.
  simpl in He.
  destruct (coerce TText (JS.get data "name")) as [cn|]; [|discriminate]. simpl in He.
  destruct (coerce TText (JS.get data "description")) as [cd|]; [|discriminate].
  simpl in He.
  destruct (coerce TInt (JS.get data "numEmployees")) as [ce|]; [|discriminate].
  simpl in He.
  destruct (coerce TText (JS.get data "logoUrl")) as [cl|]; [|discriminate].
  simpl in He.
  destruct (key_free _ _ _); [|discriminate]. injection He as _ <-.
  simpl. apply Exists_app. right. by apply Exists_cons_hd.
Qed.

(** X15. What is removed is gone: after [Company.remove(h)] succeeds, a
    second [Company.remove(h)] and [Company.get(h)] fail with NotFound, and
    the jobs are as they were; after [Job.remove(n)] succeeds, a second
    [Job.remove(n)] fails with NotFound. *)
Theorem remove_then_gone (d d1 : database) :
  (forall h : string,
     Company.remove (VStr h) d = (Ok tt, d1) ->
     (exists d2 : database,
        Company.remove (VStr h) d1 =
          (Throw (NotFoundError ("No company: " +:+ h)), d2)) /\
     (exists d2 : database,
        Company.get (VStr h) d1 = (Throw (NotFoundError ("No company: " +:+ h)), d2)) /\
     jobs d1 = jobs d) /\
  (forall n : Z,
     in_int4 n = true ->
     Job.remove (VNum n) d = (Ok tt, d1) ->
     (exists d2 : database,
        Job.remove (VNum n) d1 = (Throw (NotFoundError ("No job: " +:+ pretty n)), d2)) /\
     companies d1 = companies d).
Proof.
  split.
  - intros h Hrun. rewrite Company_remove_run in Hrun.
    assert (Hd1 : d1 = with_rows (logged d Company.delete_sql [VStr h]) "companies"
                         (List.filter
                            (fun r => negb (test CmpEq (field r "handle") (CText h)))
                            (companies d))).
    { destruct (List.filter (fun r => test CmpEq (field r "handle") (CText h))
                  (companies d)); [discriminate Hrun|].
      by injection Hrun as <-. }
    assert (Hno : Forall (fun c => field c "handle" <> CText h) (companies d1)).
    { rewrite Hd1. simpl. apply Forall_forall. intros r Hr.
      apply list_elem_of_In, List.filter_In in Hr as [_ Hr].
      apply negb_true_iff in Hr. intros Heq%test_eq_text. congruence. }
    split; [|split].
    + destruct (proj1 (Company_remove_spec h d1) Hno) as (d2 & Hrm & _). by exists d2.
    + eexists. by apply Company_get_not_found.
    + by rewrite Hd1.
  - intros n Hn Hrun. rewrite (Job_remove_run _ _ Hn) in Hrun.
    assert (Hd1 : d1 = with_rows (logged d Job.delete_sql [VNum n]) "jobs"
                         (List.filter
                            (fun r => negb (test CmpEq (field r "id") (CInt n)))
                            (jobs d))).
    { destruct (List.filter (fun r => test CmpEq (field r "id") (CInt n)) (jobs d));
        [discriminate Hrun|].
      by injection Hrun as <-. }
    assert (Hno : Forall (fun j => field j "id" <> CInt n) (jobs d1)).
    { rewrite Hd1. simpl. apply Forall_forall. intros r Hr.
      apply list_elem_of_In, List.filter_In in Hr as [_ Hr].
      apply negb_true_iff in Hr. intros Heq%test_eq_int. congruence. }
    split.
    + destruct (proj1 (Job_remove_spec n d1 Hn) Hno) as (d2 & Hrm & _). by exists d2.
    + by rewrite Hd1.
Qed.

Lemma query_get_company_null (d : database) :
  query Job.get_company_sql [VNull] d = (Ok [], logged d Job.get_company_sql [VNull]).
Proof.
  eapply query_ok; [apply parse_get_company|]. simpl.
  rewrite filter_none; [done|]. apply Forall_forall. intros r _.
  by destruct (field r "handle").
Qed.

(** X16. [Job.get] of a job whose company is missing: when the
    [company_handle] of the job is null, or names no company, the call still
    succeeds and returns the job with [undefined] under [company_handle]. *)
Theorem Job_get_dangling (t : string) (d : database) (pre post : list row) (j : row) :
  jobs d = pre ++ j :: post ->
  Forall (fun r => field r "title" <> CText t) pre ->
  field j "title" = CText t ->
  field j "company_handle" = CNull \/
  (exists h : string, field j "company_handle" = CText h /\
     Forall (fun c => field c "handle" <> CText h) (companies d)) ->
  exists d' : database,
    Job.get (VStr t) d =
      (Ok (VObj [("id", to_js (field j "id")); ("title", VStr t);
                 ("salary", to_js (field j "salary"));
                 ("equity", to_js (field j "equity"));
                 ("company_handle", VUndefined)]), d') /\
    companies d' = companies d /\ jobs d' = jobs d.
Proof.
  intros Hj Hpre%not_selected_text Ht Hc. unfold Job.get, bind.
  rewrite query_get_job, Hj.
  rewrite (filter_first _ _ _ _ Hpre) by (by apply test_eq_text). simpl.
  destruct Hc as [Hc|(h & Hc & Hno%not_selected_text)]; rewrite Hc; simpl.
  - rewrite query_get_company_null. simpl. rewrite Ht. by eexists.
  - rewrite query_get_company. simpl. rewrite (filter_none _ _ Hno). simpl.
    rewrite Ht. by eexists.
Qed.

(** X17. An update keeps the keys: with a payload it accepts,
    [Company.update] leaves the handles of the companies, row by row, and the
    jobs as they were, and [Job.update] leaves the ids and the
    [company_handle]s of the jobs, row by row, and the companies as they
    were - whether or not a row was found. *)
Theorem update_keeps_keys (d : database) (data : obj) (cells : list cell) :
  (forall h : string,
     payload_for company_fields data cells ->
     (fun r => field r "handle") <$> companies (Company.update (VStr h) data d).2 =
       (fun r => field r "handle") <$> companies d /\
     jobs (Company.update (VStr h) data d).2 = jobs d) /\
  (forall n : Z,
     in_int4 n = true ->
     payload_for job_fields data cells ->
     (fun r => field r "id") <$> jobs (Job.update (VNum n) data d).2 =
       (fun r => field r "id") <$> jobs d /\
     (fun r => field r "company_handle") <$> jobs (Job.update (VNum n) data d).2 =
       (fun r => field r "company_handle") <$> jobs d /\
     companies (Job.update (VNum n) data d).2 = companies d).
Proof.
  assert (Hkeep : forall (m : gmap string value) (col : string) (f : row -> bool)
                         (rs : list row),
            col ∉ column_for m <$> data.*1 ->
            (fun r => field r col) <$>
              ((fun r : row =>
                  if f r then assign r (zip (column_for m <$> data.*1) cells) else r)
                 <$> rs) =
            (fun r => field r col) <$> rs).
  { intros m col f rs Hcol. rewrite <- list_fmap_compose. apply list_fmap_ext.
    intros _ r _. simpl. destruct (f r); [|done]. apply assign_other.
    intros Hin. apply Hcol. apply list_elem_of_fmap in Hin as ([c v] & -> & Hin).
    by apply elem_of_zip_l in Hin. }
  split.
  - intros h Hpay. rewrite (Company_update_run _ _ _ _ Hpay). simpl. split; [|done].
    apply Hkeep.
    pose proof (payload_checked_company _ _ Hpay) as (_ & _ & Hkey & _)%update_checked_facts.
    intros Hin. apply not_true_iff_false in Hkey. apply Hkey, existsb_exists.
    exists "handle". split; [by apply list_elem_of_In|reflexivity].
  - intros n Hn Hpay. rewrite (Job_update_run _ _ _ _ Hn Hpay). simpl.
    split; [|split; [|done]].
    + apply Hkeep.
      pose proof (payload_checked_job _ _ Hpay) as (_ & _ & Hkey & _)%update_checked_facts.
      intros Hin. apply not_true_iff_false in Hkey. apply Hkey, existsb_exists.
      exists "id". split; [by apply list_elem_of_In|reflexivity].
    + apply Hkeep. destruct Hpay as (_ & _ & Hin & _).
      intros (k & Hk & Hkin)%list_elem_of_fmap.
      apply (proj1 (Forall_forall _ _) Hin) in Hkin.
      unfold job_fields in Hkin.
      repeat (apply elem_of_cons in Hkin as [->|Hkin]; [discriminate Hk|]).
      by apply elem_of_nil in Hkin.
Qed.

End OneAfterAnother.

Lemma create_then_get_witness :
  exists d1 d2 : Db.database,
    Company.create
      [("handle", VStr "new"); ("name", VStr "New"); ("description", VStr "New Description");
       ("numEmployees", VNum 1); ("logoUrl", VStr "http://new.img")] sample_db =
      (Ok (VObj [("handle", VStr "new"); ("name", VStr "New");
                 ("description", VStr "New Description");
                 ("numEmployees", VNum 1); ("logoUrl", VStr "http://new.img")]), d1) /\
    Company.get (VStr "new") d1 =
      (Ok {| Company.company :=
               [("handle", VStr "new"); ("name", VStr "New");
                ("description", VStr "New Description");
                ("num_employees", VNum 1); ("logo_url", VStr "http://new.img")];
             Company.jobs := [] |}, d2).
Proof.
  destruct (create_then_get
              [("handle", VStr "new"); ("name", VStr "New");
               ("description", VStr "New Description");
               ("numEmployees", VNum 1); ("logoUrl", VStr "http://new.img")]
              "new" sample_db (Db.CText "New") (Db.CText "New Description")
              (Db.CInt 1) (Db.CText "http://new.img")
              eq_refl ltac:(repeat constructor; discriminate)
              eq_refl eq_refl eq_refl eq_refl) as (d1 & d2 & Hcreate & Hget & _).
  exists d1, d2. split; [exact Hcreate|exact Hget].
Defined.

Lemma create_twice_witness :
  exists d2 : Db.database,
    Company.create [("handle", VStr "new"); ("name", VStr "Other")]
      (Company.create [("handle", VStr "new"); ("name", VStr "New")] sample_db).2 =
      (Throw (BadRequestError "Duplicate company: new"), d2) /\
    Db.companies d2 =
      Db.companies (Company.create [("handle", VStr "new"); ("name", VStr "New")] sample_db).2 /\
    Db.jobs d2 = Db.jobs sample_db.
Proof.
  apply (create_twice [("handle", VStr "new"); ("name", VStr "New")]
           [("handle", VStr "new"); ("name", VStr "Other")] "new" sample_db
           (Company.create [("handle", VStr "new"); ("name", VStr "New")] sample_db).2
           (VObj [("handle", VStr "new"); ("name", VStr "New"); ("description", VNull);
                  ("numEmployees", VNull); ("logoUrl", VNull)])
           eq_refl eq_refl).
  vm_compute. reflexivity.
Defined.

Lemma remove_then_gone_witness :
  ((exists d2 : Db.database,
      Company.remove (VStr "c1") (Company.remove (VStr "c1") sample_db).2 =
        (Throw (NotFoundError "No company: c1"), d2)) /\
   (exists d2 : Db.database,
      Company.get (VStr "c1") (Company.remove (VStr "c1") sample_db).2 =
        (Throw (NotFoundError "No company: c1"), d2)) /\
   Db.jobs (Company.remove (VStr "c1") sample_db).2 = Db.jobs sample_db) /\
  ((exists d2 : Db.database,
      Job.remove (VNum 2) (Job.remove (VNum 2) sample_db).2 =
        (Throw (NotFoundError "No job: 2"), d2)) /\
   Db.companies (Job.remove (VNum 2) sample_db).2 = Db.companies sample_db).
Proof.
  split.
  - apply (proj1 (remove_then_gone sample_db (Company.remove (VStr "c1") sample_db).2) "c1").
    vm_compute. reflexivity.
  - apply (proj2 (remove_then_gone sample_db (Job.remove (VNum 2) sample_db).2) 2%Z eq_refl).
    vm_compute. reflexivity.
Defined.

Lemma Job_get_dangling_witness :
  exists d' : Db.database,
    Job.get (VStr "title1")
      {| Db.companies := []; Db.jobs := Db.jobs sample_db; Db.log := [] |} =
      (Ok (VObj [("id", VNum 1); ("title", VStr "title1"); ("salary", VNum 100);
                 ("equity", VStr "0.0"); ("company_handle", VUndefined)]), d') /\
    Db.companies d' = [] /\ Db.jobs d' = Db.jobs sample_db.
Proof.
  apply (Job_get_dangling "title1"
           {| Db.companies := []; Db.jobs := Db.jobs sample_db; Db.log := [] |}
           [] (drop 1 (Db.jobs sample_db)) (default [] (head (Db.jobs sample_db)))
           eq_refl ltac:(constructor) eq_refl).
  right. exists "c1". split; [reflexivity|constructor].
Defined.

Lemma update_keeps_keys_witness :
  ((fun r => Db.field r "handle") <$>
     Db.companies (Company.update (VStr "c1") [("name", VStr "New")] sample_db).2 =
   [Db.CText "c1"; Db.CText "c2"]) /\
  ((fun r => Db.field r "company_handle") <$>
     Db.jobs (Job.update (VNum 1) [("title", VStr "New")] sample_db).2 =
   [Db.CText "c1"; Db.CText "c2"]).
Proof.
  split.
  - apply (proj1 (proj1 (update_keeps_keys sample_db [("name", VStr "New")] [Db.CText "New"])
                    "c1"
                    ltac:(repeat split;
                          [discriminate | repeat constructor; set_solver
                          | repeat constructor; set_solver | repeat constructor]))).
  - apply (proj1 (proj2 (proj2 (update_keeps_keys sample_db [("title", VStr "New")]
                                  [Db.CText "New"])
                           1%Z eq_refl
                           ltac:(repeat split;
                                 [discriminate | repeat constructor; set_solver
                                 | repeat constructor; set_solver | repeat constructor])))).
Defined.
